(** * Case management: deadline classifier, case store, import reconciler

    A shallow embedding of the store handlers of [App.tsx] and of the copies
    of [getDeadlineStatus] found in the Spreadsheet, KpiDashboard and
    GlobalKpiDashboard components, followed by the properties proved about
    them.

    JavaScript strings are sequences of UTF-16 code units, numbers that the
    code only uses as integers are [Z] (the id counters are advanced with
    the rounding of a double, [JSNumber]), [undefined] is [None], and a time
    value is [option Z] (milliseconds since the epoch, [None] for NaN).  What
    the language leaves to the host (the time zone, [Date.parse] outside the
    ISO format, the Unicode case mapping, the clock) is gathered in a
    [Platform] record. *)

From Stdlib Require Import ZArith NArith Lia Bool.
From stdpp Require Import base decidable option list countable strings gmap.

Local Open Scope Z_scope.

(* ===================================================================== *)
(** ** JavaScript strings *)
(* ===================================================================== *)

Abbreviation jsstring := (list N).

Module JS.

(** An ASCII literal as a sequence of code units. *)
Fixpoint lit (s : string) : jsstring :=
  match s with
  | EmptyString => []
  | String a s' => Ascii.N_of_ascii a :: lit s'
  end.

(** WhiteSpace and LineTerminator code points of ECMA-262, the characters
    [String.prototype.trim] and [parseInt] strip. *)
Definition isWhiteSpace (c : N) : bool :=
  ((9 <=? c) && (c <=? 13) || (c =? 32) || (c =? 160) || (c =? 5760)
   || (8192 <=? c) && (c <=? 8202) || (c =? 8232) || (c =? 8233)
   || (c =? 8239) || (c =? 8287) || (c =? 12288) || (c =? 65279))%N.

Fixpoint trimStart (s : jsstring) : jsstring :=
  match s with
  | c :: s' => if isWhiteSpace c then trimStart s' else s
  | [] => []
  end.

Definition trimEnd (s : jsstring) : jsstring := rev (trimStart (rev s)).

(** [s.trim()] *)
Definition trim (s : jsstring) : jsstring := trimEnd (trimStart s).

Fixpoint startsWith (s p : jsstring) {struct p} : bool :=
  match p, s with
  | [], _ => true
  | _ :: _, [] => false
  | a :: p', b :: s' => (a =? b)%N && startsWith s' p'
  end.

(** [s.includes(sub)] *)
Fixpoint includes (s sub : jsstring) : bool :=
  startsWith s sub ||
  match s with
  | [] => false
  | _ :: s' => includes s' sub
  end.

(** [s.split(/[-/]/)]: every '-' (45) and '/' (47) ends a part. *)
Definition isDateSeparator (c : N) : bool := ((c =? 45) || (c =? 47))%N.

Fixpoint splitDate (s : jsstring) : list jsstring :=
  match s with
  | [] => [[]]
  | c :: s' =>
      if isDateSeparator c then [] :: splitDate s'
      else match splitDate s' with
           | p :: ps => (c :: p) :: ps
           | [] => [[c]]
           end
  end.

(** The value of a digit in radix 10 or 16, when it is one. *)
Definition digitValue (radix : Z) (c : N) : option Z :=
  let v := if ((48 <=? c) && (c <=? 57))%N then Some (Z.of_N c - 48)
           else if ((97 <=? c) && (c <=? 102))%N then Some (Z.of_N c - 87)
           else if ((65 <=? c) && (c <=? 70))%N then Some (Z.of_N c - 55)
           else None in
  match v with
  | Some d => if d <? radix then Some d else None
  | None => None
  end.

(** The longest prefix of radix-[radix] digits, read left to right;
    [None] when there is no digit at all. *)
Fixpoint digitsPrefix (radix : Z) (acc : option Z) (s : jsstring) : option Z :=
  match s with
  | [] => acc
  | c :: s' =>
      match digitValue radix c with
      | Some d => digitsPrefix radix (Some (default 0 acc * radix + d)) s'
      | None => acc
      end
  end.

(** [parseInt(s)] without a radix: leading white space, an optional sign,
    an optional [0x]/[0X] prefix, then the longest run of digits.  [None]
    is NaN.  The mathematical integer is kept exact. *)
Definition parseInt (s : jsstring) : option Z :=
  let s1 := trimStart s in
  let '(sign, s2) :=
    match s1 with
    | 45%N :: r => (-1, r)
    | 43%N :: r => (1, r)
    | _ => (1, s1)
    end in
  let '(radix, s3) :=
    match s2 with
    | 48%N :: 120%N :: r => (16, r)
    | 48%N :: 88%N :: r => (16, r)
    | _ => (10, s2)
    end in
  (fun n => sign * n) <$> digitsPrefix radix None s3.

(** [String(n)] for an integer: decimal digits, most significant first. *)
Fixpoint digitsOfPos (fuel : nat) (n : Z) (acc : jsstring) : jsstring :=
  match fuel with
  | O => acc
  | S fuel' =>
      let acc' := Z.to_N (48 + n mod 10) :: acc in
      if n / 10 =? 0 then acc' else digitsOfPos fuel' (n / 10) acc'
  end.

Definition String_ (n : Z) : jsstring :=
  if n <? 0 then 45%N :: digitsOfPos (S (Z.to_nat (Z.log2 (- n)))) (- n) []
  else digitsOfPos (S (Z.to_nat (Z.log2 n))) n [].

(** [s.padStart(width, '0')] *)
Definition padStart0 (width : nat) (s : jsstring) : jsstring :=
  replicate (width - length s)%nat 48%N ++ s.

(** [a || b] on strings that may be undefined: the empty string and
    [undefined] are falsy. *)
Definition orString (a : option jsstring) (b : jsstring) : jsstring :=
  match a with
  | Some (c :: s) => c :: s
  | _ => b
  end.

(** [a || []] on an array that may be undefined: every array is truthy. *)
Definition orEmpty {A} (a : option (list A)) : list A := default [] a.

End JS.

(** Integers held in a JS Number, an IEEE 754 double. *)
Module JSNumber.

(** The double nearest to the integer [z], ties going to the even
    significand.  Integers of magnitude up to 2^53 are doubles; beyond that
    a double keeps the 53 leading bits. *)
Definition roundToDouble (z : Z) : Z :=
  let a := Z.abs z in
  if a <=? 2 ^ 53 then z
  else
    let e := Z.log2 a - 52 in
    let q := a / 2 ^ e in
    let r := a mod 2 ^ e in
    let half := 2 ^ (e - 1) in
    let q' := if r <? half then q
              else if half <? r then q + 1
              else if Z.even q then q else q + 1 in
    Z.sgn z * (q' * 2 ^ e).

(** [++x] on a Number that holds the integer [x]: the sum [x + 1] as the
    addition of doubles gives it.  The sum of a finite double and 1 is
    finite. *)
Definition increment (x : Z) : Z := roundToDouble (x + 1).

End JSNumber.

(** A value passed where the source expects a string. *)
Inductive JsArg : Type :=
  | undefined
  | str (s : jsstring).

(** The completion of a call: a value, or the TypeError raised by a member
    access on [undefined]. *)
Inductive Completion (A : Type) : Type :=
  | normal (a : A)
  | throwTypeError.
Arguments normal {A} a.
Arguments throwTypeError {A}.

(* ===================================================================== *)
(** ** The host platform *)
(* ===================================================================== *)

Record Platform : Type := {
  (** LocalTZA(t, isUTC): the offset of local time, in milliseconds. *)
  LocalTZA : Z -> bool -> Z;
  (** [Date.parse]: the time value of a string, [None] for NaN. *)
  DateParse : jsstring -> option Z;
  (** [String.prototype.toLowerCase] *)
  toLowerCase : jsstring -> jsstring;
  (** the time value [new Date()] reads from the clock *)
  now : Z
}.

(* ===================================================================== *)
(** ** Dates (ECMA-262, Date objects) *)
(* ===================================================================== *)

(** Time values are integers, and so is every number the classifier
    computes from them.  A double holds an integer below 2^53 exactly, and
    [TimeClip] turns anything beyond 8.64e15 < 2^53 into NaN, so integer
    arithmetic on [Z] followed by [TimeClip] gives the time value that the
    double arithmetic of the language gives: the parts of a date string
    hold no '-', hence [parseInt] returns no negative number there, and a
    component too large to be exact only yields dates out of range.  In
    [Math.ceil(timeDiff / 86400000) <= 7] the quotient is rounded, but a
    quotient above 7 is above it by 1/86400000 at least, far more than the
    spacing of doubles near 7, so the test is that of the exact ceiling. *)
Module JSDate.

Definition msPerDay : Z := 86400000.

Definition Day (t : Z) : Z := t / msPerDay.

Definition DayFromYear (y : Z) : Z :=
  365 * (y - 1970) + (y - 1969) / 4 - (y - 1901) / 100 + (y - 1601) / 400.

Definition InLeapYear (y : Z) : bool :=
  ((y mod 4 =? 0) && negb (y mod 100 =? 0)) || (y mod 400 =? 0).

Definition daysBeforeMonth (leap : bool) (mn : Z) : Z :=
  nth (Z.to_nat mn) [0; 31; 59; 90; 120; 151; 181; 212; 243; 273; 304; 334] 0
  + (if leap && (2 <=? mn) then 1 else 0).

Definition DaysInMonth (y mn : Z) : Z :=
  if mn =? 1 then (if InLeapYear y then 29 else 28)
  else if (mn =? 3) || (mn =? 5) || (mn =? 8) || (mn =? 10) then 30 else 31.

(** MakeDay(year, month, date) on integers: the day number of the first
    of the month, plus [date - 1]. *)
Definition MakeDay (year month date : Z) : Z :=
  let ym := year + month / 12 in
  let mn := month mod 12 in
  DayFromYear ym + daysBeforeMonth (InLeapYear ym) mn + date - 1.

Definition MakeTime (hour min sec ms : Z) : Z :=
  hour * 3600000 + min * 60000 + sec * 1000 + ms.

Definition MakeDate (day time : Z) : Z := day * msPerDay + time.

(** TimeClip: NaN outside of +-8.64e15 ms. *)
Definition TimeClip (t : Z) : option Z :=
  if Z.abs t <=? 8640000000000000 then Some t else None.

Section WithPlatform.
Variable P : Platform.

Definition LocalTime (t : Z) : Z := t + LocalTZA P t true.
Definition UTC (t : Z) : Z := t - LocalTZA P t false.

(** [new Date()] *)
Definition DateNow : option Z := Some (now P).

(** [new Date(s)] *)
Definition DateOfString (s : jsstring) : option Z :=
  DateParse P s ≫= TimeClip.

(** [new Date(year, month, date)]: a NaN component gives an invalid
    date, a year from 0 to 99 means 1900 + year, and the components are
    read in local time. *)
Definition DateOfComponents (year month date : option Z) : option Z :=
  match year, month, date with
  | Some y, Some m, Some dt =>
      let yr := if (0 <=? y) && (y <=? 99) then 1900 + y else y in
      TimeClip (UTC (MakeDate (MakeDay yr m dt) (MakeTime 0 0 0 0)))
  | _, _, _ => None
  end.

(** [d.setHours(hour, min, sec, ms)] on the time value of [d]. *)
Definition setHours (d : option Z) (hour min sec ms : Z) : option Z :=
  match d with
  | None => None
  | Some t =>
      TimeClip (UTC (MakeDate (Day (LocalTime t)) (MakeTime hour min sec ms)))
  end.
End WithPlatform.

(** [isNaN(d.getTime())] *)
Definition isNaN (d : option Z) : bool :=
  match d with None => true | Some _ => false end.

(** [a < b] on time values: false as soon as one side is NaN. *)
Definition lt (a b : option Z) : bool :=
  match a, b with
  | Some x, Some y => x <? y
  | _, _ => false
  end.

(** [a.getTime() - b.getTime()] *)
Definition sub (a b : option Z) : option Z :=
  match a, b with
  | Some x, Some y => Some (x - y)
  | _, _ => None
  end.

(** [Math.ceil(x / d)] for an integer [x] and a positive integer [d]. *)
Definition ceilDiv (x : option Z) (d : Z) : option Z :=
  (fun v => - ((- v) / d)) <$> x.

(** [x <= n] on numbers: false for NaN. *)
Definition le (x : option Z) (n : Z) : bool :=
  match x with
  | Some v => v <=? n
  | None => false
  end.

(** [NaN - 1] is NaN. *)
Definition pred (x : option Z) : option Z := (fun v => v - 1) <$> x.

(** The date-only ISO form [YYYY-MM-DD], which [Date.parse] must accept
    and read as UTC midnight of that day. *)
Definition digit (c : N) : option Z := JS.digitValue 10 c.

Definition parseISODate (s : jsstring) : option Z :=
  match s with
  | [y1; y2; y3; y4; 45%N; m1; m2; 45%N; d1; d2] =>
      a ← digit y1; b ← digit y2; c ← digit y3; d ← digit y4;
      e ← digit m1; f ← digit m2; g ← digit d1; h ← digit d2;
      let y := 1000 * a + 100 * b + 10 * c + d in
      let m := 10 * e + f in
      let dt := 10 * g + h in
      if (1 <=? m) && (m <=? 12) && (1 <=? dt) && (dt <=? DaysInMonth y (m - 1))
      then Some (MakeDate (MakeDay y (m - 1) dt) 0)
      else None
  | _ => None
  end.

End JSDate.

(** A platform reads the ISO date-only form as ECMA-262 prescribes. *)
Definition ISOConformant (P : Platform) : Prop :=
  forall s t, JSDate.parseISODate s = Some t -> DateParse P s = Some t.

(* ===================================================================== *)
(** ** The deadline classifier *)
(* ===================================================================== *)

Inductive DeadlineStatus : Type :=
  | overdue
  | due_soon
  | on_track
  | completed
  | none.

(** The status keywords that mark a case as finished:
    'concluído', 'finalizado', 'transitado em julgado', 'arquivado'. *)
Definition kw_concluido : jsstring := JS.lit "conclu" ++ [237%N] ++ JS.lit "do".
Definition kw_finalizado : jsstring := JS.lit "finalizado".
Definition kw_transitado : jsstring := JS.lit "transitado em julgado".
Definition kw_arquivado : jsstring := JS.lit "arquivado".

(** Spreadsheet component. *)
Module Spreadsheet.
Import JSDate.

Definition getDeadlineStatus (P : Platform) (dateString status : JsArg)
  : Completion DeadlineStatus :=
  match status with
  | undefined => throwTypeError
  | str status =>
      let lowerStatus := toLowerCase P status in
      if JS.includes lowerStatus kw_concluido
         || JS.includes lowerStatus kw_finalizado
         || JS.includes lowerStatus kw_transitado
         || JS.includes lowerStatus kw_arquivado
      then normal completed
      else
        match dateString with
        | undefined => normal none
        | str [] => normal none
        | str dateString =>
            let parts := JS.splitDate dateString in
            let deadline :=
              match parts with
              | [p0; p1; p2] =>
                  if (length p0 =? 4)%nat
                  then DateOfComponents P (JS.parseInt p0)
                         (pred (JS.parseInt p1)) (JS.parseInt p2)
                  else DateOfComponents P (JS.parseInt p2)
                         (pred (JS.parseInt p1)) (JS.parseInt p0)
              | _ => DateOfString P dateString
              end in
            let today := DateNow P in
            let deadline := setHours P deadline 0 0 0 0 in
            let today := setHours P today 0 0 0 0 in
            if isNaN deadline then normal none
            else if lt deadline today then normal overdue
            else
              let timeDiff := sub deadline today in
              let daysDiff := ceilDiv timeDiff (1000 * 3600 * 24) in
              if le daysDiff 7 then normal due_soon
              else normal on_track
        end
  end.
End Spreadsheet.

(** KpiDashboard component. *)
Module KpiDashboard.
Import JSDate.

Definition getDeadlineStatus (P : Platform) (dateString status : JsArg)
  : Completion DeadlineStatus :=
  match status with
  | undefined => throwTypeError
  | str status =>
      let lowerStatus := toLowerCase P status in
      if JS.includes lowerStatus kw_concluido
         || JS.includes lowerStatus kw_finalizado
         || JS.includes lowerStatus kw_transitado
         || JS.includes lowerStatus kw_arquivado
      then normal completed
      else
        match dateString with
        | undefined => normal none
        | str [] => normal none
        | str dateString =>
            let deadline := DateOfString P dateString in
            let today := DateNow P in
            let deadline := setHours P deadline 0 0 0 0 in
            let today := setHours P today 0 0 0 0 in
            if isNaN deadline then normal none
            else if lt deadline today then normal overdue
            else
              let timeDiff := sub deadline today in
              let daysDiff := ceilDiv timeDiff (1000 * 3600 * 24) in
              if le daysDiff 7 then normal due_soon
              else normal on_track
        end
  end.
End KpiDashboard.

(** GlobalKpiDashboard component. *)
Module GlobalKpiDashboard.
Import JSDate.

Definition getDeadlineStatus (P : Platform) (dateString status : JsArg)
  : Completion DeadlineStatus :=
  match status with
  | undefined => throwTypeError
  | str status =>
      let lowerStatus := toLowerCase P status in
      if JS.includes lowerStatus kw_concluido
         || JS.includes lowerStatus kw_finalizado
         || JS.includes lowerStatus kw_transitado
         || JS.includes lowerStatus kw_arquivado
      then normal completed
      else
        match dateString with
        | undefined => normal none
        | str [] => normal none
        | str dateString =>
            let deadline := DateOfString P dateString in
            let today := DateNow P in
            let deadline := setHours P deadline 0 0 0 0 in
            let today := setHours P today 0 0 0 0 in
            if isNaN deadline then normal none
            else if lt deadline today then normal overdue
            else
              let timeDiff := sub deadline today in
              let daysDiff := ceilDiv timeDiff (1000 * 3600 * 24) in
              if le daysDiff 7 then normal due_soon
              else normal on_track
        end
  end.
End GlobalKpiDashboard.

(** *** Two concrete platforms *)

(** Lower case on Basic Latin and Latin-1 letters, other code units kept. *)
Definition lowerLatin1 (s : jsstring) : jsstring :=
  map (fun c : N =>
         if ((65 <=? c) && (c <=? 90)
             || (192 <=? c) && (c <=? 222) && negb (c =? 215))%N
         then (c + 32)%N else c) s.

(** 2024-05-10T15:00:00Z *)
Definition instant_2024_05_10_15h : Z :=
  JSDate.MakeDate (JSDate.MakeDay 2024 4 10) (JSDate.MakeTime 15 0 0 0).

(** A host on UTC. *)
Definition platformUTC : Platform :=
  {| LocalTZA := fun _ _ => 0;
     DateParse := JSDate.parseISODate;
     toLowerCase := lowerLatin1;
     now := instant_2024_05_10_15h |}.

(** A host three hours behind UTC (America/Sao_Paulo, no daylight saving). *)
Definition platformBRT : Platform :=
  {| LocalTZA := fun _ _ => -10800000;
     DateParse := JSDate.parseISODate;
     toLowerCase := lowerLatin1;
     now := instant_2024_05_10_15h |}.

(* ===================================================================== *)
(** ** Data model (types.ts) *)
(* ===================================================================== *)

Module TramitationEntry.
Record t : Type := mk {
  fromUser : jsstring;
  toUser : jsstring;
  timestamp : jsstring;
  deadline : jsstring
}.
End TramitationEntry.

Module Attachment.
Record t : Type := mk {
  id : jsstring;
  fileName : jsstring;
  fileType : jsstring;
  fileSize : Z;
  content : jsstring;
  uploadedBy : jsstring;
  timestamp : jsstring
}.
End Attachment.

Inductive Prioridade : Type := Alta | Media | Baixa.
Inductive SimNao : Type := Sim | Nao.
Inductive Permission : Type := adm | user.

(** [Omit<CaseData, 'id' | 'id2'>]: every field of a case but its two
    identifiers.  The setters are the object spreads [{...c, field: v}]. *)
Module CaseFields.
Record t : Type := mk {
  tribunal : jsstring;
  processoNumero : jsstring;
  autor : jsstring;
  reu : jsstring;
  trib : jsstring;
  varaComarca : jsstring;
  materia : jsstring;
  ownerName : jsstring;
  name : jsstring;
  email : jsstring;
  coResponsibleName : option jsstring;
  tramitationLog : option (list TramitationEntry.t);
  attachments : option (list Attachment.t);
  dataNomeacao : jsstring;
  dataInicial : jsstring;
  prazoDeterminado : jsstring;
  dataDesignada : jsstring;
  dataFinal : jsstring;
  startHour : jsstring;
  finishHour : jsstring;
  dataFinalCorridos : jsstring;
  diasUteis : Z;
  prioridade : Prioridade;
  dataAtribuida : jsstring;
  fases : jsstring;
  status : jsstring;
  segredoDeJustica : SimNao;
  naturezaAcao : jsstring;
  valorDaAcao : jsstring
}.

Definition set_ownerName (v : jsstring) (c : t) : t :=
  {| tribunal := tribunal c;
     processoNumero := processoNumero c;
     autor := autor c;
     reu := reu c;
     trib := trib c;
     varaComarca := varaComarca c;
     materia := materia c;
     ownerName := v;
     name := name c;
     email := email c;
     coResponsibleName := coResponsibleName c;
     tramitationLog := tramitationLog c;
     attachments := attachments c;
     dataNomeacao := dataNomeacao c;
     dataInicial := dataInicial c;
     prazoDeterminado := prazoDeterminado c;
     dataDesignada := dataDesignada c;
     dataFinal := dataFinal c;
     startHour := startHour c;
     finishHour := finishHour c;
     dataFinalCorridos := dataFinalCorridos c;
     diasUteis := diasUteis c;
     prioridade := prioridade c;
     dataAtribuida := dataAtribuida c;
     fases := fases c;
     status := status c;
     segredoDeJustica := segredoDeJustica c;
     naturezaAcao := naturezaAcao c;
     valorDaAcao := valorDaAcao c |}.

Definition set_name (v : jsstring) (c : t) : t :=
  {| tribunal := tribunal c;
     processoNumero := processoNumero c;
     autor := autor c;
     reu := reu c;
     trib := trib c;
     varaComarca := varaComarca c;
     materia := materia c;
     ownerName := ownerName c;
     name := v;
     email := email c;
     coResponsibleName := coResponsibleName c;
     tramitationLog := tramitationLog c;
     attachments := attachments c;
     dataNomeacao := dataNomeacao c;
     dataInicial := dataInicial c;
     prazoDeterminado := prazoDeterminado c;
     dataDesignada := dataDesignada c;
     dataFinal := dataFinal c;
     startHour := startHour c;
     finishHour := finishHour c;
     dataFinalCorridos := dataFinalCorridos c;
     diasUteis := diasUteis c;
     prioridade := prioridade c;
     dataAtribuida := dataAtribuida c;
     fases := fases c;
     status := status c;
     segredoDeJustica := segredoDeJustica c;
     naturezaAcao := naturezaAcao c;
     valorDaAcao := valorDaAcao c |}.

Definition set_email (v : jsstring) (c : t) : t :=
  {| tribunal := tribunal c;
     processoNumero := processoNumero c;
     autor := autor c;
     reu := reu c;
     trib := trib c;
     varaComarca := varaComarca c;
     materia := materia c;
     ownerName := ownerName c;
     name := name c;
     email := v;
     coResponsibleName := coResponsibleName c;
     tramitationLog := tramitationLog c;
     attachments := attachments c;
     dataNomeacao := dataNomeacao c;
     dataInicial := dataInicial c;
     prazoDeterminado := prazoDeterminado c;
     dataDesignada := dataDesignada c;
     dataFinal := dataFinal c;
     startHour := startHour c;
     finishHour := finishHour c;
     dataFinalCorridos := dataFinalCorridos c;
     diasUteis := diasUteis c;
     prioridade := prioridade c;
     dataAtribuida := dataAtribuida c;
     fases := fases c;
     status := status c;
     segredoDeJustica := segredoDeJustica c;
     naturezaAcao := naturezaAcao c;
     valorDaAcao := valorDaAcao c |}.

Definition set_coResponsibleName (v : option jsstring) (c : t) : t :=
  {| tribunal := tribunal c;
     processoNumero := processoNumero c;
     autor := autor c;
     reu := reu c;
     trib := trib c;
     varaComarca := varaComarca c;
     materia := materia c;
     ownerName := ownerName c;
     name := name c;
     email := email c;
     coResponsibleName := v;
     tramitationLog := tramitationLog c;
     attachments := attachments c;
     dataNomeacao := dataNomeacao c;
     dataInicial := dataInicial c;
     prazoDeterminado := prazoDeterminado c;
     dataDesignada := dataDesignada c;
     dataFinal := dataFinal c;
     startHour := startHour c;
     finishHour := finishHour c;
     dataFinalCorridos := dataFinalCorridos c;
     diasUteis := diasUteis c;
     prioridade := prioridade c;
     dataAtribuida := dataAtribuida c;
     fases := fases c;
     status := status c;
     segredoDeJustica := segredoDeJustica c;
     naturezaAcao := naturezaAcao c;
     valorDaAcao := valorDaAcao c |}.

Definition set_tramitationLog (v : option (list TramitationEntry.t)) (c : t) : t :=
  {| tribunal := tribunal c;
     processoNumero := processoNumero c;
     autor := autor c;
     reu := reu c;
     trib := trib c;
     varaComarca := varaComarca c;
     materia := materia c;
     ownerName := ownerName c;
     name := name c;
     email := email c;
     coResponsibleName := coResponsibleName c;
     tramitationLog := v;
     attachments := attachments c;
     dataNomeacao := dataNomeacao c;
     dataInicial := dataInicial c;
     prazoDeterminado := prazoDeterminado c;
     dataDesignada := dataDesignada c;
     dataFinal := dataFinal c;
     startHour := startHour c;
     finishHour := finishHour c;
     dataFinalCorridos := dataFinalCorridos c;
     diasUteis := diasUteis c;
     prioridade := prioridade c;
     dataAtribuida := dataAtribuida c;
     fases := fases c;
     status := status c;
     segredoDeJustica := segredoDeJustica c;
     naturezaAcao := naturezaAcao c;
     valorDaAcao := valorDaAcao c |}.

Definition set_attachments (v : option (list Attachment.t)) (c : t) : t :=
  {| tribunal := tribunal c;
     processoNumero := processoNumero c;
     autor := autor c;
     reu := reu c;
     trib := trib c;
     varaComarca := varaComarca c;
     materia := materia c;
     ownerName := ownerName c;
     name := name c;
     email := email c;
     coResponsibleName := coResponsibleName c;
     tramitationLog := tramitationLog c;
     attachments := v;
     dataNomeacao := dataNomeacao c;
     dataInicial := dataInicial c;
     prazoDeterminado := prazoDeterminado c;
     dataDesignada := dataDesignada c;
     dataFinal := dataFinal c;
     startHour := startHour c;
     finishHour := finishHour c;
     dataFinalCorridos := dataFinalCorridos c;
     diasUteis := diasUteis c;
     prioridade := prioridade c;
     dataAtribuida := dataAtribuida c;
     fases := fases c;
     status := status c;
     segredoDeJustica := segredoDeJustica c;
     naturezaAcao := naturezaAcao c;
     valorDaAcao := valorDaAcao c |}.
Definition set_processoNumero (v : jsstring) (c : t) : t :=
  {| tribunal := tribunal c;
     processoNumero := v;
     autor := autor c;
     reu := reu c;
     trib := trib c;
     varaComarca := varaComarca c;
     materia := materia c;
     ownerName := ownerName c;
     name := name c;
     email := email c;
     coResponsibleName := coResponsibleName c;
     tramitationLog := tramitationLog c;
     attachments := attachments c;
     dataNomeacao := dataNomeacao c;
     dataInicial := dataInicial c;
     prazoDeterminado := prazoDeterminado c;
     dataDesignada := dataDesignada c;
     dataFinal := dataFinal c;
     startHour := startHour c;
     finishHour := finishHour c;
     dataFinalCorridos := dataFinalCorridos c;
     diasUteis := diasUteis c;
     prioridade := prioridade c;
     dataAtribuida := dataAtribuida c;
     fases := fases c;
     status := status c;
     segredoDeJustica := segredoDeJustica c;
     naturezaAcao := naturezaAcao c;
     valorDaAcao := valorDaAcao c |}.

Definition set_status (v : jsstring) (c : t) : t :=
  {| tribunal := tribunal c;
     processoNumero := processoNumero c;
     autor := autor c;
     reu := reu c;
     trib := trib c;
     varaComarca := varaComarca c;
     materia := materia c;
     ownerName := ownerName c;
     name := name c;
     email := email c;
     coResponsibleName := coResponsibleName c;
     tramitationLog := tramitationLog c;
     attachments := attachments c;
     dataNomeacao := dataNomeacao c;
     dataInicial := dataInicial c;
     prazoDeterminado := prazoDeterminado c;
     dataDesignada := dataDesignada c;
     dataFinal := dataFinal c;
     startHour := startHour c;
     finishHour := finishHour c;
     dataFinalCorridos := dataFinalCorridos c;
     diasUteis := diasUteis c;
     prioridade := prioridade c;
     dataAtribuida := dataAtribuida c;
     fases := fases c;
     status := v;
     segredoDeJustica := segredoDeJustica c;
     naturezaAcao := naturezaAcao c;
     valorDaAcao := valorDaAcao c |}.
End CaseFields.

(** [CaseData] *)
Module CaseData.
Record t : Type := mk {
  id : Z;
  id2 : jsstring;
  fields : CaseFields.t
}.

Definition processoNumero (c : t) : jsstring := CaseFields.processoNumero (fields c).
Definition name (c : t) : jsstring := CaseFields.name (fields c).
Definition email (c : t) : jsstring := CaseFields.email (fields c).
Definition coResponsibleName (c : t) : option jsstring :=
  CaseFields.coResponsibleName (fields c).
Definition tramitationLog (c : t) : option (list TramitationEntry.t) :=
  CaseFields.tramitationLog (fields c).
Definition attachments (c : t) : option (list Attachment.t) :=
  CaseFields.attachments (fields c).
Definition prazoDeterminado (c : t) : jsstring :=
  CaseFields.prazoDeterminado (fields c).
End CaseData.

Module User.
Record t : Type := mk {
  id : Z;
  name : jsstring;
  email : jsstring;
  password : option jsstring;
  permission : Permission
}.
End User.

(** The [File] handed to the tramitation handler. *)
Module File.
Record t : Type := mk {
  name : jsstring;
  type : jsstring;
  size : Z
}.
End File.

(** What the [FileReader] reports for [readAsDataURL]: [onload] with
    [event.target?.result], or [onerror]. *)
Inductive ReadResult : Type :=
  | onload (result : option jsstring)
  | onerror.

(** The messages shown with [alert]. *)
Inductive Alert : Type :=
  | AlertProcessNumberRegistered (processoNumero : jsstring)
  | AlertCaseCreated (processoNumero : jsstring)
  | AlertProcessNumberOfOtherCase (processoNumero : jsstring)
  | AlertFileTooLarge
  | AlertUserNotFound (toUserName : jsstring)
  | AlertAttachmentEmpty
  | AlertAttachmentReadError
  | AlertImportReport (imported : nat) (duplicatesInSystem duplicatesInFile : list jsstring).

(* ===================================================================== *)
(** ** The case store (App.tsx) *)
(* ===================================================================== *)

Module App.

Definition MAX_FILE_SIZE_MB : Z := 2.
Definition MAX_FILE_SIZE_BYTES : Z := MAX_FILE_SIZE_MB * 1024 * 1024.

(** 'Ms Tributário' *)
Definition ownerMsTributario : jsstring :=
  JS.lit "Ms Tribut" ++ [225%N] ++ JS.lit "rio".

(** 'Sistema (Importação)' *)
Definition sistemaImportacao : jsstring :=
  JS.lit "Sistema (Importa" ++ [231%N; 227%N] ++ JS.lit "o)".

(** The state the handlers read and write: the [users] and [cases] state
    variables, the [lastCaseId] ref, and the alerts shown so far. *)
Record State : Type := mkState {
  users : list User.t;
  cases : list CaseData.t;
  lastCaseId : Z;
  alerts : list Alert
}.

Definition setCases (f : list CaseData.t -> list CaseData.t) (st : State) : State :=
  {| users := users st; cases := f (cases st);
     lastCaseId := lastCaseId st; alerts := alerts st |}.

Definition alert (a : Alert) (st : State) : State :=
  {| users := users st; cases := cases st;
     lastCaseId := lastCaseId st; alerts := alerts st ++ [a] |}.

(** [++lastCaseId.current] *)
Definition getNextCaseId (st : State) : Z * State :=
  let n := JSNumber.increment (lastCaseId st) in
  (n, {| users := users st; cases := cases st;
         lastCaseId := n; alerts := alerts st |}).

(** [useRef(cases.length > 0 ? Math.max(...cases.map(c => c.id)) : 0)] *)
Definition initialLastCaseId (cs : list CaseData.t) : Z :=
  match cs with
  | [] => 0
  | c :: cs' => fold_left Z.max (map CaseData.id cs') (CaseData.id c)
  end.

Section Handlers.
(** The host, the logged-in user ([currentUser!]), and the clock readings
    [new Date().toISOString()] and [Date.now()] of the call. *)
Variable P : Platform.
Variable currentUser : User.t.
Variable nowISO : jsstring.
Variable nowMs : Z.

Definition handleAddCase (newCase : CaseFields.t) (st : State) : State :=
  if existsb (fun c => bool_decide (JS.trim (CaseData.processoNumero c)
                                    = JS.trim (CaseFields.processoNumero newCase)))
       (cases st)
  then alert (AlertProcessNumberRegistered (CaseFields.processoNumero newCase)) st
  else
    let '(newId, st) := getNextCaseId st in
    let newId2 := JS.lit "MST" ++ JS.padStart0 5 (JS.String_ newId) in
    let tramitationLog :=
      [ {| TramitationEntry.fromUser := User.name currentUser;
           TramitationEntry.toUser := CaseFields.name newCase;
           TramitationEntry.timestamp := nowISO;
           TramitationEntry.deadline :=
             JS.orString (Some (CaseFields.prazoDeterminado newCase)) [] |} ] in
    let finalNewCase :=
      {| CaseData.id := newId;
         CaseData.id2 := newId2;
         CaseData.fields :=
           CaseFields.set_tramitationLog (Some tramitationLog)
             (CaseFields.set_coResponsibleName (Some (CaseFields.name newCase))
                (CaseFields.set_ownerName ownerMsTributario newCase)) |} in
    let st := setCases (fun prev => finalNewCase :: prev) st in
    alert (AlertCaseCreated (CaseData.processoNumero finalNewCase)) st.

Definition handleUpdateCase (updatedCase : CaseData.t) (st : State) : State :=
  if existsb (fun c => negb (CaseData.id c =? CaseData.id updatedCase)
                       && bool_decide (JS.trim (CaseData.processoNumero c)
                                       = JS.trim (CaseData.processoNumero updatedCase)))
       (cases st)
  then alert (AlertProcessNumberOfOtherCase (CaseData.processoNumero updatedCase)) st
  else
    setCases (fun prev => map (fun c =>
      if negb (CaseData.id c =? CaseData.id updatedCase) then c
      else if negb (bool_decide (CaseData.name c = CaseData.name updatedCase)) then
        let newUser := List.find (fun u => bool_decide (User.name u = CaseData.name updatedCase))
                         (users st) in
        let logEntry :=
          {| TramitationEntry.fromUser := User.name currentUser;
             TramitationEntry.toUser := CaseData.name updatedCase;
             TramitationEntry.timestamp := nowISO;
             TramitationEntry.deadline := CaseData.prazoDeterminado updatedCase |} in
        {| CaseData.id := CaseData.id updatedCase;
           CaseData.id2 := CaseData.id2 updatedCase;
           CaseData.fields :=
             CaseFields.set_coResponsibleName
               (Some (JS.orString (CaseData.coResponsibleName c) (CaseData.name updatedCase)))
               (CaseFields.set_tramitationLog
                  (Some (JS.orEmpty (CaseData.tramitationLog c) ++ [logEntry]))
                  (CaseFields.set_email (JS.orString (User.email <$> newUser) [])
                     (CaseData.fields updatedCase))) |}
      else updatedCase) prev) st.

Definition handleUpdateMultipleCases (updatedCases : list CaseData.t) (st : State) : State :=
  let updatedCaseMap : gmap Z CaseData.t :=
    fold_left (fun m c => <[CaseData.id c := c]> m) updatedCases ∅ in
  setCases (fun prevCases =>
    map (fun c => default c (updatedCaseMap !! CaseData.id c)) prevCases) st.

(** The callback of [prev.map] inside [processTramitation]: the new value
    of one case, and the alerts raised while computing it. *)
Definition tramitateOne (usersNow : list User.t)
    (caseId : Z) (toUserName deadline : jsstring)
    (attachmentFile : option File.t) (attachmentContent : option jsstring)
    (c : CaseData.t) : CaseData.t * list Alert :=
  if CaseData.id c =? caseId then
    match List.find (fun u => bool_decide (User.name u = toUserName)) usersNow with
    | None => (c, [AlertUserNotFound toUserName])
    | Some toUser =>
        let logEntry :=
          {| TramitationEntry.fromUser := User.name currentUser;
             TramitationEntry.toUser := toUserName;
             TramitationEntry.timestamp := nowISO;
             TramitationEntry.deadline := deadline |} in
        let updatedFields :=
          CaseFields.set_coResponsibleName
            (Some (JS.orString (CaseData.coResponsibleName c) (User.name toUser)))
            (CaseFields.set_tramitationLog
               (Some (JS.orEmpty (CaseData.tramitationLog c) ++ [logEntry]))
               (CaseFields.set_email (User.email toUser)
                  (CaseFields.set_name (User.name toUser) (CaseData.fields c)))) in
        let updatedFields :=
          match attachmentFile, attachmentContent with
          | Some file, Some (k :: content) =>
              let newAttachment :=
                {| Attachment.id := JS.String_ nowMs ++ JS.lit "-" ++ File.name file;
                   Attachment.fileName := File.name file;
                   Attachment.fileType := File.type file;
                   Attachment.fileSize := File.size file;
                   Attachment.content := k :: content;
                   Attachment.uploadedBy := User.name currentUser;
                   Attachment.timestamp := nowISO |} in
              CaseFields.set_attachments
                (Some (JS.orEmpty (CaseData.attachments c) ++ [newAttachment]))
                updatedFields
          | _, _ => updatedFields
          end in
        ({| CaseData.id := CaseData.id c;
            CaseData.id2 := CaseData.id2 c;
            CaseData.fields := updatedFields |}, [])
    end
  else (c, []).

Definition processTramitation
    (caseId : Z) (toUserName deadline : jsstring)
    (attachmentFile : option File.t) (attachmentContent : option jsstring)
    (st : State) : State :=
  let results :=
    map (tramitateOne (users st) caseId toUserName deadline
           attachmentFile attachmentContent) (cases st) in
  {| users := users st;
     cases := map fst results;
     lastCaseId := lastCaseId st;
     alerts := alerts st ++ concat (map snd results) |}.

(** [reader] is what the [FileReader] started by the call ends up
    reporting; it is only consulted when a file is attached. *)
Definition handleTramitateCase
    (caseId : Z) (toUserName deadline : jsstring)
    (attachmentFile : option File.t) (reader : ReadResult)
    (st : State) : State :=
  match attachmentFile with
  | Some file =>
      if MAX_FILE_SIZE_BYTES <? File.size file
      then alert AlertFileTooLarge st
      else
        match reader with
        | onload (Some (k :: content)) =>
            processTramitation caseId toUserName deadline
              attachmentFile (Some (k :: content)) st
        | onload _ => alert AlertAttachmentEmpty st
        | onerror => alert AlertAttachmentReadError st
        end
  | None => processTramitation caseId toUserName deadline None None st
  end.

(** The local variables of the loop of [handleImportCases]. *)
Record ImportLoop : Type := mkImportLoop {
  importedProcessNumbersInFile : gset jsstring;
  successfulImports : list CaseData.t;
  duplicatesInFile : list jsstring;
  duplicatesInSystem : list jsstring;
  nextState : State
}.

(** One iteration of [for (const importedCase of newCases)]. *)
Definition importStep (existingProcessNumbers : gset jsstring)
    (usersNow : list User.t)
    (acc : ImportLoop) (importedCase : CaseFields.t) : ImportLoop :=
  let trimmedProcessoNumero := JS.trim (CaseFields.processoNumero importedCase) in
  match trimmedProcessoNumero with
  | [] => acc
  | _ :: _ =>
      if bool_decide (trimmedProcessoNumero ∈ existingProcessNumbers) then
        {| importedProcessNumbersInFile := importedProcessNumbersInFile acc;
           successfulImports := successfulImports acc;
           duplicatesInFile := duplicatesInFile acc;
           duplicatesInSystem := duplicatesInSystem acc ++ [trimmedProcessoNumero];
           nextState := nextState acc |}
      else if bool_decide (trimmedProcessoNumero ∈ importedProcessNumbersInFile acc) then
        {| importedProcessNumbersInFile := importedProcessNumbersInFile acc;
           successfulImports := successfulImports acc;
           duplicatesInFile := duplicatesInFile acc ++ [trimmedProcessoNumero];
           duplicatesInSystem := duplicatesInSystem acc;
           nextState := nextState acc |}
      else
        let '(newId, st) := getNextCaseId (nextState acc) in
        let newId2 := JS.lit "MST" ++ JS.padStart0 5 (JS.String_ newId) in
        let assigneeName := CaseFields.name importedCase in
        let assigneeUser :=
          List.find (fun u => bool_decide
                       (toLowerCase P (JS.trim (User.name u))
                        = toLowerCase P (JS.trim assigneeName))) usersNow in
        let tramitationLog :=
          [ {| TramitationEntry.fromUser := sistemaImportacao;
               TramitationEntry.toUser := assigneeName;
               TramitationEntry.timestamp := nowISO;
               TramitationEntry.deadline :=
                 JS.orString (Some (CaseFields.prazoDeterminado importedCase)) [] |} ] in
        let finalCase :=
          {| CaseData.id := newId;
             CaseData.id2 := newId2;
             CaseData.fields :=
               CaseFields.set_tramitationLog (Some tramitationLog)
                 (CaseFields.set_coResponsibleName
                    (Some (JS.orString (User.name <$> assigneeUser) assigneeName))
                    (CaseFields.set_email (JS.orString (User.email <$> assigneeUser) [])
                       (CaseFields.set_name
                          (JS.orString (User.name <$> assigneeUser) assigneeName)
                          (CaseFields.set_ownerName ownerMsTributario importedCase)))) |} in
        {| importedProcessNumbersInFile :=
             {[ trimmedProcessoNumero ]} ∪ importedProcessNumbersInFile acc;
           successfulImports := successfulImports acc ++ [finalCase];
           duplicatesInFile := duplicatesInFile acc;
           duplicatesInSystem := duplicatesInSystem acc;
           nextState := st |}
  end.

(** The loop of [handleImportCases], from the sets and lists it starts
    with. *)
Definition importLoop (newCases : list CaseFields.t) (st : State) : ImportLoop :=
  let existingProcessNumbers : gset jsstring :=
    list_to_set (map (fun c => JS.trim (CaseData.processoNumero c)) (cases st)) in
  fold_left (importStep existingProcessNumbers (users st)) newCases
    {| importedProcessNumbersInFile := ∅;
       successfulImports := [];
       duplicatesInFile := [];
       duplicatesInSystem := [];
       nextState := st |}.

Definition handleImportCases (newCases : list CaseFields.t) (st : State) : State :=
  let r := importLoop newCases st in
  let st := setCases (fun prev => prev ++ successfulImports r) (nextState r) in
  alert (AlertImportReport (length (successfulImports r))
           (duplicatesInSystem r) (duplicatesInFile r)) st.

End Handlers.
End App.

(* ===================================================================== *)
(** ** Vocabulary of the statements *)
(* ===================================================================== *)

(** The four keywords of the terminal test. *)
Definition terminalKeywords : list jsstring :=
  [kw_concluido; kw_finalizado; kw_transitado; kw_arquivado].

(** The status label contains a terminal keyword, case-insensitively. *)
Definition isTerminal (P : Platform) (status : jsstring) : bool :=
  existsb (JS.includes (toLowerCase P status)) terminalKeywords.

(** The three copies of the classifier. *)
Inductive Copy : Type := InSpreadsheet | InKpiDashboard | InGlobalKpiDashboard.

Definition classify (v : Copy) : Platform -> JsArg -> JsArg -> Completion DeadlineStatus :=
  match v with
  | InSpreadsheet => Spreadsheet.getDeadlineStatus
  | InKpiDashboard => KpiDashboard.getDeadlineStatus
  | InGlobalKpiDashboard => GlobalKpiDashboard.getDeadlineStatus
  end.

(** The [Date] each copy builds from a non-empty date string, before the
    time of day is reset. *)
Definition deadlineOf (v : Copy) (P : Platform) (dateString : jsstring) : option Z :=
  match v with
  | InSpreadsheet =>
      match JS.splitDate dateString with
      | [p0; p1; p2] =>
          if (length p0 =? 4)%nat
          then JSDate.DateOfComponents P (JS.parseInt p0)
                 (JSDate.pred (JS.parseInt p1)) (JS.parseInt p2)
          else JSDate.DateOfComponents P (JS.parseInt p2)
                 (JSDate.pred (JS.parseInt p1)) (JS.parseInt p0)
      | _ => JSDate.DateOfString P dateString
      end
  | _ => JSDate.DateOfString P dateString
  end.

(** Midnight, local time, of the day of [t]: [setHours(0, 0, 0, 0)]. *)
Definition atMidnight (P : Platform) (t : option Z) : option Z :=
  JSDate.setHours P t 0 0 0 0.

(** The least number of whole days that covers [ms] milliseconds. *)
Definition ceilingDays (ms : Z) : Z := - ((- ms) / JSDate.msPerDay).

(** What every copy computes once the terminal test has failed and the
    date string is not empty. *)
Definition byDate (P : Platform) (deadline0 : option Z) : DeadlineStatus :=
  let deadline := atMidnight P deadline0 in
  let today := atMidnight P (JSDate.DateNow P) in
  if JSDate.isNaN deadline then none
  else if JSDate.lt deadline today then overdue
  else if JSDate.le (JSDate.ceilDiv (JSDate.sub deadline today) (1000 * 3600 * 24)) 7
       then due_soon else on_track.

(** The date string splits into exactly three parts on '-' and '/', the
    case in which the Spreadsheet copy reads the parts itself. *)
Definition splitsInThree (dateString : JsArg) : bool :=
  match dateString with
  | undefined => false
  | str s => (length (JS.splitDate s) =? 3)%nat
  end.






(** A decimal digit. *)
Definition isDigit (c : N) : Prop := (48 <= c <= 57)%N.

(** The number a run of decimal digits denotes, read after [a]. *)
Definition readDigits (a : Z) (ds : jsstring) : Z :=
  fold_left (fun a c => a * 10 + (Z.of_N c - 48)) ds a.

(** Some stored case has the process number, up to surrounding white
    space. *)
Definition processNumberTaken (processoNumero : jsstring) (cs : list CaseData.t) : Prop :=
  exists c, c ∈ cs /\ JS.trim (CaseData.processoNumero c) = JS.trim processoNumero.

(** A stored case other than the updated one has its process number. *)
Definition processNumberOfOtherCase (updatedCase : CaseData.t) (cs : list CaseData.t) : Prop :=
  exists c, c ∈ cs /\ CaseData.id c <> CaseData.id updatedCase
            /\ JS.trim (CaseData.processoNumero c)
               = JS.trim (CaseData.processoNumero updatedCase).

(** No two stored cases have the same trimmed process number. *)
Definition uniqueProcessNumbers (cs : list CaseData.t) : Prop :=
  NoDup (map (fun c => JS.trim (CaseData.processoNumero c)) cs).

(** No two stored cases have the same numeric id. *)
Definition uniqueIds (cs : list CaseData.t) : Prop :=
  NoDup (map CaseData.id cs).

(** The fields of a case other than the three that [handleUpdateCase]
    computes itself. *)
Definition besidesAssignment (f : CaseFields.t) : CaseFields.t :=
  CaseFields.set_coResponsibleName None
    (CaseFields.set_tramitationLog None (CaseFields.set_email [] f)).

(** The entry [handleUpdateCase] logs for a change of assignee. *)
Definition updateEntry (currentUser : User.t) (nowISO : jsstring)
    (updatedCase : CaseData.t) : TramitationEntry.t :=
  {| TramitationEntry.fromUser := User.name currentUser;
     TramitationEntry.toUser := CaseData.name updatedCase;
     TramitationEntry.timestamp := nowISO;
     TramitationEntry.deadline := CaseData.prazoDeterminado updatedCase |}.

(** The profile of an assignee: the first user of that name. *)
Definition profileOf (us : list User.t) (name : jsstring) : option User.t :=
  List.find (fun u => bool_decide (User.name u = name)) us.

(** *** Sample data *)

(** [DEFAULT_CASE_DATA] of the Spreadsheet component. *)
Definition DEFAULT_CASE_DATA : CaseFields.t :=
  {| CaseFields.tribunal := [];
     CaseFields.processoNumero := [];
     CaseFields.autor := [];
     CaseFields.reu := [];
     CaseFields.trib := [];
     CaseFields.varaComarca := [];
     CaseFields.materia := [];
     CaseFields.ownerName := App.ownerMsTributario;
     CaseFields.name := [];
     CaseFields.email := [];
     CaseFields.coResponsibleName := None;
     CaseFields.tramitationLog := None;
     CaseFields.attachments := None;
     CaseFields.dataNomeacao := [];
     CaseFields.dataInicial := [];
     CaseFields.prazoDeterminado := [];
     CaseFields.dataDesignada := [];
     CaseFields.dataFinal := [];
     CaseFields.startHour := JS.lit "09:00";
     CaseFields.finishHour := JS.lit "18:00";
     CaseFields.dataFinalCorridos := [];
     CaseFields.diasUteis := 0;
     CaseFields.prioridade := Baixa;
     CaseFields.dataAtribuida := [];
     CaseFields.fases := [];
     CaseFields.status := [];
     CaseFields.segredoDeJustica := Nao;
     CaseFields.naturezaAcao := [];
     CaseFields.valorDaAcao := [] |}.

(** The default case with a process number, an assignee and a deadline. *)
Definition draftOf (processoNumero name prazoDeterminado : string) : CaseFields.t :=
  {| CaseFields.tribunal := [];
     CaseFields.processoNumero := JS.lit processoNumero;
     CaseFields.autor := [];
     CaseFields.reu := [];
     CaseFields.trib := [];
     CaseFields.varaComarca := [];
     CaseFields.materia := [];
     CaseFields.ownerName := App.ownerMsTributario;
     CaseFields.name := JS.lit name;
     CaseFields.email := [];
     CaseFields.coResponsibleName := None;
     CaseFields.tramitationLog := None;
     CaseFields.attachments := None;
     CaseFields.dataNomeacao := [];
     CaseFields.dataInicial := [];
     CaseFields.prazoDeterminado := JS.lit prazoDeterminado;
     CaseFields.dataDesignada := [];
     CaseFields.dataFinal := [];
     CaseFields.startHour := JS.lit "09:00";
     CaseFields.finishHour := JS.lit "18:00";
     CaseFields.dataFinalCorridos := [];
     CaseFields.diasUteis := 0;
     CaseFields.prioridade := Baixa;
     CaseFields.dataAtribuida := [];
     CaseFields.fases := [];
     CaseFields.status := [];
     CaseFields.segredoDeJustica := Nao;
     CaseFields.naturezaAcao := [];
     CaseFields.valorDaAcao := [] |}.

Definition admin : User.t :=
  {| User.id := 1; User.name := JS.lit "Admin";
     User.email := JS.lit "admin@example.com";
     User.password := None; User.permission := adm |}.

Definition alice : User.t :=
  {| User.id := 2; User.name := JS.lit "Alice";
     User.email := JS.lit "alice@example.com";
     User.password := None; User.permission := user |}.

Definition bob : User.t :=
  {| User.id := 3; User.name := JS.lit "Bob";
     User.email := JS.lit "bob@example.com";
     User.password := None; User.permission := user |}.

Definition sampleClock : jsstring := JS.lit "2024-05-10T15:00:00.000Z".

Definition emptyStore : App.State :=
  {| App.users := [admin; alice; bob]; App.cases := [];
     App.lastCaseId := 0; App.alerts := [] |}.

(** A store with case 1 ("123-A", Alice) and, at its head, case 2
    ("456-B", Bob), both created through [handleAddCase]. *)
Definition twoCaseStore : App.State :=
  App.handleAddCase admin sampleClock (draftOf "456-B" "Bob" "2024-06-01")
    (App.handleAddCase admin sampleClock (draftOf "123-A" "Alice" "2024-05-20")
       emptyStore).

(** A store whose id counter has reached 2^53, with the case of that id. *)
Definition storeAtLimit : App.State :=
  {| App.users := [admin; alice; bob];
     App.cases := [ {| CaseData.id := 2 ^ 53;
                       CaseData.id2 := JS.lit "MST9007199254740992";
                       CaseData.fields := draftOf "123-A" "Alice" "2024-05-20" |} ];
     App.lastCaseId := 2 ^ 53;
     App.alerts := [] |}.

(** Case 1 of [twoCaseStore], as stored. *)
Definition storedCase1 : CaseData.t :=
  {| CaseData.id := 1;
     CaseData.id2 := JS.lit "MST00001";
     CaseData.fields :=
       CaseFields.set_tramitationLog
         (Some [ {| TramitationEntry.fromUser := JS.lit "Admin";
                    TramitationEntry.toUser := JS.lit "Alice";
                    TramitationEntry.timestamp := sampleClock;
                    TramitationEntry.deadline := JS.lit "2024-05-20" |} ])
         (CaseFields.set_coResponsibleName (Some (JS.lit "Alice"))
            (draftOf "123-A" "Alice" "2024-05-20")) |}.

(** Case 1 handed over to Bob, nothing else changed. *)
Definition case1ForBob : CaseData.t :=
  {| CaseData.id := 1;
     CaseData.id2 := JS.lit "MST00001";
     CaseData.fields := CaseFields.set_name (JS.lit "Bob") (CaseData.fields storedCase1) |}.

(** Case 1 handed over to Bob and given the process number of case 2. *)
Definition case1ForBobRenumbered : CaseData.t :=
  {| CaseData.id := 1;
     CaseData.id2 := JS.lit "MST00001";
     CaseData.fields :=
       CaseFields.set_processoNumero (JS.lit "456-B")
         (CaseFields.set_name (JS.lit "Bob") (CaseData.fields storedCase1)) |}.

(** Case 1 given the process number of case 2, nothing else changed. *)
Definition case1Renumbered : CaseData.t :=
  {| CaseData.id := 1;
     CaseData.id2 := JS.lit "MST00001";
     CaseData.fields :=
       CaseFields.set_processoNumero (JS.lit "456-B") (CaseData.fields storedCase1) |}.

(** Case 1 with a new status, same assignee. *)
Definition case1Archived : CaseData.t :=
  {| CaseData.id := 1;
     CaseData.id2 := JS.lit "MST00001";
     CaseData.fields :=
       CaseFields.set_status (JS.lit "Arquivado") (CaseData.fields storedCase1) |}.

(** A store whose only case has process number "P2". *)
Definition storeWithP2 : App.State :=
  App.handleAddCase admin sampleClock (draftOf "P2" "Alice" "") emptyStore.

(** 2024-05-12T00:00:00Z and 2024-05-10T00:00:00Z *)
Definition midnight_2024_05_12 : Z := JSDate.MakeDate (JSDate.MakeDay 2024 4 12) 0.
Definition midnight_2024_05_10 : Z := JSDate.MakeDate (JSDate.MakeDay 2024 4 10) 0.

(** A 3 MB file. *)
Definition bigFile : File.t :=
  {| File.name := JS.lit "autos.pdf"; File.type := JS.lit "application/pdf";
     File.size := 3 * 1024 * 1024 |}.

(** A 1 KB file. *)
Definition smallFile : File.t :=
  {| File.name := JS.lit "nota.txt"; File.type := JS.lit "text/plain";
     File.size := 1024 |}.

(* ===================================================================== *)
(** ** More of the case store (App.tsx) *)
(* ===================================================================== *)

(** The alerts of [handleAddAttachment]. *)
Inductive AttachmentAlert : Type :=
  | AlertAttachmentTooLarge
  | AlertFileEmpty
  | AlertFileReadError.

Module AppCases.

(** 'Arquivado' *)
Definition ARCHIVED_STATUS_NAME : jsstring := JS.lit "Arquivado".

(** [setCases(prev => prev.filter(c => c.id !== caseId))] *)
Definition handleDeleteCase (caseId : Z) (st : App.State) : App.State :=
  App.setCases (fun prev => List.filter (fun c => negb (CaseData.id c =? caseId)) prev) st.

(** [setCases(prev => prev.filter(c => !caseIds.includes(c.id)))] *)
Definition handleDeleteMultipleCases (caseIds : list Z) (st : App.State) : App.State :=
  App.setCases (fun prev =>
    List.filter (fun c => negb (existsb (fun i => i =? CaseData.id c) caseIds)) prev) st.

(** [handleAddAttachment]: the state after the reader has reported, and the
    alerts shown. *)
Definition handleAddAttachment (currentUser : User.t) (nowISO : jsstring) (nowMs : Z)
    (caseId : Z) (file : File.t) (reader : ReadResult) (st : App.State)
  : App.State * list AttachmentAlert :=
  if App.MAX_FILE_SIZE_BYTES <? File.size file
  then (st, [AlertAttachmentTooLarge])
  else
    match reader with
    | onload (Some (k :: content)) =>
        let newAttachment :=
          {| Attachment.id := JS.String_ nowMs ++ JS.lit "-" ++ File.name file;
             Attachment.fileName := File.name file;
             Attachment.fileType := File.type file;
             Attachment.fileSize := File.size file;
             Attachment.content := k :: content;
             Attachment.uploadedBy := User.name currentUser;
             Attachment.timestamp := nowISO |} in
        (App.setCases (fun prev => map (fun c =>
           if CaseData.id c =? caseId then
             {| CaseData.id := CaseData.id c;
                CaseData.id2 := CaseData.id2 c;
                CaseData.fields :=
                  CaseFields.set_attachments
                    (Some (JS.orEmpty (CaseData.attachments c) ++ [newAttachment]))
                    (CaseData.fields c) |}
           else c) prev) st, [])
    | onload _ => (st, [AlertFileEmpty])
    | onerror => (st, [AlertFileReadError])
    end.

(** [cases.filter(c => c.status !== ARCHIVED_STATUS_NAME)] *)
Definition activeCases (cases : list CaseData.t) : list CaseData.t :=
  List.filter (fun c => negb (bool_decide (CaseFields.status (CaseData.fields c)
                                           = ARCHIVED_STATUS_NAME))) cases.

(** [cases.filter(c => c.status === ARCHIVED_STATUS_NAME)] *)
Definition archivedCases (cases : list CaseData.t) : list CaseData.t :=
  List.filter (fun c => bool_decide (CaseFields.status (CaseData.fields c)
                                     = ARCHIVED_STATUS_NAME)) cases.

End AppCases.

(** TramitationHistory component. *)
Module TramitationHistory.

(** [FlatTramitationLog] *)
Record FlatTramitationLog : Type := mkFlat {
  entry : TramitationEntry.t;
  processoNumero : jsstring;
  caseId : Z
}.

(** [cases.flatMap(caseItem => (caseItem.tramitationLog || []).map(...))] *)
Definition flatHistory (cases : list CaseData.t) : list FlatTramitationLog :=
  concat (map (fun caseItem =>
                 map (fun log => {| entry := log;
                                    processoNumero := CaseData.processoNumero caseItem;
                                    caseId := CaseData.id caseItem |})
                   (JS.orEmpty (CaseData.tramitationLog caseItem))) cases).

End TramitationHistory.

(** *** Vocabulary for the store invariants *)

(** The range in which [++] on a counter adds exactly one. *)
Definition counterInRange (n : Z) : Prop := - 2 ^ 53 <= n < 2 ^ 53.

(** The counter after [k] increments. *)
Definition counterAfter (k : nat) (last : Z) : Z := Nat.iter k JSNumber.increment last.

(** The id counter is at or above every stored id. *)
Definition idsBelowCounter (st : App.State) : Prop :=
  forall c, c ∈ App.cases st -> CaseData.id c <= App.lastCaseId st.

(** The trimmed process number of a stored case and of an import row. *)
Definition trimmedNumber (c : CaseData.t) : jsstring :=
  JS.trim (CaseData.processoNumero c).

Definition trimmedNumberOfRow (row : CaseFields.t) : jsstring :=
  JS.trim (CaseFields.processoNumero row).

(** An import row without process number, which the loop skips. *)
Definition blankRow (row : CaseFields.t) : bool :=
  bool_decide (trimmedNumberOfRow row = []).

(** What the loop of [handleImportCases] has established after the rows
    [rows], started from the state [st0] with the set [existing] of stored
    process numbers. *)
Definition importInv (existing : gset jsstring) (st0 : App.State)
    (rows : list CaseFields.t) (acc : App.ImportLoop) : Prop :=
  let accepted := App.successfulImports acc in
  App.importedProcessNumbersInFile acc = list_to_set (map trimmedNumber accepted)
  /\ (forall a, a ∈ accepted -> trimmedNumber a <> [] /\ trimmedNumber a ∉ existing)
  /\ NoDup (map trimmedNumber accepted)
  /\ map CaseData.id accepted
     = map (fun k => counterAfter k (App.lastCaseId st0)) (seq 1 (length accepted))
  /\ App.nextState acc
     = {| App.users := App.users st0;
          App.cases := App.cases st0;
          App.lastCaseId := counterAfter (length accepted) (App.lastCaseId st0);
          App.alerts := App.alerts st0 |}
  /\ (forall r, r ∈ rows -> trimmedNumberOfRow r <> [] ->
        trimmedNumberOfRow r ∈ existing
        \/ trimmedNumberOfRow r ∈ map trimmedNumber accepted)
  /\ (length accepted + length (App.duplicatesInFile acc)
      + length (App.duplicatesInSystem acc) + length (List.filter blankRow rows)
      = length rows)%nat
  /\ (forall x, x ∈ App.duplicatesInSystem acc -> x ∈ existing)
  /\ (forall x, x ∈ App.duplicatesInFile acc ->
        (x ∉ existing) /\ x ∈ map trimmedNumber accepted).

(** The ids of the stored cases are pairwise distinct and none is above
    the id counter. *)
Definition idsWellFormed (st : App.State) : Prop :=
  uniqueIds (App.cases st) /\ idsBelowCounter st.

(** The process numbers of the rows of a batch that [handleImportCases]
    does not skip, in the order of the batch. *)
Definition numbersOfRows (rows : list CaseFields.t) : list jsstring :=
  map trimmedNumberOfRow (List.filter (fun r => negb (blankRow r)) rows).

(** The fields of a case other than the five that [handleImportCases]
    computes itself. *)
Definition besidesImport (f : CaseFields.t) : CaseFields.t :=
  CaseFields.set_ownerName []
    (CaseFields.set_name []
       (CaseFields.set_email []
          (CaseFields.set_coResponsibleName None
             (CaseFields.set_tramitationLog None f)))).

(** The first user whose trimmed name is the given one up to letter case. *)
Definition userNamedLike (P : Platform) (us : list User.t) (name : jsstring)
  : option User.t :=
  List.find (fun u => bool_decide (toLowerCase P (JS.trim (User.name u))
                                   = toLowerCase P (JS.trim name))) us.

(* ===================================================================== *)
(** ** Deadline counters of the dashboards (kpiData) *)
(* ===================================================================== *)

#[global] Instance DeadlineStatus_eq_dec : EqDecision DeadlineStatus.
Proof. solve_decision. Defined.

#[global] Instance Completion_eq_dec {A : Type} `{EqDecision A} : EqDecision (Completion A).
Proof. solve_decision. Defined.

Module KpiData.
(** [overdue], [dueSoon] and [onTrack] of [kpiData]. *)
Record DeadlineCounts : Type := mkCounts {
  overdueCount : nat;
  dueSoonCount : nat;
  onTrackCount : nat
}.

(** What the loop reads of an element of [cases]: [c.dataFinal] and
    [c.status].  [CaseData] declares both as strings, but nothing checks
    that at run time: a case stored by the file import carries the fields
    its sheet had (the import casts the row [as CaseData]), so either
    property can be [undefined]. *)
Record Row : Type := mkRow {
  dataFinal : JsArg;
  status : JsArg
}.

(** The row of a case that has every field of its type. *)
Definition rowOf (c : CaseData.t) : Row :=
  {| dataFinal := str (CaseFields.dataFinal (CaseData.fields c));
     status := str (CaseFields.status (CaseData.fields c)) |}.

(** The callback of [cases.forEach]: classify the case by its [dataFinal]
    and [status] and increment the counter of the class; 'completed' and
    'none' fall to [default: break]. *)
Definition countOne
    (getDeadlineStatus : Platform -> JsArg -> JsArg -> Completion DeadlineStatus)
    (P : Platform) (k : DeadlineCounts) (c : Row) : Completion DeadlineCounts :=
  match getDeadlineStatus P (dataFinal c) (status c) with
  | throwTypeError => throwTypeError
  | normal status =>
      match status with
      | overdue => normal {| overdueCount := S (overdueCount k);
                             dueSoonCount := dueSoonCount k;
                             onTrackCount := onTrackCount k |}
      | due_soon => normal {| overdueCount := overdueCount k;
                              dueSoonCount := S (dueSoonCount k);
                              onTrackCount := onTrackCount k |}
      | on_track => normal {| overdueCount := overdueCount k;
                              dueSoonCount := dueSoonCount k;
                              onTrackCount := S (onTrackCount k) |}
      | _ => normal k
      end
  end.

(** [cases.forEach(...)]; an exception of the callback ends the loop. *)
Fixpoint forEach
    (getDeadlineStatus : Platform -> JsArg -> JsArg -> Completion DeadlineStatus)
    (P : Platform) (cases : list Row) (k : DeadlineCounts)
  : Completion DeadlineCounts :=
  match cases with
  | [] => normal k
  | c :: cases' =>
      match countOne getDeadlineStatus P k c with
      | throwTypeError => throwTypeError
      | normal k' => forEach getDeadlineStatus P cases' k'
      end
  end.

(** The three counters, from zero. *)
Definition deadlineCounts
    (getDeadlineStatus : Platform -> JsArg -> JsArg -> Completion DeadlineStatus)
    (P : Platform) (cases : list Row) : Completion DeadlineCounts :=
  forEach getDeadlineStatus P cases
    {| overdueCount := 0; dueSoonCount := 0; onTrackCount := 0 |}.

(** [cases.filter(c => c.name === currentUser.name).length] *)
Definition assignedToMe (cases : list CaseData.t) (currentUser : User.t) : nat :=
  length (List.filter (fun c => bool_decide (CaseData.name c = User.name currentUser))
            cases).

(** [cases.filter(c => c.coResponsibleName === currentUser.name).length] *)
Definition coResponsible (cases : list CaseData.t) (currentUser : User.t) : nat :=
  length (List.filter (fun c => bool_decide (CaseData.coResponsibleName c
                                             = Some (User.name currentUser))) cases).
End KpiData.

(** The class a copy of the classifier gives a row. *)
Definition statusOf (v : Copy) (P : Platform) (c : KpiData.Row) : Completion DeadlineStatus :=
  classify v P (KpiData.dataFinal c) (KpiData.status c).

(** The number of rows a copy of the classifier puts in a class. *)
Definition classSize (v : Copy) (P : Platform) (s : DeadlineStatus)
    (cs : list KpiData.Row) : nat :=
  length (List.filter (fun c => bool_decide (statusOf v P c = normal s)) cs).

(** The row has a status: [c.status] is a string. *)
Definition hasStatus (c : KpiData.Row) : Prop :=
  exists s, KpiData.status c = str s.

(** A row of a sheet that had a "Data Final" column and no "Status"
    column. *)
Definition rowWithoutStatus : KpiData.Row :=
  {| KpiData.dataFinal := str (JS.lit "2024-05-20"); KpiData.status := undefined |}.

(** A row with both columns. *)
Definition rowDueLater : KpiData.Row :=
  {| KpiData.dataFinal := str (JS.lit "2024-05-20");
     KpiData.status := str (JS.lit "Em andamento") |}.

(* ===================================================================== *)
(** ** Users and the session (App.tsx) *)
(* ===================================================================== *)

(** [type Tab] *)
Inductive Tab : Type :=
  | TabDashboard | TabSpreadsheet | TabKanban | TabCalendar
  | TabHistory | TabAdmin | TabArchived.

(** [Omit<User, 'id'>] *)
Module UserFields.
Record t : Type := mk {
  name : jsstring;
  email : jsstring;
  password : option jsstring;
  permission : Permission
}.
End UserFields.

(** The alerts of the user handlers, by the text they show. *)
Inductive UserAlert : Type :=
  | AlertEmailRegistered (email : jsstring)
  | AlertEmailOfOtherUser (email : jsstring).

Module AppUsers.

(** The part of the component state that the user handlers read and
    write: [users], [lastUserId.current], [currentUser], [loginError],
    [activeTab], and the alerts shown so far.  The case handlers read
    [users] and never write it. *)
Record State : Type := mkState {
  users : list User.t;
  lastUserId : Z;
  currentUser : option User.t;
  loginError : option jsstring;
  activeTab : Tab;
  alerts : list UserAlert
}.

(** 'Credenciais inválidas. Tente novamente.' *)
Definition invalidCredentials : jsstring :=
  JS.lit "Credenciais inv" ++ [225%N] ++ JS.lit "lidas. Tente novamente.".

Definition setUsers (f : list User.t -> list User.t) (st : State) : State :=
  {| users := f (users st); lastUserId := lastUserId st;
     currentUser := currentUser st; loginError := loginError st;
     activeTab := activeTab st; alerts := alerts st |}.

Definition alert (a : UserAlert) (st : State) : State :=
  {| users := users st; lastUserId := lastUserId st;
     currentUser := currentUser st; loginError := loginError st;
     activeTab := activeTab st; alerts := alerts st ++ [a] |}.

(** [useRef(users.length > 0 ? Math.max(...users.map(u => u.id)) : 0)] *)
Definition initialLastUserId (us : list User.t) : Z :=
  match us with
  | [] => 0
  | u :: us' => fold_left Z.max (map User.id us') (User.id u)
  end.

Section Handlers.
Variable P : Platform.

Definition handleLogin (email password : jsstring) (st : State) : State :=
  match List.find (fun u => bool_decide (toLowerCase P (User.email u) = toLowerCase P email)
                            && bool_decide (User.password u = Some password))
          (users st) with
  | Some found =>
      {| users := users st; lastUserId := lastUserId st;
         currentUser := Some found;
         loginError := None;
         activeTab := match User.permission found with
                      | adm => TabDashboard
                      | user => TabSpreadsheet
                      end;
         alerts := alerts st |}
  | None =>
      {| users := users st; lastUserId := lastUserId st;
         currentUser := currentUser st;
         loginError := Some invalidCredentials;
         activeTab := activeTab st; alerts := alerts st |}
  end.

Definition handleLogout (st : State) : State :=
  {| users := users st; lastUserId := lastUserId st;
     currentUser := None; loginError := loginError st;
     activeTab := activeTab st; alerts := alerts st |}.

(** The updater passed to [setUsers] calls [getNextUserId]; it is taken to
    run once per call of the handler. *)
Definition handleAddUser (newUser : UserFields.t) (st : State) : State :=
  if existsb (fun u => bool_decide (toLowerCase P (JS.trim (User.email u))
                                    = toLowerCase P (JS.trim (UserFields.email newUser))))
       (users st)
  then alert (AlertEmailRegistered (UserFields.email newUser)) st
  else
    let newId := JSNumber.increment (lastUserId st) in
    {| users := users st
                ++ [ {| User.id := newId;
                        User.name := UserFields.name newUser;
                        User.email := UserFields.email newUser;
                        User.password := UserFields.password newUser;
                        User.permission := UserFields.permission newUser |} ];
       lastUserId := newId;
       currentUser := currentUser st; loginError := loginError st;
       activeTab := activeTab st; alerts := alerts st |}.

Definition handleUpdateUser (updatedUser : User.t) (st : State) : State :=
  if existsb (fun u => negb (User.id u =? User.id updatedUser)
                       && bool_decide (toLowerCase P (JS.trim (User.email u))
                                       = toLowerCase P (JS.trim (User.email updatedUser))))
       (users st)
  then alert (AlertEmailOfOtherUser (User.email updatedUser)) st
  else
    setUsers (fun prev => map (fun u =>
      if User.id u =? User.id updatedUser then updatedUser else u) prev) st.

Definition handleDeleteUser (userId : Z) (st : State) : State :=
  setUsers (fun prev => List.filter (fun u => negb (User.id u =? userId)) prev) st.

End Handlers.
End AppUsers.

(** The key under which the user handlers compare emails. *)
Definition emailKey (P : Platform) (email : jsstring) : jsstring :=
  toLowerCase P (JS.trim email).

(** The users have pairwise distinct ids, none above the id counter, and
    pairwise distinct emails up to surrounding white space and letter
    case. *)
Definition usersWellFormed (P : Platform) (st : AppUsers.State) : Prop :=
  NoDup (map User.id (AppUsers.users st))
  /\ (forall u, u ∈ AppUsers.users st -> User.id u <= AppUsers.lastUserId st)
  /\ NoDup (map (fun u => emailKey P (User.email u)) (AppUsers.users st)).

(** The credentials are those of the user, as [handleLogin] compares
    them. *)
Definition credentialsOf (P : Platform) (email password : jsstring) (u : User.t) : Prop :=
  toLowerCase P (User.email u) = toLowerCase P email
  /\ User.password u = Some password.

(** A store of users for the examples. *)
Definition sampleUsers : AppUsers.State :=
  {| AppUsers.users :=
       [ {| User.id := 1; User.name := JS.lit "Admin";
            User.email := JS.lit "Admin@Example.com";
            User.password := Some (JS.lit "secret"); User.permission := adm |};
         {| User.id := 2; User.name := JS.lit "Alice";
            User.email := JS.lit "alice@example.com";
            User.password := Some (JS.lit "pw"); User.permission := user |};
         {| User.id := 3; User.name := JS.lit "Bob";
            User.email := JS.lit "bob@example.com";
            User.password := None; User.permission := user |} ];
     AppUsers.lastUserId := 3;
     AppUsers.currentUser := None;
     AppUsers.loginError := None;
     AppUsers.activeTab := TabDashboard;
     AppUsers.alerts := [] |}.

(* ===================================================================== *)
(** ** The Kanban board (components/KanbanBoard.tsx) *)
(* ===================================================================== *)

(** [Tribunal], [Fase] and [Status]: three interfaces of the same shape. *)
Module Lookup.
Record t : Type := mk {
  id : Z;
  name : jsstring
}.
End Lookup.

(** [type GroupBy] *)
Inductive GroupBy : Type :=
  | ByStatus | ByFases | ByName | ByCoResponsibleName | ByTribunal.

Module KanbanBoard.

Record Column : Type := mkColumn {
  id : jsstring;
  name : jsstring
}.

(** What [handleDrop] ends with: nothing, a call of [onUpdateCase], or a
    call of [onUpdateCase] with the grouping field of the case set to
    [undefined] (a field that the type declares a string). *)
Inductive DropResult : Type :=
  | noUpdate
  | onUpdateCase (updatedCase : CaseData.t)
  | onUpdateCaseUndefined (field : GroupBy) (caseToUpdate : CaseData.t).

Definition ND : jsstring := JS.lit "N/D".

(** 'Não atribuído' *)
Definition naoAtribuido : jsstring :=
  JS.lit "N" ++ [227%N] ++ JS.lit "o atribu" ++ [237%N] ++ JS.lit "do".

(** [{...c, fases: v}] and [{...c, tribunal: v}] *)
Definition set_fases (v : jsstring) (c : CaseFields.t) : CaseFields.t :=
  {| CaseFields.tribunal := CaseFields.tribunal c;
     CaseFields.processoNumero := CaseFields.processoNumero c;
     CaseFields.autor := CaseFields.autor c;
     CaseFields.reu := CaseFields.reu c;
     CaseFields.trib := CaseFields.trib c;
     CaseFields.varaComarca := CaseFields.varaComarca c;
     CaseFields.materia := CaseFields.materia c;
     CaseFields.ownerName := CaseFields.ownerName c;
     CaseFields.name := CaseFields.name c;
     CaseFields.email := CaseFields.email c;
     CaseFields.coResponsibleName := CaseFields.coResponsibleName c;
     CaseFields.tramitationLog := CaseFields.tramitationLog c;
     CaseFields.attachments := CaseFields.attachments c;
     CaseFields.dataNomeacao := CaseFields.dataNomeacao c;
     CaseFields.dataInicial := CaseFields.dataInicial c;
     CaseFields.prazoDeterminado := CaseFields.prazoDeterminado c;
     CaseFields.dataDesignada := CaseFields.dataDesignada c;
     CaseFields.dataFinal := CaseFields.dataFinal c;
     CaseFields.startHour := CaseFields.startHour c;
     CaseFields.finishHour := CaseFields.finishHour c;
     CaseFields.dataFinalCorridos := CaseFields.dataFinalCorridos c;
     CaseFields.diasUteis := CaseFields.diasUteis c;
     CaseFields.prioridade := CaseFields.prioridade c;
     CaseFields.dataAtribuida := CaseFields.dataAtribuida c;
     CaseFields.fases := v;
     CaseFields.status := CaseFields.status c;
     CaseFields.segredoDeJustica := CaseFields.segredoDeJustica c;
     CaseFields.naturezaAcao := CaseFields.naturezaAcao c;
     CaseFields.valorDaAcao := CaseFields.valorDaAcao c |}.

Definition set_tribunal (v : jsstring) (c : CaseFields.t) : CaseFields.t :=
  {| CaseFields.tribunal := v;
     CaseFields.processoNumero := CaseFields.processoNumero c;
     CaseFields.autor := CaseFields.autor c;
     CaseFields.reu := CaseFields.reu c;
     CaseFields.trib := CaseFields.trib c;
     CaseFields.varaComarca := CaseFields.varaComarca c;
     CaseFields.materia := CaseFields.materia c;
     CaseFields.ownerName := CaseFields.ownerName c;
     CaseFields.name := CaseFields.name c;
     CaseFields.email := CaseFields.email c;
     CaseFields.coResponsibleName := CaseFields.coResponsibleName c;
     CaseFields.tramitationLog := CaseFields.tramitationLog c;
     CaseFields.attachments := CaseFields.attachments c;
     CaseFields.dataNomeacao := CaseFields.dataNomeacao c;
     CaseFields.dataInicial := CaseFields.dataInicial c;
     CaseFields.prazoDeterminado := CaseFields.prazoDeterminado c;
     CaseFields.dataDesignada := CaseFields.dataDesignada c;
     CaseFields.dataFinal := CaseFields.dataFinal c;
     CaseFields.startHour := CaseFields.startHour c;
     CaseFields.finishHour := CaseFields.finishHour c;
     CaseFields.dataFinalCorridos := CaseFields.dataFinalCorridos c;
     CaseFields.diasUteis := CaseFields.diasUteis c;
     CaseFields.prioridade := CaseFields.prioridade c;
     CaseFields.dataAtribuida := CaseFields.dataAtribuida c;
     CaseFields.fases := CaseFields.fases c;
     CaseFields.status := CaseFields.status c;
     CaseFields.segredoDeJustica := CaseFields.segredoDeJustica c;
     CaseFields.naturezaAcao := CaseFields.naturezaAcao c;
     CaseFields.valorDaAcao := CaseFields.valorDaAcao c |}.

(** [parseInt(s, 10)]: leading white space, an optional sign, then the
    longest run of decimal digits; [None] is NaN.  The mathematical integer
    is kept exact. *)
Definition parseInt10 (s : jsstring) : option Z :=
  let s1 := JS.trimStart s in
  let '(sign, s2) :=
    match s1 with
    | 45%N :: r => (-1, r)
    | 43%N :: r => (1, r)
    | _ => (1, s1)
    end in
  (fun n => sign * n) <$> JS.digitsPrefix 10 None s2.

(** [!!name] *)
Definition truthy (s : jsstring) : bool :=
  match s with [] => false | _ :: _ => true end.

(** [[...new Set(names)]]: the first occurrence of every name, in order. *)
Definition setOf (names : list jsstring) : list jsstring :=
  fold_left (fun seen n => if bool_decide (n ∈ seen) then seen else seen ++ [n]) names [].

(** [caseToUpdate[groupBy]], for the groupings other than by assignee. *)
Definition fieldOf (groupBy : GroupBy) (c : CaseData.t) : option jsstring :=
  match groupBy with
  | ByStatus => Some (CaseFields.status (CaseData.fields c))
  | ByFases => Some (CaseFields.fases (CaseData.fields c))
  | ByTribunal => Some (CaseFields.tribunal (CaseData.fields c))
  | ByCoResponsibleName => CaseData.coResponsibleName c
  | ByName => Some (CaseData.name c)
  end.

(** [{...c, [groupBy]: v}] for a string [v]. *)
Definition assign (groupBy : GroupBy) (v : jsstring) (c : CaseData.t) : CaseData.t :=
  {| CaseData.id := CaseData.id c;
     CaseData.id2 := CaseData.id2 c;
     CaseData.fields :=
       match groupBy with
       | ByStatus => CaseFields.set_status v (CaseData.fields c)
       | ByFases => set_fases v (CaseData.fields c)
       | ByTribunal => set_tribunal v (CaseData.fields c)
       | ByCoResponsibleName => CaseFields.set_coResponsibleName (Some v) (CaseData.fields c)
       | ByName => CaseFields.set_name v (CaseData.fields c)
       end |}.

Section Board.
(** [names.sort((a, b) => a.localeCompare(b))], which the host defines. *)
Variable sortByLocaleCompare : list jsstring -> list jsstring.

Definition columns (groupBy : GroupBy) (statuses fases tribunals : list Lookup.t)
    (cases : list CaseData.t) : list Column :=
  match groupBy with
  | ByStatus => map (fun s => {| id := Lookup.name s; name := Lookup.name s |}) statuses
  | ByFases => map (fun f => {| id := Lookup.name f; name := Lookup.name f |}) fases
  | ByTribunal => map (fun t => {| id := Lookup.name t; name := Lookup.name t |}) tribunals
  | ByName =>
      let assigneeNames :=
        setOf (List.filter (fun name => truthy name
                                        && negb (bool_decide (name = App.ownerMsTributario)))
                 (map CaseData.name cases)) in
      {| id := ND; name := naoAtribuido |}
      :: map (fun name => {| id := name; name := name |})
           (sortByLocaleCompare assigneeNames)
  | ByCoResponsibleName =>
      (* [undefined] and the empty string are both dropped by [!!name] *)
      let coResponsibleNames :=
        setOf (List.filter truthy
                 (map (fun c => JS.orString (CaseData.coResponsibleName c) []) cases)) in
      {| id := ND; name := naoAtribuido |}
      :: map (fun name => {| id := name; name := name |})
           (sortByLocaleCompare coResponsibleNames)
  end.
End Board.

(** [e.dataTransfer.setData('caseId', caseId.toString())]: the data set. *)
Definition handleDragStart (caseId : Z) : jsstring := JS.String_ caseId.

(** [data] is [e.dataTransfer.getData('caseId')]. *)
Definition handleDrop (groupBy : GroupBy) (cases : list CaseData.t) (users : list User.t)
    (data : jsstring) (newColumnValue : jsstring) : DropResult :=
  match parseInt10 data with
  | None => noUpdate
  | Some caseId =>
      match List.find (fun c => CaseData.id c =? caseId) cases with
      | None => noUpdate
      | Some caseToUpdate =>
          match groupBy with
          | ByName =>
              let currentAssignee := CaseData.name caseToUpdate in
              let isCurrentlyUnassigned :=
                negb (truthy currentAssignee)
                || bool_decide (currentAssignee = App.ownerMsTributario) in
              if isCurrentlyUnassigned && bool_decide (newColumnValue = ND)
                 || bool_decide (currentAssignee = newColumnValue)
              then noUpdate
              else
                let finalNewValue :=
                  if bool_decide (newColumnValue = ND) then App.ownerMsTributario
                  else newColumnValue in
                let newAssigneeUser :=
                  List.find (fun u => bool_decide (User.name u = finalNewValue)) users in
                onUpdateCase
                  {| CaseData.id := CaseData.id caseToUpdate;
                     CaseData.id2 := CaseData.id2 caseToUpdate;
                     CaseData.fields :=
                       CaseFields.set_email (JS.orString (User.email <$> newAssigneeUser) [])
                         (CaseFields.set_name finalNewValue (CaseData.fields caseToUpdate)) |}
          | _ =>
              let currentValue := JS.orString (fieldOf groupBy caseToUpdate) ND in
              if negb (bool_decide (currentValue = newColumnValue)) then
                if bool_decide (newColumnValue = ND) then
                  match groupBy with
                  | ByCoResponsibleName =>
                      onUpdateCase
                        {| CaseData.id := CaseData.id caseToUpdate;
                           CaseData.id2 := CaseData.id2 caseToUpdate;
                           CaseData.fields :=
                             CaseFields.set_coResponsibleName None
                               (CaseData.fields caseToUpdate) |}
                  | _ => onUpdateCaseUndefined groupBy caseToUpdate
                  end
                else onUpdateCase (assign groupBy newColumnValue caseToUpdate)
              else noUpdate
          end
      end
  end.

(** [onDrop={(e) => handleDrop(e, column.name)}] *)
Definition onDrop (groupBy : GroupBy) (cases : list CaseData.t) (users : list User.t)
    (data : jsstring) (column : Column) : DropResult :=
  handleDrop groupBy cases users data (name column).

(** The cards of a column. *)
Definition columnCases (groupBy : GroupBy) (cases : list CaseData.t) (column : Column)
  : list CaseData.t :=
  List.filter (fun c =>
    match groupBy with
    | ByName =>
        let caseAssignee := CaseData.name c in
        let isUnassigned :=
          negb (truthy caseAssignee)
          || bool_decide (caseAssignee = App.ownerMsTributario) in
        if bool_decide (id column = ND) then isUnassigned
        else bool_decide (caseAssignee = id column)
    | _ => bool_decide (JS.orString (fieldOf groupBy c) ND = id column)
    end) cases.

End KanbanBoard.

(** The case has no assignee for the board: its assignee name is empty or
    'Ms Tributário'. *)
Definition unassigned (c : CaseData.t) : Prop :=
  CaseData.name c = [] \/ CaseData.name c = App.ownerMsTributario.

(** The case [c] with assignee [name] and email [email], all else kept. *)
Definition reassigned (name email : jsstring) (c : CaseData.t) : CaseData.t :=
  {| CaseData.id := CaseData.id c;
     CaseData.id2 := CaseData.id2 c;
     CaseData.fields := CaseFields.set_email email (CaseFields.set_name name (CaseData.fields c)) |}.

(** The email of the first user of the given name, or the empty string. *)
Definition emailOfUserNamed (us : list User.t) (name : jsstring) : jsstring :=
  JS.orString (User.email <$> profileOf us name) [].

(** Insertion sort by code units, a stand-in for the host's sort in the
    examples. *)
Fixpoint leString (a b : jsstring) : bool :=
  match a, b with
  | [], _ => true
  | _ :: _, [] => false
  | x :: a', y :: b' => (x <? y)%N || (x =? y)%N && leString a' b'
  end.

Fixpoint insertSorted (x : jsstring) (l : list jsstring) : list jsstring :=
  match l with
  | [] => [x]
  | y :: l' => if leString x y then x :: l else y :: insertSorted x l'
  end.

Definition sortByCodeUnits (l : list jsstring) : list jsstring :=
  fold_right insertSorted [] l.

(* ===================================================================== *)
(** ** Editing several rows of the spreadsheet (Spreadsheet component) *)
(* ===================================================================== *)

Module MultiEdit.

(** [isMultiEditMode], [draftCases] and [modifiedCaseIds]. *)
Record State : Type := mkState {
  isMultiEditMode : bool;
  draftCases : list CaseData.t;
  modifiedCaseIds : gset Z
}.

(** The [field] argument of [handleMultiEditChange]: 'name', or another
    key, given by what [{...c, [field]: value}] makes of a case. *)
Inductive Field : Type :=
  | FieldName
  | FieldOther (assign : jsstring -> CaseData.t -> CaseData.t).

(** [JSON.parse(JSON.stringify(cases))] gives back equal records: the
    fields are strings, integers and arrays of such records, and absent
    optional fields stay absent. *)
Definition handleEnableMultiEdit (cases : list CaseData.t) : State :=
  {| isMultiEditMode := true; draftCases := cases; modifiedCaseIds := ∅ |}.

Definition handleCancelMultiEdit : State :=
  {| isMultiEditMode := false; draftCases := []; modifiedCaseIds := ∅ |}.

(** The list passed to [onUpdateMultipleCases], and the state after. *)
Definition handleSaveMultiEdit (st : State) : list CaseData.t * State :=
  let updatedCases :=
    List.filter (fun c => bool_decide (CaseData.id c ∈ modifiedCaseIds st))
      (draftCases st) in
  (updatedCases, handleCancelMultiEdit).

Definition handleMultiEditChange (users : list User.t)
    (caseId : Z) (field : Field) (value : jsstring) (st : State) : State :=
  {| isMultiEditMode := isMultiEditMode st;
     draftCases :=
       map (fun c =>
         if CaseData.id c =? caseId then
           match field with
           | FieldName =>
               let selectedUser :=
                 List.find (fun u => bool_decide (User.name u = value)) users in
               {| CaseData.id := CaseData.id c;
                  CaseData.id2 := CaseData.id2 c;
                  CaseData.fields :=
                    CaseFields.set_email (JS.orString (User.email <$> selectedUser) [])
                      (CaseFields.set_name value (CaseData.fields c)) |}
           | FieldOther assign => assign value c
           end
         else c) (draftCases st);
     modifiedCaseIds := {[ caseId ]} ∪ modifiedCaseIds st |}.

(** Enable, change the assignee of one row, save: the store after. *)
Definition reassignAndSave (caseId : Z) (value : jsstring) (st : App.State) : App.State :=
  let edit := handleMultiEditChange (App.users st) caseId FieldName value
                (handleEnableMultiEdit (App.cases st)) in
  App.handleUpdateMultipleCases (fst (handleSaveMultiEdit edit)) st.

(** Enable, type a process number into the cell of one row, save: the
    store after.  'processoNumero' is one of [editableColumns]. *)
Definition renumberAndSave (caseId : Z) (value : jsstring) (st : App.State) : App.State :=
  let edit := handleMultiEditChange (App.users st) caseId
                (FieldOther (fun v c =>
                   {| CaseData.id := CaseData.id c;
                      CaseData.id2 := CaseData.id2 c;
                      CaseData.fields :=
                        CaseFields.set_processoNumero v (CaseData.fields c) |}))
                value (handleEnableMultiEdit (App.cases st)) in
  App.handleUpdateMultipleCases (fst (handleSaveMultiEdit edit)) st.

End MultiEdit.

(* ===================================================================== *)
(** ** Tribunals, phases and statuses (App.tsx) *)
(* ===================================================================== *)

(** The three lists of names that the administrator maintains.  The
    handlers of the three are the same text up to the list they act on and
    the wording of their alerts. *)
Inductive LookupKind : Type := OfTribunals | OfFases | OfStatuses.

Inductive LookupAlert : Type :=
  | AlertNameRegistered (kind : LookupKind) (name : jsstring)
  | AlertNameExists (kind : LookupKind) (name : jsstring).

Module Lookups.

(** One of the three lists with its id counter, and the alerts shown. *)
Record State : Type := mkState {
  items : list Lookup.t;
  lastId : Z;
  alerts : list LookupAlert
}.

Definition alert (a : LookupAlert) (st : State) : State :=
  {| items := items st; lastId := lastId st; alerts := alerts st ++ [a] |}.

Section Handlers.
Variable P : Platform.
(** [list.sort((a, b) => a.name.localeCompare(b.name))], which the host
    defines. *)
Variable sortByName : list Lookup.t -> list Lookup.t.

(** [newItem] is an [Omit<_, 'id'>], that is, a name.  The updater passed
    to the state setter calls the id counter; it is taken to run once per
    call of the handler. *)
Definition handleAdd (kind : LookupKind) (newName : jsstring) (st : State) : State :=
  if existsb (fun t => bool_decide (toLowerCase P (JS.trim (Lookup.name t))
                                    = toLowerCase P (JS.trim newName))) (items st)
  then alert (AlertNameRegistered kind newName) st
  else
    let newId := JSNumber.increment (lastId st) in
    {| items := sortByName (items st ++ [ {| Lookup.id := newId; Lookup.name := newName |} ]);
       lastId := newId;
       alerts := alerts st |}.

Definition handleUpdate (kind : LookupKind) (updated : Lookup.t) (st : State) : State :=
  if existsb (fun t => negb (Lookup.id t =? Lookup.id updated)
                       && bool_decide (toLowerCase P (JS.trim (Lookup.name t))
                                       = toLowerCase P (JS.trim (Lookup.name updated))))
       (items st)
  then alert (AlertNameExists kind (Lookup.name updated)) st
  else
    {| items := sortByName (map (fun t => if Lookup.id t =? Lookup.id updated
                                          then updated else t) (items st));
       lastId := lastId st;
       alerts := alerts st |}.

Definition handleDelete (itemId : Z) (st : State) : State :=
  {| items := List.filter (fun t => negb (Lookup.id t =? itemId)) (items st);
     lastId := lastId st;
     alerts := alerts st |}.

Definition handleAddTribunal := handleAdd OfTribunals.
Definition handleUpdateTribunal := handleUpdate OfTribunals.
Definition handleDeleteTribunal := handleDelete.
Definition handleAddFase := handleAdd OfFases.
Definition handleUpdateFase := handleUpdate OfFases.
Definition handleDeleteFase := handleDelete.
Definition handleAddStatus := handleAdd OfStatuses.
Definition handleUpdateStatus := handleUpdate OfStatuses.
Definition handleDeleteStatus := handleDelete.
End Handlers.
End Lookups.

(** The names of a list are pairwise distinct up to surrounding white
    space and letter case, its ids are pairwise distinct and none is above
    the id counter. *)
Definition lookupsWellFormed (P : Platform) (st : Lookups.State) : Prop :=
  NoDup (map Lookup.id (Lookups.items st))
  /\ (forall t, t ∈ Lookups.items st -> Lookup.id t <= Lookups.lastId st)
  /\ NoDup (map (fun t => emailKey P (Lookup.name t)) (Lookups.items st)).

(** Insertion sort of the items by the code units of their names, a
    stand-in for the host's sort in the examples. *)
Fixpoint insertByName (x : Lookup.t) (l : list Lookup.t) : list Lookup.t :=
  match l with
  | [] => [x]
  | y :: l' => if leString (Lookup.name x) (Lookup.name y) then x :: l
               else y :: insertByName x l'
  end.

Definition sortItemsByCodeUnits (l : list Lookup.t) : list Lookup.t :=
  fold_right insertByName [] l.

Definition sampleStatuses : Lookups.State :=
  {| Lookups.items := [ {| Lookup.id := 2; Lookup.name := JS.lit "Arquivado" |};
                        {| Lookup.id := 1; Lookup.name := JS.lit "Em andamento" |} ];
     Lookups.lastId := 2;
     Lookups.alerts := [] |}.

(* ===================================================================== *)
(** ** The lists shown to a user (App.tsx, myCases and allCases) *)
(* ===================================================================== *)

(** The [priority] of a filter: 'all', one of the three priorities, or
    another string, which no case has. *)
Inductive PriorityFilter : Type :=
  | AnyPriority
  | PriorityIs (p : Prioridade)
  | PriorityOther.

Module Views.

(** [myFilters] and [globalFilters]; [ownerName] is absent in the first. *)
Record Filters : Type := mkFilters {
  searchTerm : jsstring;
  priority : PriorityFilter;
  ownerName : option jsstring
}.

(** [c.prioridade === filters.priority] *)
Definition hasPriority (f : PriorityFilter) (c : CaseData.t) : bool :=
  match f, CaseFields.prioridade (CaseData.fields c) with
  | PriorityIs Alta, Alta | PriorityIs Media, Media | PriorityIs Baixa, Baixa => true
  | _, _ => false
  end.

Definition isAnyPriority (f : PriorityFilter) : bool :=
  match f with AnyPriority => true | _ => false end.

Section Lists.
(** [Object.values(c).some(value => String(value ?? '').toLowerCase()
    .includes(term.toLowerCase()))], a test on every value of the record
    that is left to the host. *)
Variable matchesSearch : jsstring -> CaseData.t -> bool.

Definition bySearchAndPriority (filters : Filters) (cases : list CaseData.t)
  : list CaseData.t :=
  let filtered :=
    match searchTerm filters with
    | [] => cases
    | _ :: _ => List.filter (matchesSearch (searchTerm filters)) cases
    end in
  if isAnyPriority (priority filters) then filtered
  else List.filter (hasPriority (priority filters)) filtered.

Definition myCases (currentUser : option User.t) (cases : list CaseData.t)
    (myFilters : Filters) : list CaseData.t :=
  match currentUser with
  | None => []
  | Some u =>
      bySearchAndPriority myFilters
        (List.filter (fun c => bool_decide (CaseData.email c = User.email u))
           (AppCases.activeCases cases))
  end.

Definition allCases (currentUser : option User.t) (cases : list CaseData.t)
    (globalFilters : Filters) : list CaseData.t :=
  match currentUser with
  | None => []
  | Some u =>
      match User.permission u with
      | user => []
      | adm =>
          let filtered := bySearchAndPriority globalFilters (AppCases.activeCases cases) in
          match ownerName globalFilters with
          | Some (k :: s) =>
              if bool_decide (k :: s = JS.lit "all") then filtered
              else List.filter (fun c => bool_decide (CaseData.name c = k :: s)) filtered
          | _ => filtered
          end
      end
  end.
End Lists.
End Views.

(** The filters that let every case through. *)
Definition noFilters : Views.Filters :=
  {| Views.searchTerm := []; Views.priority := AnyPriority;
     Views.ownerName := Some (JS.lit "all") |}.

(* ===================================================================== *)
(** ** Properties of the string and date primitives *)
(* ===================================================================== *)

Lemma orString_Some_empty (s : jsstring) : JS.orString (Some s) [] = s.
Proof. by destruct s. Qed.

Example ex_strings :
  JS.String_ 120 = JS.lit "120" /\ JS.String_ 0 = JS.lit "0"
  /\ JS.padStart0 5 (JS.String_ 42) = JS.lit "00042"
  /\ JS.padStart0 5 (JS.String_ 123456) = JS.lit "123456"
  /\ JS.splitDate (JS.lit "2024-05/10") = [JS.lit "2024"; JS.lit "05"; JS.lit "10"]
  /\ JS.splitDate (JS.lit "-a-") = [[]; JS.lit "a"; []]
  /\ JS.parseInt (JS.lit "  +012abc") = Some 12
  /\ JS.parseInt (JS.lit "0x1f") = Some 31
  /\ JS.parseInt (JS.lit "10T12:00") = Some 10
  /\ JS.parseInt (JS.lit "abc") = None
  /\ JS.trim (9%N :: JS.lit "  a b " ++ [160%N]) = JS.lit "a b"
  /\ JS.includes (JS.lit "em arquivado!") (JS.lit "arquivado") = true.
Proof. vm_compute. repeat split. Qed.

Example ex_dates :
  JSDate.MakeDay 1970 0 1 = 0
  /\ JSDate.MakeDay 2024 4 10 = 19853
  /\ JSDate.MakeDay 2000 2 1 = 11017
  /\ JSDate.MakeDay 2024 12 1 = JSDate.MakeDay 2025 0 1
  /\ JSDate.MakeDay 2024 1 30 = JSDate.MakeDay 2024 2 1
  /\ JSDate.parseISODate (JS.lit "2024-05-10") = Some 1715299200000
  /\ JSDate.parseISODate (JS.lit "2024-02-30") = None
  /\ JSDate.DateOfComponents platformBRT (Some 2024) (Some 4) (Some 10)
     = Some (1715299200000 + 10800000)
  /\ JSDate.DateOfComponents platformUTC (Some 24) (Some 4) (Some 10)
     = JSDate.DateOfComponents platformUTC (Some 1924) (Some 4) (Some 10)
  /\ JSDate.DateOfComponents platformUTC (Some 2024) None (Some 10) = None
  /\ JSDate.DateOfComponents platformUTC (Some 300000) (Some 0) (Some 1) = None.
Proof. vm_compute. repeat split. Qed.

Example ex_classifier :
  let open := str (JS.lit "Em andamento") in
  Spreadsheet.getDeadlineStatus platformUTC (str (JS.lit "10/05/2024")) open = normal due_soon
  /\ Spreadsheet.getDeadlineStatus platformUTC (str (JS.lit "17/05/2024")) open = normal due_soon
  /\ Spreadsheet.getDeadlineStatus platformUTC (str (JS.lit "18/05/2024")) open = normal on_track
  /\ Spreadsheet.getDeadlineStatus platformUTC (str (JS.lit "09/05/2024")) open = normal overdue
  /\ Spreadsheet.getDeadlineStatus platformUTC (str (JS.lit "sem prazo")) open = normal none
  /\ Spreadsheet.getDeadlineStatus platformUTC undefined open = normal none
  /\ Spreadsheet.getDeadlineStatus platformUTC (str (JS.lit "09/05/2024"))
       (str (JS.lit "Transitado em Julgado")) = normal completed
  /\ Spreadsheet.getDeadlineStatus platformUTC (str (JS.lit "09/05/2024")) undefined
     = throwTypeError
  /\ KpiDashboard.getDeadlineStatus platformUTC (str (JS.lit "2024-05-10")) open = normal due_soon
  /\ GlobalKpiDashboard.getDeadlineStatus platformUTC (str (JS.lit "2024-05-18")) open
     = normal on_track.
Proof. vm_compute. repeat split. Qed.

Lemma startsWith_spec (s p : jsstring) :
  JS.startsWith s p = true <-> exists post, s = p ++ post.
Proof.
  revert s. induction p as [|a p IH]; intros s; simpl.
  - split; [intros _; by exists s | done].
  - destruct s as [|b s].
    + split; [done | intros [post Hp]; discriminate].
    + rewrite andb_true_iff, N.eqb_eq, IH. split.
      * intros [-> [post ->]]. by exists post.
      * intros [post Hp]. injection Hp as -> ->. eauto.
Qed.

(** [includes] is the substring test. *)
Lemma includes_spec (s sub : jsstring) :
  JS.includes s sub = true <-> exists pre post, s = pre ++ sub ++ post.
Proof.
  induction s as [|c s IH].
  - simpl. rewrite orb_false_r, startsWith_spec. split.
    + intros [post Hp]. by exists [], post.
    + intros [pre [post Hp]]. symmetry in Hp.
      apply app_eq_nil in Hp as [-> Hp]. exists post. by rewrite Hp.
  - cbn [JS.includes]. rewrite orb_true_iff, startsWith_spec, IH. split.
    + intros [[post Hp] | [pre [post Hp]]].
      * by exists [], post.
      * exists (c :: pre), post. by rewrite Hp.
    + intros [pre [post Hp]]. destruct pre as [|c' pre].
      * left. by exists post.
      * right. injection Hp as -> ->. eauto.
Qed.

Lemma ceilingDays_le (ms k : Z) :
  ceilingDays ms <= k <-> ms <= k * JSDate.msPerDay.
Proof.
  unfold ceilingDays, JSDate.msPerDay.
  pose proof (Z.div_mod (- ms) 86400000 ltac:(lia)).
  pose proof (Z.mod_pos_bound (- ms) 86400000 ltac:(lia)).
  lia.
Qed.

(** The ceiling is the least [k] with [ms <= k] days. *)
Lemma ceilingDays_spec (ms : Z) :
  (ceilingDays ms - 1) * JSDate.msPerDay < ms <= ceilingDays ms * JSDate.msPerDay.
Proof.
  pose proof (proj1 (ceilingDays_le ms (ceilingDays ms)) ltac:(lia)).
  pose proof (ceilingDays_le ms (ceilingDays ms - 1)).
  lia.
Qed.

Lemma digitValue_digit (c : N) :
  isDigit c -> JS.digitValue 10 c = Some (Z.of_N c - 48).
Proof.
  intros [H1 H2]. unfold JS.digitValue.
  apply N.leb_le in H1 as H1'. apply N.leb_le in H2 as H2'. rewrite H1', H2'. cbn.
  destruct (Z.ltb_spec (Z.of_N c - 48) 10); [done | lia].
Qed.

Lemma digitsPrefix_digits (ds : jsstring) (a : option Z) :
  Forall isDigit ds -> ds <> [] ->
  JS.digitsPrefix 10 a ds = Some (readDigits (default 0 a) ds).
Proof.
  intros Hds. revert a. induction Hds as [|c ds Hc Hds IH]; intros a Hne; [done|].
  cbn [JS.digitsPrefix]. rewrite (digitValue_digit c Hc).
  destruct ds as [|c' ds]; [reflexivity|].
  rewrite IH by done. reflexivity.
Qed.

Lemma readDigits_app (a : Z) (ds1 ds2 : jsstring) :
  readDigits a (ds1 ++ ds2) = readDigits (readDigits a ds1) ds2.
Proof. apply fold_left_app. Qed.


Lemma digitsOfPos_spec (fuel : nat) (n : Z) (acc : jsstring) :
  0 <= n < 10 ^ Z.of_nat fuel -> (0 < fuel)%nat ->
  exists ds,
    JS.digitsOfPos fuel n acc = ds ++ acc
    /\ Forall isDigit ds /\ ds <> []
    /\ forall a, readDigits a ds = a * 10 ^ Z.of_nat (length ds) + n.
Proof.
  revert n acc. induction fuel as [|fuel IH]; intros n acc Hn Hf; [lia|].
  cbn [JS.digitsOfPos].
  pose proof (Z.mod_pos_bound n 10 ltac:(lia)) as Hmod.
  pose proof (Z.div_mod n 10 ltac:(lia)) as Hdm.
  assert (Hd : isDigit (Z.to_N (48 + n mod 10))) by (unfold isDigit; lia).
  destruct (Z.eqb_spec (n / 10) 0) as [Hz|Hz].
  - exists [Z.to_N (48 + n mod 10)]. split; [done|]. split; [by constructor|].
    split; [done|]. intros a. cbn. lia.
  - assert (Hq : 0 <= n / 10 < 10 ^ Z.of_nat fuel).
    { split; [apply Z.div_pos; lia|].
      apply Z.div_lt_upper_bound; [lia|].
      replace (Z.of_nat (S fuel)) with (Z.of_nat fuel + 1) in Hn by lia.
      rewrite Z.pow_add_r in Hn by lia. lia. }
    assert (Hfuel : (0 < fuel)%nat).
    { destruct fuel; [|lia]. cbn in Hq. assert (n / 10 = 0) by lia. done. }
    destruct (IH (n / 10) (Z.to_N (48 + n mod 10) :: acc) Hq Hfuel)
      as [ds [Heq [Hall [Hne Hread]]]].
    exists (ds ++ [Z.to_N (48 + n mod 10)]). split; [|split; [|split]].
    + rewrite Heq, <- app_assoc. reflexivity.
    + apply Forall_app. split; [done|]. by constructor.
    + by destruct ds.
    + intros a. rewrite readDigits_app, Hread, length_app. cbn.
      replace (Z.of_nat (length ds + 1)) with (Z.of_nat (length ds) + 1) by lia.
      rewrite Z.pow_add_r by lia. lia.
Qed.

(** [String(n)] of a natural number is its decimal numeral. *)
Lemma String_digits (n : Z) :
  0 <= n ->
  Forall isDigit (JS.String_ n) /\ JS.String_ n <> []
  /\ readDigits 0 (JS.String_ n) = n.
Proof.
  intros Hn. unfold JS.String_. destruct (Z.ltb_spec n 0); [lia|].
  destruct (digitsOfPos_spec (S (Z.to_nat (Z.log2 n))) n []) as [ds [Heq [Hall [Hne Hread]]]].
  - split; [done|].
    destruct (Z.eq_dec n 0) as [->|Hnz]; [done|].
    pose proof (Z.log2_spec n ltac:(lia)) as [_ Hlog].
    pose proof (Z.log2_nonneg n).
    replace (Z.of_nat (S (Z.to_nat (Z.log2 n)))) with (Z.succ (Z.log2 n)) by lia.
    eapply Z.lt_le_trans; [exact Hlog|].
    apply Z.pow_le_mono_l. lia.
  - lia.
  - rewrite Heq, app_nil_r. split; [done|]. split; [done|].
    rewrite Hread. lia.
Qed.

(** [parseInt] of a run of decimal digits is the number they denote. *)
Lemma parseInt_digits (ds : jsstring) :
  Forall isDigit ds -> ds <> [] ->
  JS.parseInt ds = Some (readDigits 0 ds).
Proof.
  intros Hall Hne.
  pose proof (digitsPrefix_digits ds None Hall Hne) as Hval. cbn [default] in Hval.
  unfold JS.parseInt. destruct ds as [|c s]; [done|].
  apply Forall_cons in Hall as [Hc Hs].
  assert (Hws : JS.isWhiteSpace c = false).
  { unfold JS.isWhiteSpace. destruct Hc as [H1 H2].
    repeat match goal with
           | |- context [(?a <=? ?b)%N] => destruct (N.leb_spec a b); try lia
           | |- context [(?a =? ?b)%N] => destruct (N.eqb_spec a b); try lia
           end; reflexivity. }
  cbn [JS.trimStart]. rewrite Hws.
  assert (Hsign : c <> 45%N /\ c <> 43%N) by (unfold isDigit in Hc; lia).
  assert (Hx : forall c' s', s = c' :: s' -> c' <> 120%N /\ c' <> 88%N).
  { intros c' s' ->. apply Forall_cons in Hs as [Hc' _]. unfold isDigit in Hc'. lia. }
  assert (Hshape :
    (let '(sign, s2) :=
       match c :: s with
       | 45%N :: r => (-1, r)
       | 43%N :: r => (1, r)
       | _ => (1, c :: s)
       end in
     let '(radix, s3) :=
       match s2 with
       | 48%N :: 120%N :: r => (16, r)
       | 48%N :: 88%N :: r => (16, r)
       | _ => (10, s2)
       end in
     (fun n => sign * n) <$> JS.digitsPrefix radix None s3)
    = (fun n => 1 * n) <$> JS.digitsPrefix 10 None (c :: s)).
  { destruct Hsign as [Hm Hp].
    destruct (N.eq_dec c 48%N) as [->|H48].
    - destruct s as [|c' s']; [reflexivity|].
      destruct (Hx c' s' eq_refl) as [H120 H88].
      destruct c' as [|p]; [reflexivity|].
      do 7 (destruct p as [p|p|]; try reflexivity); exfalso; lia.
    - destruct c as [|p]; [reflexivity|].
      do 6 (destruct p as [p|p|]; try reflexivity); exfalso; lia. }
  rewrite Hshape, Hval. cbn. f_equal. lia.
Qed.


(** Resetting the time of day only looks at the local day of the instant. *)
Lemma atMidnight_same_day (P : Platform) (t1 t2 : Z) :
  JSDate.Day (JSDate.LocalTime P t1) = JSDate.Day (JSDate.LocalTime P t2) ->
  atMidnight P (Some t1) = atMidnight P (Some t2).
Proof. unfold atMidnight, JSDate.setHours. by intros ->. Qed.

(* ===================================================================== *)
(** ** The deadline classifier *)
(* ===================================================================== *)

Section Classifier.
Variable P : Platform.

Lemma isTerminal_unfold (status : jsstring) :
  isTerminal P status =
    JS.includes (toLowerCase P status) kw_concluido
    || JS.includes (toLowerCase P status) kw_finalizado
    || JS.includes (toLowerCase P status) kw_transitado
    || JS.includes (toLowerCase P status) kw_arquivado.
Proof.
  unfold isTerminal, terminalKeywords. simpl.
  rewrite orb_false_r, !orb_assoc. reflexivity.
Qed.

Lemma classify_terminal (v : Copy) (dateString : JsArg) (status : jsstring) :
  isTerminal P status = true ->
  classify v P dateString (str status) = normal completed.
Proof.
  rewrite isTerminal_unfold. intros H.
  destruct v; simpl; by rewrite H.
Qed.

Lemma classify_absent (v : Copy) (status : jsstring) :
  isTerminal P status = false ->
  classify v P undefined (str status) = normal none
  /\ classify v P (str []) (str status) = normal none.
Proof.
  rewrite isTerminal_unfold. intros H.
  destruct v; simpl; by rewrite H.
Qed.

Lemma classify_byDate (v : Copy) (c : N) (s status : jsstring) :
  isTerminal P status = false ->
  classify v P (str (c :: s)) (str status)
  = normal (byDate P (deadlineOf v P (c :: s))).
Proof.
  rewrite isTerminal_unfold. intros H.
  destruct v; cbn [classify deadlineOf];
    unfold Spreadsheet.getDeadlineStatus, KpiDashboard.getDeadlineStatus,
      GlobalKpiDashboard.getDeadlineStatus;
    rewrite H; unfold byDate, atMidnight;
    repeat match goal with |- context [if ?b then _ else _] => destruct b end;
    reflexivity.
Qed.
End Classifier.

Lemma classify_total (v : Copy) (P : Platform) (dateString : JsArg) (status : jsstring) :
  exists r, classify v P dateString (str status) = normal r.
Proof.
  destruct (isTerminal P status) eqn:Ht.
  - exists completed. by apply classify_terminal.
  - destruct dateString as [|[|c s]].
    + exists none. by apply classify_absent.
    + exists none. by apply classify_absent.
    + eexists. by apply classify_byDate.
Qed.

Lemma classify_no_status (v : Copy) (P : Platform) (dateString : JsArg) :
  classify v P dateString undefined = throwTypeError.
Proof. by destruct v. Qed.

Lemma byDate_invalid (P : Platform) : byDate P None = none.
Proof. reflexivity. Qed.

Lemma byDate_valid (P : Platform) (t0 d t : Z) :
  atMidnight P (Some t0) = Some d ->
  atMidnight P (Some (now P)) = Some t ->
  byDate P (Some t0)
  = if d <? t then overdue
    else if ceilingDays (d - t) <=? 7 then due_soon else on_track.
Proof.
  intros Hd Ht. unfold byDate, JSDate.DateNow. rewrite Hd, Ht. reflexivity.
Qed.

(** X30. Once a copy has built a valid [Date] from the date string (which
    [Date] that is depends on the copy and on the host), and the status is
    not terminal, the copy compares that deadline and today after both were
    reset to local midnight: a deadline before today is overdue, a deadline
    on today is due soon, a deadline at most 7 days ahead (ceiling of the
    difference in days) is due soon, and a later one is on track; two
    instants of the same local day are reset to the same midnight. *)
Theorem X30_classify_compares_midnights
    (v : Copy) (P : Platform) (s status : jsstring) (t0 d t : Z) :
  s <> [] ->
  isTerminal P status = false ->
  deadlineOf v P s = Some t0 ->
  atMidnight P (Some t0) = Some d ->
  atMidnight P (Some (now P)) = Some t ->
  (d < t -> classify v P (str s) (str status) = normal overdue)
  /\ (d = t -> classify v P (str s) (str status) = normal due_soon)
  /\ (t <= d -> ceilingDays (d - t) <= 7 ->
      classify v P (str s) (str status) = normal due_soon)
  /\ (t <= d -> 7 < ceilingDays (d - t) ->
      classify v P (str s) (str status) = normal on_track)
  /\ (JSDate.Day (JSDate.LocalTime P t0) = JSDate.Day (JSDate.LocalTime P (now P)) ->
      d = t).
Proof.
  intros Hs Hst Hparse Hd Ht.
  destruct s as [|c s]; [done|].
  rewrite (classify_byDate P v c s status Hst), Hparse, (byDate_valid P t0 d t Hd Ht).
  repeat split.
  - intros H. apply Z.ltb_lt in H. by rewrite H.
  - intros ->. rewrite Z.ltb_irrefl, Z.sub_diag. reflexivity.
  - intros H1 H2. apply Z.ltb_ge in H1. apply Z.leb_le in H2. by rewrite H1, H2.
  - intros H1 H2. apply Z.ltb_ge in H1. apply Z.leb_gt in H2. by rewrite H1, H2.
  - intros Hday. apply atMidnight_same_day in Hday. congruence.
Qed.

Lemma X30_witness :
  let s := JS.lit "12/05/2024" in
  let status := JS.lit "Em andamento" in
  let d := midnight_2024_05_12 in
  let t := midnight_2024_05_10 in
  (s <> [] /\ isTerminal platformUTC status = false
   /\ deadlineOf InSpreadsheet platformUTC s = Some d
   /\ atMidnight platformUTC (Some d) = Some d
   /\ atMidnight platformUTC (Some (now platformUTC)) = Some t
   /\ t <= d /\ ceilingDays (d - t) <= 7)
  /\ classify InSpreadsheet platformUTC (str s) (str status) = normal due_soon.
Proof.
  assert (Hle : midnight_2024_05_10 <= midnight_2024_05_12) by (vm_compute; discriminate).
  assert (Hceil : ceilingDays (midnight_2024_05_12 - midnight_2024_05_10) <= 7)
    by (vm_compute; discriminate).
  split.
  - split; [done|]. split; [vm_compute; reflexivity|]. split; [vm_compute; reflexivity|].
    split; [vm_compute; reflexivity|]. split; [vm_compute; reflexivity|]. by split.
  - destruct (X30_classify_compares_midnights InSpreadsheet platformUTC
                (JS.lit "12/05/2024") (JS.lit "Em andamento")
                midnight_2024_05_12 midnight_2024_05_12 midnight_2024_05_10)
      as [_ [_ [Hsoon _]]]; [done | vm_compute; reflexivity ..|].
    exact (Hsoon Hle Hceil).
Defined.

(** C5. Whatever the date argument (absent, past or future), a status label
    whose lower-case form contains one of the four terminal keywords is
    classified as completed by every copy: the test comes before any look at
    the date. *)
Theorem C5_terminal_status_first
    (v : Copy) (P : Platform) (dateString : JsArg)
    (status keyword pre post : jsstring) :
  In keyword terminalKeywords ->
  toLowerCase P status = pre ++ keyword ++ post ->
  classify v P dateString (str status) = normal completed.
Proof.
  intros Hk Hlow. apply classify_terminal.
  unfold isTerminal. apply existsb_exists. exists keyword. split; [done|].
  apply includes_spec. eauto.
Qed.

Lemma C5_witness :
  let status := JS.lit "Processo ARQUIVADO em 2023" in
  (In kw_arquivado terminalKeywords
   /\ toLowerCase platformBRT status
      = JS.lit "processo " ++ kw_arquivado ++ JS.lit " em 2023")
  /\ classify InGlobalKpiDashboard platformBRT (str (JS.lit "2020-01-01")) (str status)
     = normal completed.
Proof.
  split.
  - split; [simpl; tauto | vm_compute; reflexivity].
  - apply (C5_terminal_status_first InGlobalKpiDashboard platformBRT
             (str (JS.lit "2020-01-01")) (JS.lit "Processo ARQUIVADO em 2023")
             kw_arquivado (JS.lit "processo ") (JS.lit " em 2023"));
      [simpl; tauto | vm_compute; reflexivity].
Defined.







(** Where the copies agree.  The KpiDashboard and GlobalKpiDashboard copies
    return the same result on every input; the Spreadsheet copy returns that
    result too whenever the date string does not split into exactly three
    parts on '-' and '/', or the status is terminal. *)
Theorem copies_agree_outside_three_parts
    (P : Platform) (dateString status : JsArg) :
  KpiDashboard.getDeadlineStatus P dateString status
  = GlobalKpiDashboard.getDeadlineStatus P dateString status
  /\ (splitsInThree dateString = false
      \/ (exists st, status = str st /\ isTerminal P st = true) ->
      Spreadsheet.getDeadlineStatus P dateString status
      = KpiDashboard.getDeadlineStatus P dateString status).
Proof.
  split; [reflexivity|].
  change (splitsInThree dateString = false
          \/ (exists st, status = str st /\ isTerminal P st = true) ->
          classify InSpreadsheet P dateString status
          = classify InKpiDashboard P dateString status).
  destruct status as [|st]; [reflexivity|].
  intros [H3 | [st' [[= <-] Hterm]]].
  - destruct (isTerminal P st) eqn:Hst.
    + by rewrite (classify_terminal P InSpreadsheet dateString st Hst),
         (classify_terminal P InKpiDashboard dateString st Hst).
    + destruct dateString as [|[|c s]]; [reflexivity | reflexivity |].
      rewrite (classify_byDate P InSpreadsheet c s st Hst),
        (classify_byDate P InKpiDashboard c s st Hst).
      f_equal. f_equal. cbn [deadlineOf]. unfold splitsInThree in H3.
      destruct (JS.splitDate (c :: s)) as [|p0 [|p1 [|p2 [|p3 ps]]]]; try reflexivity.
      discriminate.
  - by rewrite (classify_terminal P InSpreadsheet dateString st Hterm),
       (classify_terminal P InKpiDashboard dateString st Hterm).
Qed.

Lemma copies_agree_on_a_long_date :
  let dateString := str (JS.lit "May 12, 2024") in
  let status := str (JS.lit "Em andamento") in
  splitsInThree dateString = false
  /\ Spreadsheet.getDeadlineStatus platformBRT dateString status
     = KpiDashboard.getDeadlineStatus platformBRT dateString status.
Proof.
  split.
  - vm_compute. reflexivity.
  - apply (copies_agree_outside_three_parts platformBRT
             (str (JS.lit "May 12, 2024")) (str (JS.lit "Em andamento"))).
    left. vm_compute. reflexivity.
Defined.

(** *** Dates the host cannot read *)

(** A date string that [Date.parse] does not read is unset for the dashboard
    copies, whatever its parts say. *)
Lemma unread_date_is_none_on_dashboards (P : Platform) (s status : jsstring) :
  isTerminal P status = false ->
  DateParse P s = None ->
  KpiDashboard.getDeadlineStatus P (str s) (str status) = normal none
  /\ GlobalKpiDashboard.getDeadlineStatus P (str s) (str status) = normal none.
Proof.
  intros Hst Hparse.
  change (classify InKpiDashboard P (str s) (str status) = normal none
          /\ classify InGlobalKpiDashboard P (str s) (str status) = normal none).
  destruct s as [|c s]; [split; by apply classify_absent|].
  rewrite !classify_byDate by done. cbn [deadlineOf].
  unfold JSDate.DateOfString. rewrite Hparse. by split.
Qed.

(** A day-first date, the form the Spreadsheet copy reads and a [Date.parse]
    that takes the first number as the month rejects: on track in the
    spreadsheet, unset on the dashboards. *)
Example day_first_date :
  let dateString := str (JS.lit "31/12/2024") in
  let status := str (JS.lit "Em andamento") in
  DateParse platformUTC (JS.lit "31/12/2024") = None
  /\ Spreadsheet.getDeadlineStatus platformUTC dateString status = normal on_track
  /\ KpiDashboard.getDeadlineStatus platformUTC dateString status = normal none
  /\ GlobalKpiDashboard.getDeadlineStatus platformUTC dateString status = normal none.
Proof. vm_compute. repeat split. Qed.

(** *** ISO dates on a host behind UTC *)

Lemma digit_inv (c : N) (a : Z) :
  JSDate.digit c = Some a -> isDigit c /\ a = Z.of_N c - 48.
Proof.
  unfold JSDate.digit, JS.digitValue, isDigit. intros H.
  repeat match type of H with
         | context [(?x <=? ?y)%N] => destruct (N.leb_spec x y); cbn [andb] in H
         | context [(?x <? ?y)%Z] => destruct (Z.ltb_spec x y)
         end; try discriminate; injection H as <-; lia.
Qed.

Lemma isDateSeparator_digit (c : N) : isDigit c -> JS.isDateSeparator c = false.
Proof.
  unfold isDigit, JS.isDateSeparator. intros H.
  destruct (N.eqb_spec c 45), (N.eqb_spec c 47); try lia; reflexivity.
Qed.

Lemma DayFromYear_bounds (y : Z) :
  0 <= y <= 10000 -> -720000 <= JSDate.DayFromYear y <= 2940000.
Proof.
  intros Hy. unfold JSDate.DayFromYear. Z.div_mod_to_equations. lia.
Qed.

Lemma daysBeforeMonth_bounds (leap : bool) (mn : Z) :
  0 <= mn <= 11 -> 0 <= JSDate.daysBeforeMonth leap mn <= 335.
Proof.
  intros Hmn.
  assert (Hc : mn = 0 \/ mn = 1 \/ mn = 2 \/ mn = 3 \/ mn = 4 \/ mn = 5 \/ mn = 6
               \/ mn = 7 \/ mn = 8 \/ mn = 9 \/ mn = 10 \/ mn = 11) by lia.
  destruct leap; repeat (destruct Hc as [-> | Hc]); try subst mn;
    vm_compute; split; discriminate.
Qed.

Section IsoDates.
Variable P : Platform.
Variable off : Z.
Hypothesis Hconf : ISOConformant P.
Hypothesis Hzone : forall t b, LocalTZA P t b = off.

(** In a zone of fixed offset, midnight of the local day of [t]. *)
Lemma atMidnight_fixed_zone (t : Z) :
  atMidnight P (Some t)
  = JSDate.TimeClip (JSDate.Day (t + off) * JSDate.msPerDay - off).
Proof.
  unfold atMidnight, JSDate.setHours, JSDate.LocalTime, JSDate.UTC, JSDate.MakeDate,
    JSDate.MakeTime.
  rewrite !Hzone. f_equal. lia.
Qed.

(** On a host whose local time is behind UTC by a fixed offset of less than
    a day, take the ISO date (year 100 or later) of the local day of today:
    the Spreadsheet copy, which reads the parts in local time, finds it due
    soon; the dashboard copies, which read it as UTC midnight, the evening
    before in local time, find it overdue. *)
Lemma iso_date_is_a_day_early_on_dashboards
    (y1 y2 y3 y4 m1 m2 d1 d2 : N) (t : Z) (status : jsstring) :
  let s := [y1; y2; y3; y4; 45%N; m1; m2; 45%N; d1; d2] in
  JSDate.parseISODate s = Some t ->
  [y1; y2] <> JS.lit "00" ->
  - JSDate.msPerDay < off < 0 ->
  JSDate.Day (JSDate.LocalTime P (now P)) = JSDate.Day t ->
  isTerminal P status = false ->
  Spreadsheet.getDeadlineStatus P (str s) (str status) = normal due_soon
  /\ KpiDashboard.getDeadlineStatus P (str s) (str status) = normal overdue
  /\ GlobalKpiDashboard.getDeadlineStatus P (str s) (str status) = normal overdue.
Proof.
  intros s Hparse Hyear Hoff Htoday Hst.
  pose proof Hparse as Hiso. apply Hconf in Hiso.
  unfold s in Hparse. cbn [JSDate.parseISODate] in Hparse.
  destruct (JSDate.digit y1) as [a|] eqn:E1; [|done].
  destruct (JSDate.digit y2) as [b|] eqn:E2; [|done].
  destruct (JSDate.digit y3) as [c|] eqn:E3; [|done].
  destruct (JSDate.digit y4) as [d|] eqn:E4; [|done].
  destruct (JSDate.digit m1) as [e|] eqn:E5; [|done].
  destruct (JSDate.digit m2) as [f|] eqn:E6; [|done].
  destruct (JSDate.digit d1) as [g|] eqn:E7; [|done].
  destruct (JSDate.digit d2) as [h|] eqn:E8; [|done].
  cbn [mbind option_bind] in Hparse.
  apply digit_inv in E1 as [D1 ->], E2 as [D2 ->], E3 as [D3 ->], E4 as [D4 ->].
  apply digit_inv in E5 as [D5 ->], E6 as [D6 ->], E7 as [D7 ->], E8 as [D8 ->].
  set (y := 1000 * (Z.of_N y1 - 48) + 100 * (Z.of_N y2 - 48)
            + 10 * (Z.of_N y3 - 48) + (Z.of_N y4 - 48)) in *.
  set (m := 10 * (Z.of_N m1 - 48) + (Z.of_N m2 - 48)) in *.
  set (dt := 10 * (Z.of_N d1 - 48) + (Z.of_N d2 - 48)) in *.
  destruct (_ && _) eqn:Hvalid in Hparse; [|done].
  injection Hparse as Ht.
  apply andb_true_iff in Hvalid as [Hvalid Hd2]. apply andb_true_iff in Hvalid as [Hvalid Hd1].
  apply andb_true_iff in Hvalid as [Hm1 Hm2].
  apply Z.leb_le in Hm1, Hm2, Hd1, Hd2.
  assert (Hdim : dt <= 31).
  { unfold JSDate.DaysInMonth in Hd2.
    repeat match type of Hd2 with context [if ?b then _ else _] => destruct b end; lia. }
  assert (Hy : 100 <= y <= 9999).
  { unfold isDigit in *. split; [|unfold y; lia].
    destruct (N.eq_dec y1 48%N) as [->|], (N.eq_dec y2 48%N) as [->|]; unfold y; try lia.
    by destruct Hyear. }
  set (D := JSDate.MakeDay y (m - 1) dt) in *.
  assert (HD : -1000000 <= D <= 3000000).
  { unfold D, JSDate.MakeDay.
    replace ((m - 1) / 12) with 0 by (Z.div_mod_to_equations; lia).
    replace ((m - 1) mod 12) with (m - 1) by (Z.div_mod_to_equations; lia).
    pose proof (DayFromYear_bounds (y + 0) ltac:(lia)).
    pose proof (daysBeforeMonth_bounds (JSDate.InLeapYear (y + 0)) (m - 1) ltac:(lia)).
    lia. }
  assert (Htv : t = D * JSDate.msPerDay) by (unfold JSDate.MakeDate in Ht; lia).
  assert (HdayT : JSDate.Day t = D).
  { rewrite Htv. unfold JSDate.Day, JSDate.msPerDay. by rewrite Z.div_mul. }
  unfold JSDate.LocalTime in Htoday. rewrite Hzone, HdayT in Htoday.
  assert (Hclip : forall x, -1000001 <= x <= 3000000 ->
            JSDate.TimeClip (x * JSDate.msPerDay - off) = Some (x * JSDate.msPerDay - off)).
  { intros x Hx. unfold JSDate.TimeClip, JSDate.msPerDay in *.
    destruct (Z.leb_spec (Z.abs (x * 86400000 - off)) 8640000000000000); [done | lia]. }
  assert (Htoday' : atMidnight P (Some (now P)) = Some (D * JSDate.msPerDay - off)).
  { rewrite atMidnight_fixed_zone, Htoday. apply Hclip. lia. }
  change (classify InSpreadsheet P (str s) (str status) = normal due_soon
          /\ classify InKpiDashboard P (str s) (str status) = normal overdue
          /\ classify InGlobalKpiDashboard P (str s) (str status) = normal overdue).
  unfold s. rewrite !classify_byDate by done. fold s.
  assert (Hdash : byDate P (JSDate.DateOfString P s) = overdue).
  { unfold JSDate.DateOfString. rewrite Hiso. cbn [mbind option_bind].
    assert (JSDate.TimeClip t = Some t) as ->.
    { rewrite Htv. specialize (Hclip D ltac:(lia)).
      unfold JSDate.TimeClip, JSDate.msPerDay in *.
      destruct (Z.leb_spec (Z.abs (D * 86400000)) 8640000000000000); [done | lia]. }
    rewrite (byDate_valid P t ((D - 1) * JSDate.msPerDay - off)
               (D * JSDate.msPerDay - off)); [| |done].
    - destruct (Z.ltb_spec ((D - 1) * JSDate.msPerDay - off) (D * JSDate.msPerDay - off));
        [done | unfold JSDate.msPerDay in *; lia].
    - rewrite atMidnight_fixed_zone.
      assert (JSDate.Day (t + off) = D - 1) as ->.
      { rewrite Htv. unfold JSDate.Day, JSDate.msPerDay in *.
        symmetry. apply (Z.div_unique _ _ _ (86400000 + off)); lia. }
      apply Hclip. lia. }
  split; [|split; cbn [deadlineOf]; by rewrite Hdash].
  cbn [deadlineOf].
  assert (Hsplit : JS.splitDate s = [[y1; y2; y3; y4]; [m1; m2]; [d1; d2]]).
  { unfold s. cbn [JS.splitDate].
    rewrite (isDateSeparator_digit y1 D1), (isDateSeparator_digit y2 D2),
      (isDateSeparator_digit y3 D3), (isDateSeparator_digit y4 D4),
      (isDateSeparator_digit m1 D5), (isDateSeparator_digit m2 D6),
      (isDateSeparator_digit d1 D7), (isDateSeparator_digit d2 D8).
    reflexivity. }
  rewrite Hsplit. cbn [length Nat.eqb].
  rewrite !parseInt_digits
    by first [done | repeat (apply Forall_cons_2; [assumption|]); constructor].
  assert (readDigits 0 [y1; y2; y3; y4] = y) as -> by (unfold y; cbn; lia).
  assert (readDigits 0 [m1; m2] = m) as -> by (unfold m; cbn; lia).
  assert (readDigits 0 [d1; d2] = dt) as -> by (unfold dt; cbn; lia).
  cbn [JSDate.pred fmap option_fmap option_map JSDate.DateOfComponents].
  destruct (Z.leb_spec y 99); [lia|]. rewrite andb_false_r.
  assert (JSDate.UTC P (JSDate.MakeDate (JSDate.MakeDay y (m - 1) dt)
                          (JSDate.MakeTime 0 0 0 0))
          = D * JSDate.msPerDay - off) as ->.
  { unfold JSDate.UTC, JSDate.MakeDate, JSDate.MakeTime. rewrite Hzone. fold D. lia. }
  rewrite (Hclip D) by lia.
  rewrite (byDate_valid P _ (D * JSDate.msPerDay - off) (D * JSDate.msPerDay - off));
    [| |done].
  - rewrite Z.ltb_irrefl, Z.sub_diag. reflexivity.
  - rewrite atMidnight_fixed_zone.
    replace (D * JSDate.msPerDay - off + off) with (D * JSDate.msPerDay) by lia.
    unfold JSDate.Day at 1. rewrite Z.div_mul by done. apply Hclip. lia.
Qed.
End IsoDates.

Lemma platformBRT_conformant : ISOConformant platformBRT.
Proof. intros s t H. exact H. Qed.

(** C4 fails on the dashboards.  On a host three hours behind UTC, on
    10 May 2024 at noon local time, the due date "2024-05-10" is today.  The
    Spreadsheet copy finds it due soon.  The two dashboard copies give the
    string to [new Date], which reads it as midnight UTC, 21:00 of 9 May in
    local time; reset to local midnight the deadline is 9 May, a day before
    today, and the class is 'overdue'. *)
Theorem C4_due_today_is_overdue_on_dashboards :
  let s := JS.lit "2024-05-10" in
  let status := JS.lit "Em andamento" in
  isTerminal platformBRT status = false
  /\ JSDate.Day (JSDate.LocalTime platformBRT (now platformBRT)) = JSDate.MakeDay 2024 4 10
  /\ deadlineOf InSpreadsheet platformBRT s
     = Some (JSDate.UTC platformBRT (JSDate.MakeDate (JSDate.MakeDay 2024 4 10) 0))
  /\ deadlineOf InGlobalKpiDashboard platformBRT s
     = Some (JSDate.MakeDate (JSDate.MakeDay 2024 4 10) 0)
  /\ JSDate.Day (JSDate.LocalTime platformBRT (JSDate.MakeDate (JSDate.MakeDay 2024 4 10) 0))
     = JSDate.MakeDay 2024 4 9
  /\ Spreadsheet.getDeadlineStatus platformBRT (str s) (str status) = normal due_soon
  /\ KpiDashboard.getDeadlineStatus platformBRT (str s) (str status) = normal overdue
  /\ GlobalKpiDashboard.getDeadlineStatus platformBRT (str s) (str status) = normal overdue.
Proof. vm_compute. repeat split. Qed.

(** C10 fails on the code: on a host three hours behind UTC, on 10 May 2024,
    the date string "2024-05-10" is due soon for the Spreadsheet copy, which
    reads it as local midnight of 10 May, and overdue for the two dashboard
    copies, which read it as UTC midnight, that is 9 May, 21:00 local time. *)
Lemma C10_copies_disagree :
  let dateString := str (JS.lit "2024-05-10") in
  let status := str (JS.lit "Em andamento") in
  Spreadsheet.getDeadlineStatus platformBRT dateString status = normal due_soon
  /\ KpiDashboard.getDeadlineStatus platformBRT dateString status = normal overdue
  /\ GlobalKpiDashboard.getDeadlineStatus platformBRT dateString status = normal overdue
  /\ Spreadsheet.getDeadlineStatus platformBRT dateString status
     <> GlobalKpiDashboard.getDeadlineStatus platformBRT dateString status.
Proof. vm_compute. repeat split; discriminate. Qed.

(* ===================================================================== *)
(** ** The case store *)
(* ===================================================================== *)

Example ex_store :
  map CaseData.id2 (App.cases twoCaseStore) = [JS.lit "MST00002"; JS.lit "MST00001"]
  /\ App.lastCaseId twoCaseStore = 2
  /\ App.cases (App.handleAddCase admin sampleClock (draftOf " 123-A " "Bob" "") twoCaseStore)
     = App.cases twoCaseStore
  /\ (let r := App.importLoop platformUTC sampleClock
          [draftOf "P1" "Alice" ""; draftOf "P1" "Bob" ""; draftOf "P2" "Bob" ""] storeWithP2 in
      (map CaseData.processoNumero (App.successfulImports r),
        App.duplicatesInFile r, App.duplicatesInSystem r)
      = ([JS.lit "P1"], [JS.lit "P1"], [JS.lit "P2"])).
Proof. vm_compute. repeat split. Qed.

Lemma lookup_map {A B} (f : A -> B) (l : list A) (i : nat) :
  map f l !! i = f <$> (l !! i).
Proof. exact (list_lookup_fmap f l i). Qed.

Lemma elem_of_map {A B} (f : A -> B) (l : list A) (y : B) :
  y ∈ map f l <-> exists x, y = f x /\ x ∈ l.
Proof. exact (list_elem_of_fmap f l y). Qed.

Ltac pow53 := change (2 ^ 53) with 9007199254740992 in *.

(** Below 2^53 in magnitude the counter counts: [++] adds exactly one. *)
Lemma increment_exact (n : Z) :
  counterInRange n -> JSNumber.increment n = n + 1.
Proof.
  unfold counterInRange, JSNumber.increment, JSNumber.roundToDouble.
  change (2 ^ 53) with 9007199254740992. intros Hn.
  destruct (Z.leb_spec (Z.abs (n + 1)) 9007199254740992) as [_ | H]; [done | lia].
Qed.

Lemma counterAfter_exact (k : nat) (last : Z) :
  - 2 ^ 53 <= last -> last + Z.of_nat k <= 2 ^ 53 ->
  counterAfter k last = last + Z.of_nat k.
Proof.
  change (2 ^ 53) with 9007199254740992. intros Hlo.
  induction k as [|k IH]; intros Hhi; [cbn; lia|].
  change (counterAfter (S k) last) with (JSNumber.increment (counterAfter k last)).
  rewrite IH by lia.
  rewrite increment_exact; [lia|].
  unfold counterInRange. change (2 ^ 53) with 9007199254740992. lia.
Qed.

(** At 2^53 the counter stops: [++] gives 2^53 again, and from then on it
    does not count by ones. *)
Remark counter_sticks_at_2_53 :
  JSNumber.increment (2 ^ 53) = 2 ^ 53
  /\ JSNumber.increment (2 ^ 53 - 1) = 2 ^ 53
  /\ JSNumber.increment (2 ^ 53 + 2) = 2 ^ 53 + 4.
Proof. by vm_compute. Qed.

(** At 2^53 the counter no longer moves, so the case added next gets the
    id of the one added before it. *)
Remark add_at_2_53_repeats_an_id :
  idsWellFormed storeAtLimit
  /\ map CaseData.id
       (App.cases (App.handleAddCase admin sampleClock
                     (draftOf "456-B" "Bob" "2024-06-01") storeAtLimit))
     = [2 ^ 53; 2 ^ 53]
  /\ ~ idsWellFormed (App.handleAddCase admin sampleClock
                        (draftOf "456-B" "Bob" "2024-06-01") storeAtLimit).
Proof.
  assert (Hids : map CaseData.id
                   (App.cases (App.handleAddCase admin sampleClock
                                 (draftOf "456-B" "Bob" "2024-06-01") storeAtLimit))
                 = [2 ^ 53; 2 ^ 53]) by (vm_compute; reflexivity).
  split; [|split; [exact Hids|]].
  - split.
    + unfold uniqueIds, storeAtLimit. cbn [App.cases map CaseData.id].
      apply NoDup_singleton.
    + intros c Hc. unfold storeAtLimit in Hc. cbn [App.cases] in Hc.
      apply list_elem_of_singleton in Hc as ->. cbn [CaseData.id App.lastCaseId storeAtLimit].
      reflexivity.
  - intros [Huniq _]. unfold uniqueIds in Huniq. rewrite Hids in Huniq.
    apply NoDup_cons in Huniq as [Hnotin _]. apply Hnotin. by left.
Qed.

Lemma addCase_guard (processoNumero : jsstring) (cs : list CaseData.t) :
  existsb (fun c => bool_decide (JS.trim (CaseData.processoNumero c)
                                 = JS.trim processoNumero)) cs = true
  <-> processNumberTaken processoNumero cs.
Proof.
  rewrite existsb_exists. unfold processNumberTaken.
  split; intros [c [Hc Heq]]; exists c.
  - apply list_elem_of_In in Hc. by apply bool_decide_eq_true in Heq.
  - split; [by apply list_elem_of_In | by apply bool_decide_eq_true].
Qed.

Lemma processNumberTaken_dec (processoNumero : jsstring) (cs : list CaseData.t) :
  processNumberTaken processoNumero cs \/ ~ processNumberTaken processoNumero cs.
Proof.
  rewrite <- addCase_guard.
  destruct (existsb _ cs); [by left | by right].
Qed.

Lemma updateCase_guard (updatedCase : CaseData.t) (cs : list CaseData.t) :
  existsb (fun c => negb (CaseData.id c =? CaseData.id updatedCase)
                    && bool_decide (JS.trim (CaseData.processoNumero c)
                                    = JS.trim (CaseData.processoNumero updatedCase))) cs
  = true
  <-> processNumberOfOtherCase updatedCase cs.
Proof.
  rewrite existsb_exists. unfold processNumberOfOtherCase.
  split.
  - intros [c [Hc Heq]]. exists c. apply list_elem_of_In in Hc.
    apply andb_true_iff in Heq as [Hid Heq].
    apply negb_true_iff, Z.eqb_neq in Hid.
    by apply bool_decide_eq_true in Heq.
  - intros [c [Hc [Hid Heq]]]. exists c. apply list_elem_of_In in Hc.
    split; [done|]. apply andb_true_iff. split.
    + by apply negb_true_iff, Z.eqb_neq.
    + by apply bool_decide_eq_true.
Qed.

Lemma fold_max_bound (l : list Z) (a x : Z) :
  x = a \/ x ∈ l -> x <= fold_left Z.max l a.
Proof.
  revert a x. induction l as [|b l IH]; intros a x H; cbn [fold_left].
  - destruct H as [-> | H]; [lia | by apply not_elem_of_nil in H].
  - pose proof (IH (Z.max a b) (Z.max a b) (or_introl eq_refl)) as Hmax.
    destruct H as [-> | H]; [lia|].
    apply elem_of_cons in H as [-> | H]; [lia|].
    apply IH. by right.
Qed.

(** The id counter starts at or above every stored id. *)
Lemma initialLastCaseId_bound (cs : list CaseData.t) (c : CaseData.t) :
  c ∈ cs -> CaseData.id c <= App.initialLastCaseId cs.
Proof.
  destruct cs as [|c0 cs]; intros Hc; [by apply not_elem_of_nil in Hc|].
  cbn [App.initialLastCaseId]. apply fold_max_bound.
  apply elem_of_cons in Hc as [-> | Hc]; [by left | right].
  apply elem_of_map. eauto.
Qed.

Section Store.
Variable currentUser : User.t.
Variable nowISO : jsstring.

Lemma handleAddCase_rejected (newCase : CaseFields.t) (st : App.State) :
  processNumberTaken (CaseFields.processoNumero newCase) (App.cases st) ->
  App.handleAddCase currentUser nowISO newCase st
  = App.alert (AlertProcessNumberRegistered (CaseFields.processoNumero newCase)) st.
Proof.
  intros H. apply addCase_guard in H. unfold App.handleAddCase. by rewrite H.
Qed.

Lemma handleAddCase_accepted (newCase : CaseFields.t) (st : App.State) :
  ~ processNumberTaken (CaseFields.processoNumero newCase) (App.cases st) ->
  App.handleAddCase currentUser nowISO newCase st
  = {| App.users := App.users st;
       App.cases :=
         {| CaseData.id := JSNumber.increment (App.lastCaseId st);
            CaseData.id2 :=
              JS.lit "MST"
              ++ JS.padStart0 5 (JS.String_ (JSNumber.increment (App.lastCaseId st)));
            CaseData.fields :=
              CaseFields.set_tramitationLog
                (Some [ {| TramitationEntry.fromUser := User.name currentUser;
                           TramitationEntry.toUser := CaseFields.name newCase;
                           TramitationEntry.timestamp := nowISO;
                           TramitationEntry.deadline :=
                             CaseFields.prazoDeterminado newCase |} ])
                (CaseFields.set_coResponsibleName (Some (CaseFields.name newCase))
                   (CaseFields.set_ownerName App.ownerMsTributario newCase)) |}
         :: App.cases st;
       App.lastCaseId := JSNumber.increment (App.lastCaseId st);
       App.alerts := App.alerts st
                     ++ [AlertCaseCreated (CaseFields.processoNumero newCase)] |}.
Proof.
  intros H. rewrite <- addCase_guard in H. apply not_true_is_false in H.
  unfold App.handleAddCase. rewrite H, orString_Some_empty. reflexivity.
Qed.

Lemma handleUpdateCase_rejected (updatedCase : CaseData.t) (st : App.State) :
  processNumberOfOtherCase updatedCase (App.cases st) ->
  App.handleUpdateCase currentUser nowISO updatedCase st
  = App.alert (AlertProcessNumberOfOtherCase (CaseData.processoNumero updatedCase)) st.
Proof.
  intros H. apply updateCase_guard in H. unfold App.handleUpdateCase. by rewrite H.
Qed.

(** An accepted addition keeps the trimmed process numbers distinct. *)
Lemma handleAddCase_unique (newCase : CaseFields.t) (st : App.State) :
  uniqueProcessNumbers (App.cases st) ->
  uniqueProcessNumbers (App.cases (App.handleAddCase currentUser nowISO newCase st)).
Proof.
  intros Hu.
  destruct (processNumberTaken_dec (CaseFields.processoNumero newCase) (App.cases st))
    as [Ht | Hn].
  - by rewrite (handleAddCase_rejected newCase st Ht).
  - rewrite (handleAddCase_accepted newCase st Hn). cbn [App.cases].
    unfold uniqueProcessNumbers. cbn [map]. apply NoDup_cons. split; [|done].
    intros Hin. apply elem_of_map in Hin as [c [Heq Hc]].
    apply Hn. exists c. split; [done|]. symmetry. exact Heq.
Qed.

(** What an accepted update does to each stored case. *)
Lemma handleUpdateCase_accepted (updatedCase : CaseData.t) (st : App.State) (i : nat) :
  ~ processNumberOfOtherCase updatedCase (App.cases st) ->
  App.cases (App.handleUpdateCase currentUser nowISO updatedCase st) !! i
  = (fun c =>
       if CaseData.id c =? CaseData.id updatedCase then
         if bool_decide (CaseData.name c = CaseData.name updatedCase) then updatedCase
         else
           {| CaseData.id := CaseData.id updatedCase;
              CaseData.id2 := CaseData.id2 updatedCase;
              CaseData.fields :=
                CaseFields.set_coResponsibleName
                  (Some (JS.orString (CaseData.coResponsibleName c)
                           (CaseData.name updatedCase)))
                  (CaseFields.set_tramitationLog
                     (Some (JS.orEmpty (CaseData.tramitationLog c)
                            ++ [updateEntry currentUser nowISO updatedCase]))
                     (CaseFields.set_email
                        (JS.orString
                           (User.email <$> profileOf (App.users st)
                                             (CaseData.name updatedCase)) [])
                        (CaseData.fields updatedCase))) |}
       else c) <$> (App.cases st !! i).
Proof.
  intros H. rewrite <- updateCase_guard in H. apply not_true_is_false in H.
  unfold App.handleUpdateCase. rewrite H. cbn [App.setCases App.cases].
  rewrite lookup_map. destruct (App.cases st !! i) as [c|]; [|done].
  cbn [fmap option_fmap option_map]. f_equal.
  destruct (CaseData.id c =? CaseData.id updatedCase); [|done].
  cbn [negb]. by destruct (bool_decide (CaseData.name c = CaseData.name updatedCase)).
Qed.

Lemma handleUpdateCase_length (updatedCase : CaseData.t) (st : App.State) :
  length (App.cases (App.handleUpdateCase currentUser nowISO updatedCase st))
  = length (App.cases st).
Proof.
  unfold App.handleUpdateCase. destruct (existsb _ _); [done|].
  cbn [App.setCases App.cases]. apply length_map.
Qed.

(** Replacing the one case of id [k] by a case whose process number no
    other case has keeps the process numbers distinct. *)
Lemma map_keeps_unique (f : CaseData.t -> CaseData.t) (k : Z) (x : jsstring)
    (cs : list CaseData.t) :
  (forall c, CaseData.id c <> k -> f c = c) ->
  (forall c, CaseData.id c = k ->
             CaseData.id (f c) = k /\ JS.trim (CaseData.processoNumero (f c)) = x) ->
  (forall c, c ∈ cs -> CaseData.id c <> k -> JS.trim (CaseData.processoNumero c) <> x) ->
  uniqueIds cs -> uniqueProcessNumbers cs ->
  uniqueIds (map f cs) /\ uniqueProcessNumbers (map f cs).
Proof.
  intros Hother Hsame. unfold uniqueIds, uniqueProcessNumbers.
  induction cs as [|c cs IH]; intros Hfree Hids Hpns; [done|].
  cbn [map] in *. apply NoDup_cons in Hids as [Hid Hids].
  apply NoDup_cons in Hpns as [Hpn Hpns].
  destruct IH as [IHids IHpns]; [intros c0 Hc0; apply Hfree; by right | done | done |].
  assert (Hshape : forall c', c' ∈ cs ->
            (CaseData.id c' <> k /\ f c' = c')
            \/ (CaseData.id c' = k /\ CaseData.id (f c') = k
                /\ JS.trim (CaseData.processoNumero (f c')) = x)).
  { intros c' Hc'. destruct (decide (CaseData.id c' = k)) as [E|E].
    - right. split; [done|]. by apply Hsame.
    - left. split; [done|]. by apply Hother. }
  split; apply NoDup_cons; (split; [|done]).
  - intros Hin. apply elem_of_map in Hin as [c1 [E1 Hc1]].
    apply elem_of_map in Hc1 as [c' [-> Hc']].
    apply Hid. apply elem_of_map.
    destruct (decide (CaseData.id c = k)) as [E|E].
    + destruct (Hsame c E) as [Ek _]. rewrite Ek in E1.
      destruct (Hshape c' Hc') as [[Ne Ef] | [Ec' _]].
      * rewrite Ef in E1. congruence.
      * exists c'. split; [congruence | done].
    + rewrite (Hother c E) in E1.
      destruct (Hshape c' Hc') as [[Ne Ef] | [Ec' [Ef _]]].
      * rewrite Ef in E1. eauto.
      * congruence.
  - intros Hin. apply elem_of_map in Hin as [c1 [E1 Hc1]].
    apply elem_of_map in Hc1 as [c' [-> Hc']].
    destruct (decide (CaseData.id c = k)) as [E|E].
    + destruct (Hsame c E) as [_ Ex]. rewrite Ex in E1.
      destruct (Hshape c' Hc') as [[Ne Ef] | [Ec' _]].
      * rewrite Ef in E1. apply (Hfree c'); [by right | done | done].
      * apply Hid. apply elem_of_map. exists c'. split; [congruence | done].
    + rewrite (Hother c E) in E1.
      destruct (Hshape c' Hc') as [[Ne Ef] | [Ec' [_ Ex]]].
      * rewrite Ef in E1. apply Hpn. apply elem_of_map. eauto.
      * rewrite Ex in E1. apply (Hfree c); [by left | done | done].
Qed.

(** An update keeps the ids and the trimmed process numbers distinct. *)
Lemma handleUpdateCase_unique (updatedCase : CaseData.t) (st : App.State) :
  uniqueIds (App.cases st) ->
  uniqueProcessNumbers (App.cases st) ->
  uniqueIds (App.cases (App.handleUpdateCase currentUser nowISO updatedCase st))
  /\ uniqueProcessNumbers
       (App.cases (App.handleUpdateCase currentUser nowISO updatedCase st)).
Proof.
  intros Hids Hpns. unfold App.handleUpdateCase.
  destruct (existsb _ _) eqn:Hguard; [done|].
  cbn [App.setCases App.cases].
  apply (map_keeps_unique _ (CaseData.id updatedCase)
           (JS.trim (CaseData.processoNumero updatedCase))); [| | |done|done].
  - intros c Hc. apply Z.eqb_neq in Hc. by rewrite Hc.
  - intros c Hc. apply Z.eqb_eq in Hc. rewrite Hc. cbn [negb].
    by destruct (bool_decide (CaseData.name c = CaseData.name updatedCase)).
  - intros c Hc Hid Heq.
    assert (processNumberOfOtherCase updatedCase (App.cases st)) as Hcol
      by (exists c; done).
    apply updateCase_guard in Hcol. congruence.
Qed.
End Store.

(** X29. A draft whose trimmed process number is that of a stored case is
    rejected by [handleAddCase], an update whose trimmed process number is
    that of another stored case is rejected by [handleUpdateCase], and a
    rejection only shows an alert: the cases, the users and the id counter
    stay as they were.  Hence both handlers keep the trimmed process numbers
    of the stored cases pairwise distinct (for updates, in a store whose ids
    are distinct, which they also keep). *)
Theorem X29_guarded_handlers_keep_numbers_unique
    (currentUser : User.t) (nowISO : jsstring) (st : App.State) :
  (forall newCase,
      processNumberTaken (CaseFields.processoNumero newCase) (App.cases st) ->
      App.handleAddCase currentUser nowISO newCase st
      = App.alert (AlertProcessNumberRegistered (CaseFields.processoNumero newCase)) st
      /\ App.cases (App.handleAddCase currentUser nowISO newCase st) = App.cases st)
  /\ (forall updatedCase,
      processNumberOfOtherCase updatedCase (App.cases st) ->
      App.handleUpdateCase currentUser nowISO updatedCase st
      = App.alert (AlertProcessNumberOfOtherCase (CaseData.processoNumero updatedCase)) st
      /\ App.cases (App.handleUpdateCase currentUser nowISO updatedCase st) = App.cases st)
  /\ (uniqueProcessNumbers (App.cases st) ->
      forall newCase,
        uniqueProcessNumbers (App.cases (App.handleAddCase currentUser nowISO newCase st)))
  /\ (uniqueIds (App.cases st) -> uniqueProcessNumbers (App.cases st) ->
      forall updatedCase,
        uniqueIds (App.cases (App.handleUpdateCase currentUser nowISO updatedCase st))
        /\ uniqueProcessNumbers
             (App.cases (App.handleUpdateCase currentUser nowISO updatedCase st))).
Proof.
  repeat split.
  - by apply handleAddCase_rejected.
  - by rewrite handleAddCase_rejected.
  - by apply handleUpdateCase_rejected.
  - by rewrite handleUpdateCase_rejected.
  - intros Hu newCase. by apply handleAddCase_unique.
  - by apply handleUpdateCase_unique.
  - by apply handleUpdateCase_unique.
Qed.

Lemma twoCaseStore_cases :
  App.cases twoCaseStore
  = [ {| CaseData.id := 2; CaseData.id2 := JS.lit "MST00002";
         CaseData.fields :=
           CaseFields.set_tramitationLog
             (Some [ {| TramitationEntry.fromUser := JS.lit "Admin";
                        TramitationEntry.toUser := JS.lit "Bob";
                        TramitationEntry.timestamp := sampleClock;
                        TramitationEntry.deadline := JS.lit "2024-06-01" |} ])
             (CaseFields.set_coResponsibleName (Some (JS.lit "Bob"))
                (draftOf "456-B" "Bob" "2024-06-01")) |};
      storedCase1 ].
Proof. vm_compute. reflexivity. Qed.

Lemma twoCaseStore_taken :
  processNumberTaken (JS.lit " 123-A ") (App.cases twoCaseStore).
Proof.
  exists storedCase1. split; [|vm_compute; reflexivity].
  rewrite twoCaseStore_cases. by right; left.
Qed.

Lemma twoCaseStore_other :
  processNumberOfOtherCase case1ForBobRenumbered (App.cases twoCaseStore).
Proof.
  rewrite twoCaseStore_cases. eexists. split; [by left|].
  split; [discriminate | vm_compute; reflexivity].
Qed.

Lemma twoCaseStore_unique :
  uniqueIds (App.cases twoCaseStore) /\ uniqueProcessNumbers (App.cases twoCaseStore).
Proof.
  rewrite twoCaseStore_cases. unfold uniqueIds, uniqueProcessNumbers.
  split; apply (bool_decide_unpack _); vm_compute; exact I.
Qed.

Lemma X29_witness :
  (processNumberTaken (JS.lit " 123-A ") (App.cases twoCaseStore)
   /\ processNumberOfOtherCase case1ForBobRenumbered (App.cases twoCaseStore)
   /\ uniqueIds (App.cases twoCaseStore)
   /\ uniqueProcessNumbers (App.cases twoCaseStore))
  /\ App.cases (App.handleAddCase admin sampleClock (draftOf " 123-A " "Bob" "") twoCaseStore)
     = App.cases twoCaseStore
  /\ App.cases (App.handleUpdateCase admin sampleClock case1ForBobRenumbered twoCaseStore)
     = App.cases twoCaseStore
  /\ uniqueProcessNumbers
       (App.cases (App.handleAddCase admin sampleClock (draftOf "789-C" "Bob" "") twoCaseStore))
  /\ uniqueProcessNumbers
       (App.cases (App.handleUpdateCase admin sampleClock case1ForBob twoCaseStore)).
Proof.
  pose proof (X29_guarded_handlers_keep_numbers_unique admin sampleClock twoCaseStore)
    as [Hadd [Hupd [Hau Huu]]].
  pose proof twoCaseStore_unique as [Hids Hpns].
  split; [|split; [|split; [|split]]].
  - repeat split; [exact twoCaseStore_taken | exact twoCaseStore_other | done | done].
  - exact (proj2 (Hadd (draftOf " 123-A " "Bob" "") twoCaseStore_taken)).
  - exact (proj2 (Hupd case1ForBobRenumbered twoCaseStore_other)).
  - exact (Hau Hpns (draftOf "789-C" "Bob" "")).
  - exact (proj2 (Huu Hids Hpns case1ForBob)).
Defined.

(** The bulk update has no such guard: it can give two stored cases the
    same process number. *)
Remark bulk_update_can_duplicate_process_numbers :
  uniqueProcessNumbers (App.cases twoCaseStore)
  /\ ~ uniqueProcessNumbers
        (App.cases (App.handleUpdateMultipleCases [case1ForBobRenumbered] twoCaseStore)).
Proof.
  split; [exact (proj2 twoCaseStore_unique)|].
  unfold uniqueProcessNumbers. intros H.
  apply (bool_decide_pack _) in H. vm_compute in H. exact H.
Qed.

(** C3 fails on the code.  In a store with the cases "456-B" (id 2) and
    "123-A" (id 1), giving case 1 the process number "456-B" is refused by
    [handleUpdateCase], which leaves the cases as they were; typing the same
    number into the row of case 1 in multi-edit mode and saving goes through
    [handleUpdateMultipleCases], which has no such test, and the store then
    holds two cases with the process number "456-B". *)
Theorem C3_multi_edit_duplicates_a_process_number :
  let after := MultiEdit.renumberAndSave 1 (JS.lit "456-B") twoCaseStore in
  uniqueProcessNumbers (App.cases twoCaseStore)
  /\ map CaseData.processoNumero (App.cases twoCaseStore) = [JS.lit "456-B"; JS.lit "123-A"]
  /\ App.cases (App.handleUpdateCase admin sampleClock case1Renumbered twoCaseStore)
     = App.cases twoCaseStore
  /\ after = App.handleUpdateMultipleCases [case1Renumbered] twoCaseStore
  /\ map CaseData.id (App.cases after) = [2; 1]
  /\ map CaseData.processoNumero (App.cases after) = [JS.lit "456-B"; JS.lit "456-B"]
  /\ ~ uniqueProcessNumbers (App.cases after).
Proof.
  intros after.
  split; [exact (proj2 twoCaseStore_unique)|].
  split; [vm_compute; reflexivity|].
  split; [vm_compute; reflexivity|].
  split; [vm_compute; reflexivity|].
  split; [vm_compute; reflexivity|].
  split; [vm_compute; reflexivity|].
  unfold uniqueProcessNumbers. intros H.
  apply (bool_decide_pack _) in H. vm_compute in H. exact H.
Qed.


Lemma twoCaseStore_free : ~ processNumberTaken (JS.lit "789-C") (App.cases twoCaseStore).
Proof.
  rewrite <- addCase_guard. vm_compute. discriminate.
Qed.



(** C1, as the code has it.  For an update that is not rejected for its
    process number, and a stored case of the same id: when the assignee
    differs from the stored one, the case becomes the update with the stored
    log plus one entry from the acting user to the new assignee at its end,
    the email of the new assignee's profile (empty when there is none), and
    the stored co-responsible, or the new assignee when none was stored; when
    the assignee is the same, the case becomes the update as given.  Cases of
    other ids are kept. *)
Theorem C1_accepted_update_logs_assignee_change
    (currentUser : User.t) (nowISO : jsstring)
    (updatedCase : CaseData.t) (st : App.State) (i : nat) (c : CaseData.t) :
  ~ processNumberOfOtherCase updatedCase (App.cases st) ->
  App.cases st !! i = Some c ->
  (CaseData.id c = CaseData.id updatedCase ->
   CaseData.name c <> CaseData.name updatedCase ->
   exists c',
     App.cases (App.handleUpdateCase currentUser nowISO updatedCase st) !! i = Some c'
     /\ CaseData.tramitationLog c'
        = Some (JS.orEmpty (CaseData.tramitationLog c)
                ++ [ {| TramitationEntry.fromUser := User.name currentUser;
                        TramitationEntry.toUser := CaseData.name updatedCase;
                        TramitationEntry.timestamp := nowISO;
                        TramitationEntry.deadline :=
                          CaseData.prazoDeterminado updatedCase |} ])
     /\ CaseData.email c'
        = match profileOf (App.users st) (CaseData.name updatedCase) with
          | Some u => User.email u
          | None => []
          end
     /\ CaseData.coResponsibleName c'
        = Some match CaseData.coResponsibleName c with
               | Some (k :: co) => k :: co
               | _ => CaseData.name updatedCase
               end
     /\ CaseData.id c' = CaseData.id updatedCase
     /\ CaseData.id2 c' = CaseData.id2 updatedCase
     /\ besidesAssignment (CaseData.fields c')
        = besidesAssignment (CaseData.fields updatedCase))
  /\ (CaseData.id c = CaseData.id updatedCase ->
      CaseData.name c = CaseData.name updatedCase ->
      App.cases (App.handleUpdateCase currentUser nowISO updatedCase st) !! i
      = Some updatedCase)
  /\ (CaseData.id c <> CaseData.id updatedCase ->
      App.cases (App.handleUpdateCase currentUser nowISO updatedCase st) !! i = Some c)
  /\ length (App.cases (App.handleUpdateCase currentUser nowISO updatedCase st))
     = length (App.cases st).
Proof.
  intros Hok Hi.
  rewrite (handleUpdateCase_accepted currentUser nowISO updatedCase st i Hok), Hi.
  cbn [fmap option_fmap option_map].
  split; [|split; [|split]].
  - intros Hid Hname. apply Z.eqb_eq in Hid. rewrite Hid.
    rewrite bool_decide_eq_false_2 by done.
    eexists. split; [reflexivity|].
    split; [reflexivity|]. split; [|split; [|done]].
    + cbn. destruct (profileOf _ _) as [u|]; [|done].
      cbn. apply orString_Some_empty.
    + cbn. by destruct (CaseData.coResponsibleName c) as [[|k co]|].
  - intros Hid Hname. apply Z.eqb_eq in Hid. rewrite Hid.
    by rewrite bool_decide_eq_true_2.
  - intros Hid. apply Z.eqb_neq in Hid. by rewrite Hid.
  - apply handleUpdateCase_length.
Qed.

Lemma twoCaseStore_case1ForBob_ok :
  ~ processNumberOfOtherCase case1ForBob (App.cases twoCaseStore).
Proof. rewrite <- updateCase_guard. vm_compute. discriminate. Qed.

Lemma C1_witness :
  (~ processNumberOfOtherCase case1ForBob (App.cases twoCaseStore)
   /\ App.cases twoCaseStore !! 1%nat = Some storedCase1
   /\ CaseData.id storedCase1 = CaseData.id case1ForBob
   /\ CaseData.name storedCase1 <> CaseData.name case1ForBob)
  /\ exists c',
      App.cases (App.handleUpdateCase admin sampleClock case1ForBob twoCaseStore) !! 1%nat
      = Some c'
      /\ CaseData.tramitationLog c'
         = Some [ {| TramitationEntry.fromUser := JS.lit "Admin";
                     TramitationEntry.toUser := JS.lit "Alice";
                     TramitationEntry.timestamp := sampleClock;
                     TramitationEntry.deadline := JS.lit "2024-05-20" |};
                  {| TramitationEntry.fromUser := JS.lit "Admin";
                     TramitationEntry.toUser := JS.lit "Bob";
                     TramitationEntry.timestamp := sampleClock;
                     TramitationEntry.deadline := JS.lit "2024-05-20" |} ]
      /\ CaseData.email c' = JS.lit "bob@example.com"
      /\ CaseData.coResponsibleName c' = Some (JS.lit "Alice").
Proof.
  assert (Hi : App.cases twoCaseStore !! 1%nat = Some storedCase1)
    by (rewrite twoCaseStore_cases; reflexivity).
  assert (Hne : CaseData.name storedCase1 <> CaseData.name case1ForBob)
    by (vm_compute; discriminate).
  split; [split; [exact twoCaseStore_case1ForBob_ok | split; [exact Hi | split; [reflexivity | exact Hne]]]|].
  destruct (C1_accepted_update_logs_assignee_change admin sampleClock case1ForBob
              twoCaseStore 1%nat storedCase1 twoCaseStore_case1ForBob_ok Hi)
    as [Hchanged _].
  destruct (Hchanged eq_refl Hne) as [c' [Hc' [Hlog [Hemail [Hco _]]]]].
  exists c'. split; [exact Hc'|]. split; [exact Hlog|]. split; [exact Hemail | exact Hco].
Defined.

(** C1, as stated, fails: an update that hands case 1 from Alice to Bob and
    gives it the process number of case 2 is rejected, so nothing is logged
    although the assignee of the update differs from the stored one. *)
Lemma C1_rejected_update_logs_nothing :
  App.cases twoCaseStore !! 1%nat = Some storedCase1
  /\ CaseData.id storedCase1 = CaseData.id case1ForBobRenumbered
  /\ CaseData.name storedCase1 <> CaseData.name case1ForBobRenumbered
  /\ App.cases (App.handleUpdateCase admin sampleClock case1ForBobRenumbered twoCaseStore)
     = App.cases twoCaseStore
  /\ (CaseData.tramitationLog
        <$> App.cases (App.handleUpdateCase admin sampleClock case1ForBobRenumbered
                         twoCaseStore) !! 1%nat)
     = Some (CaseData.tramitationLog storedCase1).
Proof.
  split; [vm_compute; reflexivity|].
  split; [reflexivity|].
  split; [vm_compute; discriminate|].
  split; vm_compute; reflexivity.
Qed.

(** The [Map] built from the updated cases holds, for each id, the last
    record of the list with that id. *)
Lemma updatedCaseMap_lookup (updatedCases : list CaseData.t)
    (m : gmap Z CaseData.t) (k : Z) :
  fold_left (fun m c => <[CaseData.id c := c]> m) updatedCases m !! k
  = match last (filter (fun u => CaseData.id u = k) updatedCases) with
    | Some u => Some u
    | None => m !! k
    end.
Proof.
  revert m. induction updatedCases as [|c l IH]; intros m; [done|].
  cbn [fold_left]. rewrite IH, filter_cons.
  destruct (decide (CaseData.id c = k)) as [E|E].
  - rewrite last_cons. destruct (last _); [done|].
    rewrite E. apply lookup_insert_eq.
  - destruct (last _); [done|]. by apply lookup_insert_ne.
Qed.

(** C9. [handleUpdateMultipleCases] keeps every stored case whose id is not
    an id of the list, puts in the place of every other stored case a record
    of the list with its id, as supplied (the last one of that id), and
    changes nothing else: no record is added, removed or logged to. *)
Theorem C9_updateMultiple_replaces_listed_ids
    (updatedCases : list CaseData.t) (st : App.State) (i : nat) (c : CaseData.t) :
  App.cases st !! i = Some c ->
  (CaseData.id c ∉ map CaseData.id updatedCases ->
   App.cases (App.handleUpdateMultipleCases updatedCases st) !! i = Some c)
  /\ (CaseData.id c ∈ map CaseData.id updatedCases ->
      exists u,
        last (filter (fun u' => CaseData.id u' = CaseData.id c) updatedCases) = Some u
        /\ u ∈ updatedCases
        /\ CaseData.id u = CaseData.id c
        /\ App.cases (App.handleUpdateMultipleCases updatedCases st) !! i = Some u)
  /\ length (App.cases (App.handleUpdateMultipleCases updatedCases st))
     = length (App.cases st)
  /\ App.users (App.handleUpdateMultipleCases updatedCases st) = App.users st
  /\ App.lastCaseId (App.handleUpdateMultipleCases updatedCases st) = App.lastCaseId st.
Proof.
  intros Hi. unfold App.handleUpdateMultipleCases. cbn [App.setCases App.cases].
  rewrite lookup_map, Hi. cbn [fmap option_fmap option_map].
  rewrite updatedCaseMap_lookup, lookup_empty.
  split; [|split; [|split; [apply length_map | done]]].
  - intros Hnot. destruct (last _) as [u|] eqn:Hlast; [|done].
    apply last_Some_elem_of, list_elem_of_filter in Hlast as [Hid Hu].
    exfalso. apply Hnot. apply elem_of_map. eauto.
  - intros Hin. apply elem_of_map in Hin as [u0 [Hid0 Hu0]].
    destruct (last _) as [u|] eqn:Hlast.
    + exists u. split; [done|].
      apply last_Some_elem_of, list_elem_of_filter in Hlast as [Hid Hu]. done.
    + apply last_None in Hlast.
      assert (u0 ∈ filter (fun u' => CaseData.id u' = CaseData.id c) updatedCases) as Hf
        by (apply list_elem_of_filter; done).
      rewrite Hlast in Hf. by apply not_elem_of_nil in Hf.
Qed.

Lemma C9_witness :
  (App.cases twoCaseStore !! 1%nat = Some storedCase1
   /\ CaseData.id storedCase1 ∈ map CaseData.id [case1Archived; case1ForBob])
  /\ App.cases (App.handleUpdateMultipleCases [case1Archived; case1ForBob] twoCaseStore)
       !! 1%nat = Some case1ForBob
  /\ App.cases (App.handleUpdateMultipleCases [case1Archived; case1ForBob] twoCaseStore)
       !! 0%nat = App.cases twoCaseStore !! 0%nat.
Proof.
  assert (Hi : App.cases twoCaseStore !! 1%nat = Some storedCase1)
    by (rewrite twoCaseStore_cases; reflexivity).
  assert (Hin : CaseData.id storedCase1 ∈ map CaseData.id [case1Archived; case1ForBob])
    by (by left).
  split; [by split|]. split.
  - destruct (C9_updateMultiple_replaces_listed_ids [case1Archived; case1ForBob]
                twoCaseStore 1%nat storedCase1 Hi) as [_ [Hrep _]].
    destruct (Hrep Hin) as [u [Hlast [_ [_ Hu]]]].
    rewrite Hu. rewrite <- Hlast. reflexivity.
  - destruct (App.cases twoCaseStore !! 0%nat) as [c0|] eqn:H0;
      [|rewrite twoCaseStore_cases in H0; discriminate].
    destruct (C9_updateMultiple_replaces_listed_ids [case1Archived; case1ForBob]
                twoCaseStore 0%nat c0 H0) as [Hkeep _].
    apply Hkeep. rewrite twoCaseStore_cases in H0. injection H0 as <-.
    cbn. intros Hin'. apply list_elem_of_In in Hin'. cbn in Hin'.
    destruct Hin' as [|[|[]]]; discriminate.
Defined.

Lemma profileOf_None (us : list User.t) (name : jsstring) :
  (forall u, u ∈ us -> User.name u <> name) -> profileOf us name = None.
Proof.
  unfold profileOf. induction us as [|u us IH]; intros H; [done|].
  cbn [List.find]. rewrite bool_decide_eq_false_2 by (apply H; by left).
  apply IH. intros u' Hu'. apply H. by right.
Qed.

Section Tramitation.
Variable currentUser : User.t.
Variable nowISO : jsstring.
Variable nowMs : Z.
Variables (caseId : Z) (toUserName deadline : jsstring).

(** Without a user of the target name, [processTramitation] maps every
    case to itself and alerts once for each case of the given id. *)
Lemma processTramitation_no_user
    (attachmentFile : option File.t) (attachmentContent : option jsstring)
    (st : App.State) :
  (forall u, u ∈ App.users st -> User.name u <> toUserName) ->
  App.processTramitation currentUser nowISO nowMs caseId toUserName deadline
    attachmentFile attachmentContent st
  = {| App.users := App.users st;
       App.cases := App.cases st;
       App.lastCaseId := App.lastCaseId st;
       App.alerts :=
         App.alerts st
         ++ concat (map (fun c => if CaseData.id c =? caseId
                                  then [AlertUserNotFound toUserName] else [])
                      (App.cases st)) |}.
Proof.
  intros Hno. apply profileOf_None in Hno. unfold profileOf in Hno.
  unfold App.processTramitation.
  assert (Hone : forall c,
             App.tramitateOne currentUser nowISO nowMs (App.users st) caseId
               toUserName deadline attachmentFile attachmentContent c
             = (c, if CaseData.id c =? caseId
                   then [AlertUserNotFound toUserName] else [])).
  { intros c. unfold App.tramitateOne. rewrite Hno. by destruct (_ =? _). }
  f_equal.
  - induction (App.cases st) as [|c cs IH]; [done|].
    cbn [map]. by rewrite Hone, IH.
  - f_equal. f_equal.
    induction (App.cases st) as [|c cs IH]; [done|].
    cbn [map]. by rewrite Hone, IH.
Qed.

Lemma handleTramitateCase_cases_no_user
    (attachmentFile : option File.t) (reader : ReadResult) (st : App.State) :
  (forall u, u ∈ App.users st -> User.name u <> toUserName) ->
  App.cases (App.handleTramitateCase currentUser nowISO nowMs caseId toUserName
               deadline attachmentFile reader st) = App.cases st
  /\ App.users (App.handleTramitateCase currentUser nowISO nowMs caseId toUserName
                  deadline attachmentFile reader st) = App.users st
  /\ App.lastCaseId (App.handleTramitateCase currentUser nowISO nowMs caseId toUserName
                       deadline attachmentFile reader st) = App.lastCaseId st.
Proof.
  intros Hno. unfold App.handleTramitateCase.
  destruct attachmentFile as [file|].
  - destruct (_ <? _); [done|].
    destruct reader as [[[|k content]|]|]; try done.
    by rewrite processTramitation_no_user.
  - by rewrite processTramitation_no_user.
Qed.
End Tramitation.

(** C8. [handleTramitateCase] leaves the cases, the users and the id counter
    as they were in each of its failures: when no user has the target name
    (and then, for a call without attachment on a stored case, the
    user-not-found alert is shown); when the attached file is larger than
    [MAX_FILE_SIZE_BYTES], 2 MB, whatever the reader would report; and when
    the reader reports an error or an empty result. *)
Theorem C8_failed_tramitation_keeps_store
    (currentUser : User.t) (nowISO : jsstring) (nowMs : Z)
    (caseId : Z) (toUserName deadline : jsstring)
    (attachmentFile : option File.t) (reader : ReadResult) (st : App.State) :
  App.MAX_FILE_SIZE_BYTES = 2 * 1024 * 1024
  /\ ((forall u, u ∈ App.users st -> User.name u <> toUserName) ->
      App.cases (App.handleTramitateCase currentUser nowISO nowMs caseId toUserName
                   deadline attachmentFile reader st) = App.cases st
      /\ App.users (App.handleTramitateCase currentUser nowISO nowMs caseId toUserName
                      deadline attachmentFile reader st) = App.users st
      /\ App.lastCaseId (App.handleTramitateCase currentUser nowISO nowMs caseId
                           toUserName deadline attachmentFile reader st)
         = App.lastCaseId st
      /\ (attachmentFile = None ->
          (exists c, c ∈ App.cases st /\ CaseData.id c = caseId) ->
          AlertUserNotFound toUserName
            ∈ App.alerts (App.handleTramitateCase currentUser nowISO nowMs caseId
                            toUserName deadline attachmentFile reader st)))
  /\ (forall file,
        attachmentFile = Some file ->
        App.MAX_FILE_SIZE_BYTES < File.size file ->
        App.handleTramitateCase currentUser nowISO nowMs caseId toUserName
          deadline attachmentFile reader st
        = App.alert AlertFileTooLarge st)
  /\ (forall file,
        attachmentFile = Some file ->
        reader = onerror \/ reader = onload None \/ reader = onload (Some []) ->
        App.cases (App.handleTramitateCase currentUser nowISO nowMs caseId toUserName
                     deadline attachmentFile reader st) = App.cases st
        /\ App.users (App.handleTramitateCase currentUser nowISO nowMs caseId toUserName
                        deadline attachmentFile reader st) = App.users st
        /\ App.lastCaseId (App.handleTramitateCase currentUser nowISO nowMs caseId
                             toUserName deadline attachmentFile reader st)
           = App.lastCaseId st).
Proof.
  split; [reflexivity|]. split; [|split].
  - intros Hno.
    destruct (handleTramitateCase_cases_no_user currentUser nowISO nowMs caseId
                toUserName deadline attachmentFile reader st Hno) as [Hc [Hu Hl]].
    split; [done|]. split; [done|]. split; [done|].
    intros -> [c [Hc' Hid]]. cbn [App.handleTramitateCase].
    rewrite processTramitation_no_user by done. cbn [App.alerts].
    apply elem_of_app. right. apply list_elem_of_In, in_concat.
    exists [AlertUserNotFound toUserName]. split; [|by left].
    apply list_elem_of_In, elem_of_map. exists c. split; [|done].
    apply Z.eqb_eq in Hid. by rewrite Hid.
  - intros file -> Hsize. cbn [App.handleTramitateCase].
    apply Z.ltb_lt in Hsize. by rewrite Hsize.
  - intros file -> Hread. cbn [App.handleTramitateCase].
    destruct (_ <? _); [done|].
    by destruct Hread as [-> | [-> | ->]].
Qed.

Lemma C8_witness :
  ((forall u, u ∈ App.users twoCaseStore -> User.name u <> JS.lit "Carol")
   /\ App.MAX_FILE_SIZE_BYTES < File.size bigFile)
  /\ App.cases (App.handleTramitateCase admin sampleClock 0 1 (JS.lit "Carol")
                  (JS.lit "2024-06-30") None onerror twoCaseStore)
     = App.cases twoCaseStore
  /\ App.handleTramitateCase admin sampleClock 0 1 (JS.lit "Bob")
       (JS.lit "2024-06-30") (Some bigFile) (onload (Some (JS.lit "data:"))) twoCaseStore
     = App.alert AlertFileTooLarge twoCaseStore
  /\ App.cases (App.handleTramitateCase admin sampleClock 0 1 (JS.lit "Bob")
                  (JS.lit "2024-06-30") (Some smallFile) onerror twoCaseStore)
     = App.cases twoCaseStore.
Proof.
  assert (Hno : forall u, u ∈ App.users twoCaseStore -> User.name u <> JS.lit "Carol").
  { intros u Hu. apply list_elem_of_In in Hu. cbn in Hu.
    destruct Hu as [<-|[<-|[<-|[]]]]; discriminate. }
  assert (Hbig : App.MAX_FILE_SIZE_BYTES < File.size bigFile) by (vm_compute; reflexivity).
  split; [by split|]. split; [|split].
  - exact (proj1 (proj1 (proj2 (C8_failed_tramitation_keeps_store admin sampleClock 0 1
             (JS.lit "Carol") (JS.lit "2024-06-30") None onerror twoCaseStore)) Hno)).
  - exact (proj1 (proj2 (proj2 (C8_failed_tramitation_keeps_store admin sampleClock 0 1
             (JS.lit "Bob") (JS.lit "2024-06-30") (Some bigFile)
             (onload (Some (JS.lit "data:"))) twoCaseStore))) bigFile eq_refl Hbig).
  - exact (proj1 (proj2 (proj2 (proj2 (C8_failed_tramitation_keeps_store admin sampleClock
             0 1 (JS.lit "Bob") (JS.lit "2024-06-30") (Some smallFile) onerror
             twoCaseStore))) smallFile eq_refl (or_introl eq_refl))).
Defined.

Section Reconciler.
Variable P : Platform.
Variable nowISO : jsstring.

Lemma existing_elem_of (x : jsstring) (cs : list CaseData.t) :
  x ∈ (list_to_set (map (fun c => JS.trim (CaseData.processoNumero c)) cs) : gset jsstring)
  <-> exists c, c ∈ cs /\ JS.trim (CaseData.processoNumero c) = x.
Proof.
  rewrite elem_of_list_to_set, elem_of_map. split.
  - intros [c [-> Hc]]. eauto.
  - intros [c [Hc <-]]. eauto.
Qed.

(** The first row of a batch whose process number is new is accepted. *)
Lemma importStep_accepts (existing : gset jsstring) (us : list User.t)
    (acc : App.ImportLoop) (row : CaseFields.t) (k : N) (pn : jsstring) :
  JS.trim (CaseFields.processoNumero row) = k :: pn ->
  k :: pn ∉ existing ->
  k :: pn ∉ App.importedProcessNumbersInFile acc ->
  exists accepted,
    App.importStep P nowISO existing us acc row
    = {| App.importedProcessNumbersInFile :=
           {[ k :: pn ]} ∪ App.importedProcessNumbersInFile acc;
         App.successfulImports := App.successfulImports acc ++ [accepted];
         App.duplicatesInFile := App.duplicatesInFile acc;
         App.duplicatesInSystem := App.duplicatesInSystem acc;
         App.nextState := snd (App.getNextCaseId (App.nextState acc)) |}
    /\ CaseData.id accepted = JSNumber.increment (App.lastCaseId (App.nextState acc))
    /\ CaseData.id2 accepted
       = JS.lit "MST" ++ JS.padStart0 5 (JS.String_ (CaseData.id accepted))
    /\ CaseData.processoNumero accepted = CaseFields.processoNumero row
    /\ CaseData.tramitationLog accepted
       = Some [ {| TramitationEntry.fromUser := App.sistemaImportacao;
                   TramitationEntry.toUser := CaseFields.name row;
                   TramitationEntry.timestamp := nowISO;
                   TramitationEntry.deadline := CaseFields.prazoDeterminado row |} ].
Proof.
  intros Htrim Hex Hfile. unfold App.importStep. rewrite Htrim.
  rewrite (bool_decide_eq_false_2 _ Hex), (bool_decide_eq_false_2 _ Hfile).
  rewrite orString_Some_empty.
  cbn [App.getNextCaseId]. eexists. split; [reflexivity|].
  repeat split.
Qed.

Lemma importStep_in_system (existing : gset jsstring) (us : list User.t)
    (acc : App.ImportLoop) (row : CaseFields.t) (k : N) (pn : jsstring) :
  JS.trim (CaseFields.processoNumero row) = k :: pn ->
  k :: pn ∈ existing ->
  App.importStep P nowISO existing us acc row
  = {| App.importedProcessNumbersInFile := App.importedProcessNumbersInFile acc;
       App.successfulImports := App.successfulImports acc;
       App.duplicatesInFile := App.duplicatesInFile acc;
       App.duplicatesInSystem := App.duplicatesInSystem acc ++ [k :: pn];
       App.nextState := App.nextState acc |}.
Proof.
  intros Htrim Hex. unfold App.importStep. rewrite Htrim.
  by rewrite (bool_decide_eq_true_2 _ Hex).
Qed.

Lemma importStep_in_file (existing : gset jsstring) (us : list User.t)
    (acc : App.ImportLoop) (row : CaseFields.t) (k : N) (pn : jsstring) :
  JS.trim (CaseFields.processoNumero row) = k :: pn ->
  k :: pn ∉ existing ->
  k :: pn ∈ App.importedProcessNumbersInFile acc ->
  App.importStep P nowISO existing us acc row
  = {| App.importedProcessNumbersInFile := App.importedProcessNumbersInFile acc;
       App.successfulImports := App.successfulImports acc;
       App.duplicatesInFile := App.duplicatesInFile acc ++ [k :: pn];
       App.duplicatesInSystem := App.duplicatesInSystem acc;
       App.nextState := App.nextState acc |}.
Proof.
  intros Htrim Hex Hfile. unfold App.importStep. rewrite Htrim.
  by rewrite (bool_decide_eq_false_2 _ Hex), (bool_decide_eq_true_2 _ Hfile).
Qed.
End Reconciler.

(** C2, as the code has it.  For a batch of three rows with process numbers
    "P1", "P1", "P2" and a store that has "P2" and not "P1": the first row
    is accepted, with the next id of the counter ([++lastCaseId.current]),
    its display id and a one-entry log from
    the import process to the row's assignee; the second "P1" is reported as
    duplicated in the file and "P2" as already in the system; the accepted
    case is appended to the stored cases. *)
Theorem C2_import_accepts_first_occurrence
    (P : Platform) (nowISO : jsstring) (r1 r2 r3 : CaseFields.t) (st : App.State) :
  CaseFields.processoNumero r1 = JS.lit "P1" ->
  CaseFields.processoNumero r2 = JS.lit "P1" ->
  CaseFields.processoNumero r3 = JS.lit "P2" ->
  processNumberTaken (JS.lit "P2") (App.cases st) ->
  ~ processNumberTaken (JS.lit "P1") (App.cases st) ->
  exists accepted,
    App.successfulImports (App.importLoop P nowISO [r1; r2; r3] st) = [accepted]
    /\ App.duplicatesInFile (App.importLoop P nowISO [r1; r2; r3] st) = [JS.lit "P1"]
    /\ App.duplicatesInSystem (App.importLoop P nowISO [r1; r2; r3] st) = [JS.lit "P2"]
    /\ CaseData.id accepted = JSNumber.increment (App.lastCaseId st)
    /\ CaseData.id2 accepted
       = JS.lit "MST" ++ JS.padStart0 5 (JS.String_ (CaseData.id accepted))
    /\ CaseData.processoNumero accepted = JS.lit "P1"
    /\ CaseData.tramitationLog accepted
       = Some [ {| TramitationEntry.fromUser := App.sistemaImportacao;
                   TramitationEntry.toUser := CaseFields.name r1;
                   TramitationEntry.timestamp := nowISO;
                   TramitationEntry.deadline := CaseFields.prazoDeterminado r1 |} ]
    /\ App.cases (App.handleImportCases P nowISO [r1; r2; r3] st)
       = App.cases st ++ [accepted]
    /\ App.lastCaseId (App.handleImportCases P nowISO [r1; r2; r3] st)
       = JSNumber.increment (App.lastCaseId st).
Proof.
  intros H1 H2 H3 Hp2 Hp1.
  assert (T1 : JS.trim (CaseFields.processoNumero r1) = JS.lit "P1") by (by rewrite H1).
  assert (T2 : JS.trim (CaseFields.processoNumero r2) = JS.lit "P1") by (by rewrite H2).
  assert (T3 : JS.trim (CaseFields.processoNumero r3) = JS.lit "P2") by (by rewrite H3).
  set (existing := (list_to_set (map (fun c => JS.trim (CaseData.processoNumero c))
                                   (App.cases st)) : gset jsstring)).
  assert (E2 : JS.lit "P2" ∈ existing)
    by (unfold existing; apply existing_elem_of; exact Hp2).
  assert (E1 : JS.lit "P1" ∉ existing).
  { unfold existing. intros H. apply existing_elem_of in H. exact (Hp1 H). }
  unfold App.handleImportCases, App.importLoop. fold existing. cbn [fold_left].
  destruct (importStep_accepts P nowISO existing (App.users st)
              {| App.importedProcessNumbersInFile := ∅;
                 App.successfulImports := [];
                 App.duplicatesInFile := [];
                 App.duplicatesInSystem := [];
                 App.nextState := st |} r1 _ _ T1 E1 (not_elem_of_empty _))
    as [accepted [Hstep [Hid [Hid2 [Hpn Hlog]]]]].
  rewrite Hstep.
  rewrite (importStep_in_file P nowISO existing (App.users st) _ r2 _ _ T2 E1)
    by (cbn; set_solver).
  rewrite (importStep_in_system P nowISO existing (App.users st) _ r3 _ _ T3 E2).
  exists accepted. cbn in Hid. rewrite Hpn, H1.
  repeat split; try done.
Qed.

Lemma storeWithP2_taken : processNumberTaken (JS.lit "P2") (App.cases storeWithP2).
Proof. apply addCase_guard. vm_compute. reflexivity. Qed.

Lemma storeWithP2_free : ~ processNumberTaken (JS.lit "P1") (App.cases storeWithP2).
Proof. rewrite <- addCase_guard. vm_compute. discriminate. Qed.

Lemma C2_witness :
  (processNumberTaken (JS.lit "P2") (App.cases storeWithP2)
   /\ ~ processNumberTaken (JS.lit "P1") (App.cases storeWithP2))
  /\ exists accepted,
      App.successfulImports
        (App.importLoop platformUTC sampleClock
           [draftOf "P1" "Alice" ""; draftOf "P1" "Bob" ""; draftOf "P2" "Bob" ""]
           storeWithP2) = [accepted]
      /\ CaseData.id accepted = 2
      /\ CaseData.processoNumero accepted = JS.lit "P1".
Proof.
  split; [split; [exact storeWithP2_taken | exact storeWithP2_free]|].
  destruct (C2_import_accepts_first_occurrence platformUTC sampleClock
              (draftOf "P1" "Alice" "") (draftOf "P1" "Bob" "") (draftOf "P2" "Bob" "")
              storeWithP2 eq_refl eq_refl eq_refl storeWithP2_taken storeWithP2_free)
    as [accepted [Hacc [_ [_ [Hid [_ [Hpn _]]]]]]].
  exists accepted. split; [exact Hacc|]. split; [exact Hid | exact Hpn].
Defined.

(** C2, as stated, fails: importing "P1", "P1", "P2" into a store that has
    "P2" accepts the first "P1"; the list of accepted cases is not empty. *)
Lemma C2_accepted_is_not_empty :
  let r := App.importLoop platformUTC sampleClock
             [draftOf "P1" "Alice" ""; draftOf "P1" "Bob" ""; draftOf "P2" "Bob" ""]
             storeWithP2 in
  map CaseData.processoNumero (App.cases storeWithP2) = [JS.lit "P2"]
  /\ App.successfulImports r <> []
  /\ map CaseData.processoNumero (App.successfulImports r) = [JS.lit "P1"]
  /\ map CaseData.id2 (App.successfulImports r) = [JS.lit "MST00002"]
  /\ App.duplicatesInFile r = [JS.lit "P1"]
  /\ App.duplicatesInSystem r = [JS.lit "P2"].
Proof. vm_compute. repeat split. discriminate. Qed.

(* ===================================================================== *)
(** ** Tramitation, attachments and deletion *)
(* ===================================================================== *)

Section Handover.
Variable currentUser : User.t.
Variable nowISO : jsstring.
Variable nowMs : Z.
Variables (caseId : Z) (toUserName deadline : jsstring).

(** What [processTramitation] does at each position once the target user is
    found. *)
Lemma processTramitation_found
    (attachmentFile : option File.t) (attachmentContent : option jsstring)
    (st : App.State) (toUser : User.t) :
  profileOf (App.users st) toUserName = Some toUser ->
  App.processTramitation currentUser nowISO nowMs caseId toUserName deadline
    attachmentFile attachmentContent st
  = {| App.users := App.users st;
       App.cases :=
         map (fun c => fst (App.tramitateOne currentUser nowISO nowMs (App.users st)
                              caseId toUserName deadline attachmentFile
                              attachmentContent c)) (App.cases st);
       App.lastCaseId := App.lastCaseId st;
       App.alerts := App.alerts st |}.
Proof.
  intros Hfound. unfold profileOf in Hfound. unfold App.processTramitation.
  rewrite map_map. f_equal.
  rewrite <- (app_nil_r (App.alerts st)) at 2. f_equal.
  induction (App.cases st) as [|c cs IH]; [done|].
  cbn [map concat]. rewrite IH, app_nil_r.
  unfold App.tramitateOne. rewrite Hfound. by destruct (_ =? _).
Qed.

(** Every path of [handleTramitateCase] maps each case to a case of the same
    id, display id and process number. *)
Lemma tramitateOne_keeps_identity
    (us : list User.t) (attachmentFile : option File.t)
    (attachmentContent : option jsstring) (c : CaseData.t) :
  let c' := fst (App.tramitateOne currentUser nowISO nowMs us caseId toUserName
                   deadline attachmentFile attachmentContent c) in
  CaseData.id c' = CaseData.id c /\ CaseData.id2 c' = CaseData.id2 c
  /\ CaseData.processoNumero c' = CaseData.processoNumero c
  /\ exists added, JS.orEmpty (CaseData.tramitationLog c')
                   = JS.orEmpty (CaseData.tramitationLog c) ++ added.
Proof.
  unfold App.tramitateOne.
  destruct (_ =? _); [|cbn; repeat split; exists []; by rewrite app_nil_r].
  destruct (List.find _ us) as [toUser|];
    [|cbn; repeat split; exists []; by rewrite app_nil_r].
  destruct attachmentFile as [file|], attachmentContent as [[|k content]|];
    cbn; repeat split; eexists; reflexivity.
Qed.
End Handover.

Lemma handleTramitateCase_cases
    (currentUser : User.t) (nowISO : jsstring) (nowMs : Z)
    (caseId : Z) (toUserName deadline : jsstring)
    (attachmentFile : option File.t) (reader : ReadResult) (st : App.State) :
  App.cases (App.handleTramitateCase currentUser nowISO nowMs caseId toUserName
               deadline attachmentFile reader st) = App.cases st
  \/ exists content,
      App.cases (App.handleTramitateCase currentUser nowISO nowMs caseId toUserName
                   deadline attachmentFile reader st)
      = map (fun c => fst (App.tramitateOne currentUser nowISO nowMs (App.users st)
                             caseId toUserName deadline attachmentFile content c))
          (App.cases st).
Proof.
  unfold App.handleTramitateCase.
  destruct attachmentFile as [file|].
  - destruct (_ <? _); [by left|].
    destruct reader as [[[|k content]|]|]; try (by left).
    right. exists (Some (k :: content)). unfold App.processTramitation.
    cbn [App.cases]. by rewrite map_map.
  - right. exists None. unfold App.processTramitation.
    cbn [App.cases]. by rewrite map_map.
Qed.

(** X1. A tramitation to an existing user, without attachment, turns every
    stored case of the given id into the same case with one entry more at
    the end of its log (from the acting user to the target, with the
    deadline passed), the target's name and email as assignee, and the
    stored co-responsible, or the target when none was stored; it does so
    even when the target already is the assignee.  Attachments and all other
    fields are kept, cases of other ids are kept, and no alert is shown. *)
Theorem X1_tramitation_hands_case_over
    (currentUser : User.t) (nowISO : jsstring) (nowMs : Z)
    (caseId : Z) (toUserName deadline : jsstring) (reader : ReadResult)
    (st : App.State) (toUser : User.t) (i : nat) (c : CaseData.t) :
  profileOf (App.users st) toUserName = Some toUser ->
  App.cases st !! i = Some c ->
  (CaseData.id c = caseId ->
   exists c',
     App.cases (App.handleTramitateCase currentUser nowISO nowMs caseId toUserName
                  deadline None reader st) !! i = Some c'
     /\ CaseData.tramitationLog c'
        = Some (JS.orEmpty (CaseData.tramitationLog c)
                ++ [ {| TramitationEntry.fromUser := User.name currentUser;
                        TramitationEntry.toUser := toUserName;
                        TramitationEntry.timestamp := nowISO;
                        TramitationEntry.deadline := deadline |} ])
     /\ CaseData.name c' = toUserName
     /\ CaseData.email c' = User.email toUser
     /\ CaseData.coResponsibleName c'
        = Some match CaseData.coResponsibleName c with
               | Some (k :: co) => k :: co
               | _ => toUserName
               end
     /\ CaseData.id c' = CaseData.id c
     /\ CaseData.id2 c' = CaseData.id2 c
     /\ CaseFields.set_name []
          (CaseFields.set_email []
             (CaseFields.set_tramitationLog None
                (CaseFields.set_coResponsibleName None (CaseData.fields c'))))
        = CaseFields.set_name []
            (CaseFields.set_email []
               (CaseFields.set_tramitationLog None
                  (CaseFields.set_coResponsibleName None (CaseData.fields c)))))
  /\ (CaseData.id c <> caseId ->
      App.cases (App.handleTramitateCase currentUser nowISO nowMs caseId toUserName
                   deadline None reader st) !! i = Some c)
  /\ App.alerts (App.handleTramitateCase currentUser nowISO nowMs caseId toUserName
                   deadline None reader st) = App.alerts st
  /\ length (App.cases (App.handleTramitateCase currentUser nowISO nowMs caseId
                          toUserName deadline None reader st))
     = length (App.cases st).
Proof.
  intros Hfound Hi. cbn [App.handleTramitateCase].
  rewrite (processTramitation_found currentUser nowISO nowMs caseId toUserName
             deadline None None st toUser Hfound).
  cbn [App.cases App.alerts]. rewrite lookup_map, Hi, length_map.
  cbn [fmap option_fmap option_map].
  assert (Hname : User.name toUser = toUserName).
  { unfold profileOf in Hfound. apply find_some in Hfound as [_ Hn].
    by apply bool_decide_eq_true in Hn. }
  unfold App.tramitateOne. unfold profileOf in Hfound. rewrite Hfound.
  split; [|split; [|done]].
  - intros Hid. apply Z.eqb_eq in Hid. rewrite Hid. cbn [fst].
    eexists. split; [reflexivity|].
    split; [reflexivity|]. split; [exact Hname|]. split; [reflexivity|].
    split; [|done].
    cbn. rewrite Hname. by destruct (CaseData.coResponsibleName c) as [[|k co]|].
  - intros Hid. apply Z.eqb_neq in Hid. by rewrite Hid.
Qed.

Lemma X1_witness :
  (profileOf (App.users twoCaseStore) (JS.lit "Bob") = Some bob
   /\ App.cases twoCaseStore !! 1%nat = Some storedCase1
   /\ CaseData.id storedCase1 = 1)
  /\ exists c',
      App.cases (App.handleTramitateCase admin sampleClock 0 1 (JS.lit "Bob")
                   (JS.lit "2024-06-30") None onerror twoCaseStore) !! 1%nat = Some c'
      /\ CaseData.name c' = JS.lit "Bob"
      /\ CaseData.email c' = JS.lit "bob@example.com"
      /\ CaseData.coResponsibleName c' = Some (JS.lit "Alice")
      /\ length (JS.orEmpty (CaseData.tramitationLog c')) = 2%nat.
Proof.
  assert (Hi : App.cases twoCaseStore !! 1%nat = Some storedCase1)
    by (rewrite twoCaseStore_cases; reflexivity).
  assert (Hp : profileOf (App.users twoCaseStore) (JS.lit "Bob") = Some bob)
    by (vm_compute; reflexivity).
  split; [split; [exact Hp | split; [exact Hi | reflexivity]]|].
  destruct (X1_tramitation_hands_case_over admin sampleClock 0 1 (JS.lit "Bob")
              (JS.lit "2024-06-30") onerror twoCaseStore bob 1%nat storedCase1 Hp Hi)
    as [Hsame _].
  destruct (Hsame eq_refl) as [c' [Hc' [Hlog [Hname [Hemail [Hco _]]]]]].
  exists c'. split; [exact Hc'|]. split; [exact Hname|]. split; [exact Hemail|].
  split; [exact Hco|]. rewrite Hlog. reflexivity.
Defined.

(** X2. A tramitation to an existing user with an attached file of at most
    [MAX_FILE_SIZE_BYTES] whose read gives a non-empty result appends, to
    every stored case of the given id, exactly one attachment after the ones
    it had: the file's name, type and size, the content read, the acting
    user as uploader, and an id made of the clock reading and the file name.
    The log gets its one entry as without attachment. *)
Theorem X2_tramitation_stores_attachment
    (currentUser : User.t) (nowISO : jsstring) (nowMs : Z)
    (caseId : Z) (toUserName deadline : jsstring)
    (file : File.t) (k : N) (content : jsstring)
    (st : App.State) (toUser : User.t) (i : nat) (c : CaseData.t) :
  profileOf (App.users st) toUserName = Some toUser ->
  File.size file <= App.MAX_FILE_SIZE_BYTES ->
  App.cases st !! i = Some c ->
  CaseData.id c = caseId ->
  exists c',
    App.cases (App.handleTramitateCase currentUser nowISO nowMs caseId toUserName
                 deadline (Some file) (onload (Some (k :: content))) st) !! i = Some c'
    /\ CaseData.attachments c'
       = Some (JS.orEmpty (CaseData.attachments c)
               ++ [ {| Attachment.id := JS.String_ nowMs ++ JS.lit "-" ++ File.name file;
                       Attachment.fileName := File.name file;
                       Attachment.fileType := File.type file;
                       Attachment.fileSize := File.size file;
                       Attachment.content := k :: content;
                       Attachment.uploadedBy := User.name currentUser;
                       Attachment.timestamp := nowISO |} ])
    /\ CaseData.tramitationLog c'
       = Some (JS.orEmpty (CaseData.tramitationLog c)
               ++ [ {| TramitationEntry.fromUser := User.name currentUser;
                       TramitationEntry.toUser := toUserName;
                       TramitationEntry.timestamp := nowISO;
                       TramitationEntry.deadline := deadline |} ])
    /\ CaseData.name c' = toUserName
    /\ CaseData.email c' = User.email toUser.
Proof.
  intros Hfound Hsize Hi Hid. cbn [App.handleTramitateCase].
  apply Z.ltb_ge in Hsize. rewrite Hsize.
  rewrite (processTramitation_found currentUser nowISO nowMs caseId toUserName
             deadline (Some file) (Some (k :: content)) st toUser Hfound).
  cbn [App.cases]. rewrite lookup_map, Hi. cbn [fmap option_fmap option_map].
  assert (Hname : User.name toUser = toUserName).
  { unfold profileOf in Hfound. apply find_some in Hfound as [_ Hn].
    by apply bool_decide_eq_true in Hn. }
  unfold App.tramitateOne. unfold profileOf in Hfound. rewrite Hfound.
  apply Z.eqb_eq in Hid. rewrite Hid. cbn [fst].
  eexists. split; [reflexivity|]. split; [reflexivity|]. split; [reflexivity|].
  split; [exact Hname | reflexivity].
Qed.

Lemma X2_witness :
  (profileOf (App.users twoCaseStore) (JS.lit "Bob") = Some bob
   /\ File.size smallFile <= App.MAX_FILE_SIZE_BYTES
   /\ App.cases twoCaseStore !! 1%nat = Some storedCase1
   /\ CaseData.id storedCase1 = 1)
  /\ exists c',
      App.cases (App.handleTramitateCase admin sampleClock 1715353200000 1
                   (JS.lit "Bob") (JS.lit "2024-06-30") (Some smallFile)
                   (onload (Some (JS.lit "data:text/plain;base64,b2k="))) twoCaseStore)
        !! 1%nat = Some c'
      /\ (Attachment.id <$> JS.orEmpty (CaseData.attachments c'))
         = [JS.lit "1715353200000-nota.txt"].
Proof.
  assert (Hi : App.cases twoCaseStore !! 1%nat = Some storedCase1)
    by (rewrite twoCaseStore_cases; reflexivity).
  assert (Hp : profileOf (App.users twoCaseStore) (JS.lit "Bob") = Some bob)
    by (vm_compute; reflexivity).
  assert (Hs : File.size smallFile <= App.MAX_FILE_SIZE_BYTES)
    by (vm_compute; discriminate).
  split; [split; [exact Hp | split; [exact Hs | split; [exact Hi | reflexivity]]]|].
  destruct (X2_tramitation_stores_attachment admin sampleClock 1715353200000 1
              (JS.lit "Bob") (JS.lit "2024-06-30") smallFile
              100%N (JS.lit "ata:text/plain;base64,b2k=") twoCaseStore bob 1%nat
              storedCase1 Hp Hs Hi eq_refl)
    as [c' [Hc' [Hatt _]]].
  exists c'. split; [exact Hc'|]. rewrite Hatt. vm_compute. reflexivity.
Defined.





(** *** Lists filtered by a boolean test *)

Lemma elem_of_filterb {A} (f : A -> bool) (l : list A) (x : A) :
  x ∈ List.filter f l <-> x ∈ l /\ f x = true.
Proof. rewrite !list_elem_of_In. apply filter_In. Qed.

Lemma map_filterb_sublist {A B} (g : A -> B) (f : A -> bool) (l : list A) :
  map g (List.filter f l) `sublist_of` map g l.
Proof.
  induction l as [|x l IH]; [constructor|].
  cbn [List.filter map]. destruct (f x); cbn [map]; by constructor.
Qed.

Lemma filterb_sublist {A} (f : A -> bool) (l : list A) :
  List.filter f l `sublist_of` l.
Proof.
  induction l as [|x l IH]; [constructor|].
  cbn [List.filter]. destruct (f x); by constructor.
Qed.

Lemma filterb_filterb {A} (f g : A -> bool) (l : list A) :
  List.filter g (List.filter f l) = List.filter (fun x => f x && g x) l.
Proof.
  induction l as [|x l IH]; [done|].
  cbn [List.filter]. destruct (f x); cbn [List.filter andb]; [|done].
  by rewrite IH.
Qed.

Lemma filterb_all {A} (f : A -> bool) (l : list A) :
  (forall x, x ∈ l -> f x = true) -> List.filter f l = l.
Proof.
  induction l as [|x l IH]; intros H; [done|].
  cbn [List.filter]. rewrite (H x) by (by left). f_equal. apply IH.
  intros y Hy. apply H. by right.
Qed.

Lemma filterb_partition_length {A} (f : A -> bool) (l : list A) :
  (length (List.filter f l) + length (List.filter (fun x => negb (f x)) l)
   = length l)%nat.
Proof.
  induction l as [|x l IH]; [done|].
  cbn [List.filter]. destruct (f x); cbn [negb length]; lia.
Qed.

(** X5. [handleDeleteCase] removes the stored cases of the given id and
    nothing else: the other cases stay, in their order, with all their
    fields; the id counter and the users are kept; deleting an id that is
    not stored, or deleting twice, changes nothing; distinct ids and
    distinct process numbers stay distinct. *)
Theorem X5_deleteCase_removes_only_that_id (caseId : Z) (st : App.State) :
  (forall c, c ∈ App.cases (AppCases.handleDeleteCase caseId st)
             <-> c ∈ App.cases st /\ CaseData.id c <> caseId)
  /\ App.cases (AppCases.handleDeleteCase caseId st) `sublist_of` App.cases st
  /\ App.lastCaseId (AppCases.handleDeleteCase caseId st) = App.lastCaseId st
  /\ App.users (AppCases.handleDeleteCase caseId st) = App.users st
  /\ (caseId ∉ map CaseData.id (App.cases st) ->
      AppCases.handleDeleteCase caseId st = st)
  /\ AppCases.handleDeleteCase caseId (AppCases.handleDeleteCase caseId st)
     = AppCases.handleDeleteCase caseId st
  /\ (uniqueIds (App.cases st) ->
      uniqueIds (App.cases (AppCases.handleDeleteCase caseId st)))
  /\ (uniqueProcessNumbers (App.cases st) ->
      uniqueProcessNumbers (App.cases (AppCases.handleDeleteCase caseId st))).
Proof.
  unfold AppCases.handleDeleteCase, App.setCases. cbn [App.cases App.lastCaseId App.users].
  split; [|split; [|split; [done|split; [done|split; [|split; [|split]]]]]].
  - intros c. rewrite elem_of_filterb, negb_true_iff, Z.eqb_neq. tauto.
  - apply filterb_sublist.
  - intros Hnot. destruct st as [us cs last al]. cbn in *. f_equal.
    apply filterb_all. intros c Hc. apply negb_true_iff, Z.eqb_neq. intros Hid.
    apply Hnot, elem_of_map. eauto.
  - f_equal. rewrite filterb_filterb. apply filter_ext. intros c. by destruct (negb _).
  - unfold uniqueIds. intros H.
    exact (sublist_NoDup _ _ H (map_filterb_sublist _ _ _)).
  - unfold uniqueProcessNumbers. intros H.
    exact (sublist_NoDup _ _ H (map_filterb_sublist _ _ _)).
Qed.

Lemma X5_witness :
  ((3 ∉ map CaseData.id (App.cases twoCaseStore))
   /\ uniqueIds (App.cases twoCaseStore)
   /\ uniqueProcessNumbers (App.cases twoCaseStore))
  /\ AppCases.handleDeleteCase 3 twoCaseStore = twoCaseStore
  /\ uniqueIds (App.cases (AppCases.handleDeleteCase 2 twoCaseStore))
  /\ uniqueProcessNumbers (App.cases (AppCases.handleDeleteCase 2 twoCaseStore)).
Proof.
  pose proof twoCaseStore_unique as [Hids Hpns].
  assert (Hnot : 3 ∉ map CaseData.id (App.cases twoCaseStore)).
  { rewrite twoCaseStore_cases. intros H. apply list_elem_of_In in H. cbn in H.
    destruct H as [|[|[]]]; discriminate. }
  split; [by repeat split|].
  destruct (X5_deleteCase_removes_only_that_id 3 twoCaseStore)
    as [_ [_ [_ [_ [Habsent _]]]]].
  destruct (X5_deleteCase_removes_only_that_id 2 twoCaseStore)
    as [_ [_ [_ [_ [_ [_ [Hi Hp]]]]]]].
  split; [exact (Habsent Hnot)|]. split; [exact (Hi Hids) | exact (Hp Hpns)].
Defined.

(** X6. [handleDeleteMultipleCases] is the deletion of the listed ids one
    after the other, in any order: it keeps exactly the stored cases whose
    id is not in the list, and with an empty list it keeps them all. *)
Theorem X6_deleteMultiple_is_repeated_delete (caseIds : list Z) (st : App.State) :
  AppCases.handleDeleteMultipleCases caseIds st
  = fold_left (fun s i => AppCases.handleDeleteCase i s) caseIds st
  /\ AppCases.handleDeleteMultipleCases caseIds st
     = fold_right AppCases.handleDeleteCase st caseIds
  /\ (forall c, c ∈ App.cases (AppCases.handleDeleteMultipleCases caseIds st)
                <-> c ∈ App.cases st /\ CaseData.id c ∉ caseIds)
  /\ AppCases.handleDeleteMultipleCases [] st = st.
Proof.
  assert (Hnil : forall s, AppCases.handleDeleteMultipleCases [] s = s).
  { intros [us cs last al]. unfold AppCases.handleDeleteMultipleCases, App.setCases.
    cbn. f_equal. by apply filterb_all. }
  assert (Hcons : forall i ids s,
            AppCases.handleDeleteMultipleCases (i :: ids) s
            = AppCases.handleDeleteMultipleCases ids (AppCases.handleDeleteCase i s)).
  { intros i ids s. unfold AppCases.handleDeleteMultipleCases, AppCases.handleDeleteCase,
      App.setCases. cbn. f_equal. rewrite filterb_filterb. apply filter_ext.
    intros c. rewrite (Z.eqb_sym (CaseData.id c) i). by rewrite negb_orb. }
  assert (Hsnoc : forall i ids s,
            AppCases.handleDeleteMultipleCases (i :: ids) s
            = AppCases.handleDeleteCase i (AppCases.handleDeleteMultipleCases ids s)).
  { intros i ids s. unfold AppCases.handleDeleteMultipleCases, AppCases.handleDeleteCase,
      App.setCases. cbn. f_equal. rewrite filterb_filterb. apply filter_ext.
    intros c. rewrite (Z.eqb_sym (CaseData.id c) i), negb_orb. apply andb_comm. }
  split; [|split; [|split; [|apply Hnil]]].
  - revert st. induction caseIds as [|i ids IH]; intros st; [apply Hnil|].
    rewrite Hcons. cbn [fold_left]. apply IH.
  - induction caseIds as [|i ids IH]; [apply Hnil|].
    rewrite Hsnoc. cbn [fold_right]. by rewrite IH.
  - intros c. unfold AppCases.handleDeleteMultipleCases, App.setCases. cbn [App.cases].
    rewrite elem_of_filterb, negb_true_iff.
    split; intros [Hc Hid]; (split; [done|]).
    + intros Hin. apply not_true_iff_false in Hid. apply Hid, existsb_exists.
      exists (CaseData.id c). split; [by apply list_elem_of_In | apply Z.eqb_refl].
    + apply not_true_iff_false. intros Hex. apply existsb_exists in Hex as [i [Hi He]].
      apply Z.eqb_eq in He. subst i. by apply Hid, list_elem_of_In.
Qed.

Lemma fold_max_attained (l : list Z) (a : Z) :
  fold_left Z.max l a = a \/ fold_left Z.max l a ∈ l.
Proof.
  revert a. induction l as [|b l IH]; intros a; [by left|].
  cbn [fold_left]. destruct (IH (Z.max a b)) as [H | H].
  - rewrite H. destruct (Z.max_spec a b) as [[_ ->] | [_ ->]]; [right; by left | by left].
  - right. by right.
Qed.

(** X8. The id counter of a freshly loaded store is the largest stored id,
    and 0 for an empty store.  Hence no stored id is above it; but once the
    newest case, the one with the largest id, is deleted and the store
    loaded again, the next id handed out is not above the deleted one. *)
Theorem X8_counter_starts_at_largest_id (cs : list CaseData.t) :
  App.initialLastCaseId [] = 0
  /\ (forall c, c ∈ cs -> CaseData.id c <= App.initialLastCaseId cs)
  /\ (cs <> [] -> exists c, c ∈ cs /\ CaseData.id c = App.initialLastCaseId cs)
  /\ (forall newest,
        cs <> [] ->
        (forall c, c ∈ cs -> CaseData.id c < CaseData.id newest) ->
        App.initialLastCaseId cs + 1 <= CaseData.id newest).
Proof.
  assert (Hatt : cs <> [] -> exists c, c ∈ cs /\ CaseData.id c = App.initialLastCaseId cs).
  { destruct cs as [|c0 cs']; [done|]. intros _. cbn [App.initialLastCaseId].
    destruct (fold_max_attained (map CaseData.id cs') (CaseData.id c0)) as [H | H].
    - exists c0. split; [by left | done].
    - apply elem_of_map in H as [c [Hid Hc]]. exists c. split; [by right | done]. }
  split; [reflexivity|]. split; [intros c; apply initialLastCaseId_bound|].
  split; [exact Hatt|].
  intros newest Hne Hlt. destruct (Hatt Hne) as [c [Hc Hid]].
  specialize (Hlt c Hc). lia.
Qed.

Lemma X8_witness :
  (App.cases (AppCases.handleDeleteCase 2 twoCaseStore) <> []
   /\ forall c, c ∈ App.cases (AppCases.handleDeleteCase 2 twoCaseStore) ->
                CaseData.id c < 2)
  /\ App.initialLastCaseId (App.cases (AppCases.handleDeleteCase 2 twoCaseStore)) + 1 <= 2.
Proof.
  assert (Hcs : App.cases (AppCases.handleDeleteCase 2 twoCaseStore) = [storedCase1])
    by (vm_compute; reflexivity).
  assert (Hne : App.cases (AppCases.handleDeleteCase 2 twoCaseStore) <> [])
    by (rewrite Hcs; discriminate).
  assert (Hlt : forall c, c ∈ App.cases (AppCases.handleDeleteCase 2 twoCaseStore) ->
                          CaseData.id c < 2).
  { intros c Hc. rewrite Hcs in Hc. apply list_elem_of_singleton in Hc. by subst c. }
  split; [by split|].
  destruct (X8_counter_starts_at_largest_id
              (App.cases (AppCases.handleDeleteCase 2 twoCaseStore)))
    as [_ [_ [_ Hreuse]]].
  set (newest := {| CaseData.id := 2; CaseData.id2 := JS.lit "MST00002";
                    CaseData.fields := DEFAULT_CASE_DATA |}).
  exact (Hreuse newest Hne Hlt).
Defined.

(* ===================================================================== *)
(** ** The import loop *)
(* ===================================================================== *)

Section ImportInvariant.
Variable P : Platform.
Variable nowISO : jsstring.
Variable existing : gset jsstring.
Variable us : list User.t.
Variable st0 : App.State.

Lemma importInv_start :
  importInv existing st0 []
    {| App.importedProcessNumbersInFile := ∅;
       App.successfulImports := [];
       App.duplicatesInFile := [];
       App.duplicatesInSystem := [];
       App.nextState := st0 |}.
Proof.
  unfold importInv. cbn.
  split; [done|]. split; [intros a Ha; by apply not_elem_of_nil in Ha|].
  split; [constructor|]. split; [done|].
  split; [by destruct st0|].
  split; [intros r Hr; by apply not_elem_of_nil in Hr|].
  split; [done|].
  split; intros x Hx; by apply not_elem_of_nil in Hx.
Qed.

Lemma blank_count_snoc (rows : list CaseFields.t) (r : CaseFields.t) :
  length (List.filter blankRow (rows ++ [r]))
  = (length (List.filter blankRow rows) + (if blankRow r then 1 else 0))%nat.
Proof.
  rewrite List.filter_app, length_app. cbn [List.filter].
  by destruct (blankRow r).
Qed.

Lemma importInv_step (rows : list CaseFields.t) (acc : App.ImportLoop)
    (r : CaseFields.t) :
  importInv existing st0 rows acc ->
  importInv existing st0 (rows ++ [r]) (App.importStep P nowISO existing us acc r).
Proof.
  intros (Hset & Hacc & Hnodup & Hids & Hnext & Hcov & Hcount & Hsys & Hfile).
  assert (Hcov' : forall accepted',
            (forall x, x ∈ map trimmedNumber (App.successfulImports acc) ->
                       x ∈ map trimmedNumber accepted') ->
            (trimmedNumberOfRow r <> [] ->
             trimmedNumberOfRow r ∈ existing
             \/ trimmedNumberOfRow r ∈ map trimmedNumber accepted') ->
            forall r', r' ∈ rows ++ [r] -> trimmedNumberOfRow r' <> [] ->
              trimmedNumberOfRow r' ∈ existing
              \/ trimmedNumberOfRow r' ∈ map trimmedNumber accepted').
  { intros accepted' Hmono Hr r' Hr' Hne. apply elem_of_app in Hr' as [Hr' | Hr'].
    - destruct (Hcov r' Hr' Hne) as [H | H]; [by left | right; by apply Hmono].
    - apply list_elem_of_singleton in Hr'. subst r'. by apply Hr. }
  pose proof (blank_count_snoc rows r) as Hblank.
  destruct (JS.trim (CaseFields.processoNumero r)) as [|k pn] eqn:Htrim.
  - (* a row without process number *)
    assert (Hstep : App.importStep P nowISO existing us acc r = acc)
      by (unfold App.importStep; by rewrite Htrim).
    rewrite Hstep. unfold importInv.
    assert (Hb : blankRow r = true)
      by (unfold blankRow, trimmedNumberOfRow; rewrite Htrim; by apply bool_decide_eq_true).
    rewrite Hb in Hblank.
    repeat split; try done.
    + apply Hacc. done.
    + apply Hacc. done.
    + apply Hcov'; [done|]. unfold trimmedNumberOfRow. by rewrite Htrim.
    + rewrite Hblank, length_app. cbn. lia.
    + by apply Hfile.
    + by apply Hfile.
  - assert (Hb : blankRow r = false)
      by (unfold blankRow, trimmedNumberOfRow; rewrite Htrim;
          by apply bool_decide_eq_false).
    rewrite Hb in Hblank.
    assert (Hrow : trimmedNumberOfRow r = k :: pn) by exact Htrim.
    destruct (decide (k :: pn ∈ existing)) as [Hex | Hex].
    + (* already in the store *)
      rewrite (importStep_in_system P nowISO existing us acc r k pn Htrim Hex).
      unfold importInv. cbn.
      repeat split; try done.
      * apply Hacc. done.
      * apply Hacc. done.
      * apply Hcov'; [done|]. intros _. left. by rewrite Hrow.
      * rewrite Hblank, !length_app. cbn. lia.
      * intros x Hx. apply elem_of_app in Hx as [Hx | Hx]; [by apply Hsys|].
        apply list_elem_of_singleton in Hx. by subst x.
      * by apply Hfile.
      * by apply Hfile.
    + destruct (decide (k :: pn ∈ App.importedProcessNumbersInFile acc)) as [Hin | Hin].
      * (* seen earlier in the batch *)
        rewrite (importStep_in_file P nowISO existing us acc r k pn Htrim Hex Hin).
        assert (Hseen : k :: pn ∈ map trimmedNumber (App.successfulImports acc)).
        { rewrite Hset in Hin. by apply elem_of_list_to_set in Hin. }
        unfold importInv. cbn.
        repeat split; try done.
        -- apply Hacc. done.
        -- apply Hacc. done.
        -- apply Hcov'; [done|]. intros _. right. by rewrite Hrow.
        -- rewrite Hblank, !length_app. cbn. lia.
        -- apply elem_of_app in H as [H | H]; [by apply Hfile|].
           apply list_elem_of_singleton in H. by subst x.
        -- apply elem_of_app in H as [H | H]; [by apply Hfile|].
           apply list_elem_of_singleton in H. by subst x.
      * (* accepted *)
        destruct (importStep_accepts P nowISO existing us acc r k pn Htrim Hex Hin)
          as (a & Hstep & Hid & _ & Hpn & _).
        rewrite Hstep.
        assert (Ha : trimmedNumber a = k :: pn)
          by (unfold trimmedNumber; by rewrite Hpn).
        assert (Hnew : k :: pn ∉ map trimmedNumber (App.successfulImports acc)).
        { intros H. apply Hin. rewrite Hset. by apply elem_of_list_to_set. }
        unfold importInv. cbn.
        split; [|split; [|split; [|split; [|split; [|split; [|split; [|split]]]]]]].
        -- rewrite Hset, map_app, list_to_set_app_L. cbn [map list_to_set].
           rewrite Ha, (right_id_L ∅ (∪)). apply (comm_L (∪)).
        -- intros a' Ha'. apply elem_of_app in Ha' as [Ha' | Ha']; [by apply Hacc|].
           apply list_elem_of_singleton in Ha'. subst a'. rewrite Ha. by split.
        -- rewrite map_app. cbn [map]. rewrite Ha.
           apply NoDup_app. split; [done|]. split; [|apply NoDup_singleton].
           intros x Hx Hx'. apply list_elem_of_singleton in Hx'. by subst x.
        -- rewrite length_app. cbn [length].
           rewrite map_app, Hids, Nat.add_1_r, seq_S, map_app. cbn [map]. f_equal.
           rewrite Hid, Hnext. reflexivity.
        -- rewrite length_app. cbn [length]. rewrite Nat.add_1_r, Hnext. reflexivity.
        -- apply Hcov'.
           ++ intros x Hx. rewrite map_app. apply elem_of_app. by left.
           ++ intros _. right. rewrite Hrow, map_app. apply elem_of_app. right.
              cbn. rewrite Ha. by left.
        -- rewrite Hblank, !length_app. cbn [length]. lia.
        -- done.
        -- intros x Hx. destruct (Hfile x Hx) as [H1 H2]. split; [done|].
           rewrite map_app. apply elem_of_app. by left.
Qed.

Lemma importInv_fold (rows done : list CaseFields.t) (acc : App.ImportLoop) :
  importInv existing st0 done acc ->
  importInv existing st0 (done ++ rows)
    (fold_left (App.importStep P nowISO existing us) rows acc).
Proof.
  revert done acc. induction rows as [|r rows IH]; intros done acc Hinv.
  - by rewrite app_nil_r.
  - cbn [fold_left]. replace (done ++ r :: rows) with ((done ++ [r]) ++ rows)
      by (by rewrite <- app_assoc).
    apply IH. by apply importInv_step.
Qed.
End ImportInvariant.

(** The invariant holds at the end of the loop of [handleImportCases]. *)
Lemma importLoop_inv (P : Platform) (nowISO : jsstring)
    (rows : list CaseFields.t) (st : App.State) :
  importInv (list_to_set (map trimmedNumber (App.cases st))) st rows
    (App.importLoop P nowISO rows st).
Proof.
  unfold App.importLoop.
  apply (importInv_fold P nowISO _ (App.users st) st rows []).
  apply importInv_start.
Qed.

Lemma handleImportCases_state (P : Platform) (nowISO : jsstring)
    (rows : list CaseFields.t) (st : App.State) :
  let r := App.importLoop P nowISO rows st in
  App.handleImportCases P nowISO rows st
  = {| App.users := App.users st;
       App.cases := App.cases st ++ App.successfulImports r;
       App.lastCaseId := counterAfter (length (App.successfulImports r)) (App.lastCaseId st);
       App.alerts := App.alerts st
                     ++ [AlertImportReport (length (App.successfulImports r))
                           (App.duplicatesInSystem r) (App.duplicatesInFile r)] |}.
Proof.
  intros r. unfold App.handleImportCases. fold r.
  destruct (importLoop_inv P nowISO rows st) as (_ & _ & _ & _ & Hnext & _).
  fold r in Hnext. by rewrite Hnext.
Qed.

(** X9. Whatever the batch, [handleImportCases] keeps the stored cases, in
    their order, and appends the accepted ones; it keeps the users.  The
    accepted cases have non-empty trimmed process numbers, pairwise distinct
    and none of them that of a stored case.  Hence a store whose trimmed
    process numbers are pairwise distinct stays so. *)
Theorem X9_import_keeps_process_numbers_unique
    (P : Platform) (nowISO : jsstring) (rows : list CaseFields.t) (st : App.State) :
  uniqueProcessNumbers (App.cases st) ->
  let accepted := App.successfulImports (App.importLoop P nowISO rows st) in
  App.cases (App.handleImportCases P nowISO rows st) = App.cases st ++ accepted
  /\ App.users (App.handleImportCases P nowISO rows st) = App.users st
  /\ (forall a, a ∈ accepted ->
        JS.trim (CaseData.processoNumero a) <> []
        /\ ~ processNumberTaken (CaseData.processoNumero a) (App.cases st))
  /\ uniqueProcessNumbers accepted
  /\ uniqueProcessNumbers (App.cases (App.handleImportCases P nowISO rows st)).
Proof.
  intros Huniq accepted.
  rewrite handleImportCases_state. cbn [App.cases App.users]. fold accepted.
  destruct (importLoop_inv P nowISO rows st) as (_ & Hacc & Hnodup & _).
  fold accepted in Hacc, Hnodup.
  assert (Hfresh : forall a, a ∈ accepted ->
            ~ processNumberTaken (CaseData.processoNumero a) (App.cases st)).
  { intros a Ha [c [Hc Heq]]. destruct (Hacc a Ha) as [_ Hnot]. apply Hnot.
    apply existing_elem_of. by exists c. }
  split; [done|]. split; [done|].
  split; [intros a Ha; split; [exact (proj1 (Hacc a Ha)) | by apply Hfresh]|].
  split; [exact Hnodup|].
  unfold uniqueProcessNumbers. rewrite map_app. apply NoDup_app.
  split; [exact Huniq|]. split; [|exact Hnodup].
  intros x Hx Hx'. apply elem_of_map in Hx as [c [-> Hc]].
  apply elem_of_map in Hx' as [a [Heq Ha]].
  apply (Hfresh a Ha). by exists c.
Qed.

Lemma X9_witness :
  uniqueProcessNumbers (App.cases storeWithP2)
  /\ uniqueProcessNumbers
       (App.cases (App.handleImportCases platformUTC sampleClock
                     [draftOf "P1" "Alice" ""; draftOf " P1" "Bob" ""; draftOf "P2 " "Bob" ""]
                     storeWithP2)).
Proof.
  assert (H : uniqueProcessNumbers (App.cases storeWithP2))
    by (unfold uniqueProcessNumbers; apply (bool_decide_unpack _); vm_compute; exact I).
  split; [exact H|].
  exact (proj2 (proj2 (proj2 (proj2
    (X9_import_keeps_process_numbers_unique platformUTC sampleClock
       [draftOf "P1" "Alice" ""; draftOf " P1" "Bob" ""; draftOf "P2 " "Bob" ""]
       storeWithP2 H))))).
Defined.

(** X10. While the id counter stays in the range where [++] counts by
    ones (it starts at -2^53 or above and the batch cannot take it past
    2^53), the cases accepted by an import get the ids that follow the
    counter, one after the other in the order of the batch, and the counter
    ends at the id of the last one; rows that are skipped or reported use up
    no id.  The import shows one report, with the number of accepted cases
    and the two lists of duplicates. *)
Theorem X10_import_numbers_cases_in_sequence
    (P : Platform) (nowISO : jsstring) (rows : list CaseFields.t) (st : App.State) :
  - 2 ^ 53 <= App.lastCaseId st ->
  App.lastCaseId st + Z.of_nat (length rows) <= 2 ^ 53 ->
  let r := App.importLoop P nowISO rows st in
  let accepted := App.successfulImports r in
  (forall i a, accepted !! i = Some a ->
               CaseData.id a = App.lastCaseId st + 1 + Z.of_nat i)
  /\ App.lastCaseId (App.handleImportCases P nowISO rows st)
     = App.lastCaseId st + Z.of_nat (length accepted)
  /\ (length accepted <= length rows)%nat
  /\ App.alerts (App.handleImportCases P nowISO rows st)
     = App.alerts st
       ++ [AlertImportReport (length accepted) (App.duplicatesInSystem r)
             (App.duplicatesInFile r)].
Proof.
  intros Hlo Hhi r accepted. rewrite handleImportCases_state.
  cbn [App.lastCaseId App.alerts]. fold r. fold accepted.
  destruct (importLoop_inv P nowISO rows st)
    as (_ & _ & _ & Hids & _ & _ & Hcount & _).
  fold r in Hids, Hcount. fold accepted in Hids, Hcount.
  split; [|split; [|split; [lia|done]]].
  - intros i a Hi.
    assert (Hlook : map CaseData.id accepted !! i = Some (CaseData.id a))
      by (by rewrite lookup_map, Hi).
    rewrite Hids, lookup_map in Hlook.
    destruct (seq 1 (length accepted) !! i) as [k|] eqn:Hk; [|done].
    apply lookup_seq in Hk as [-> Hi']. cbn [fmap option_fmap option_map] in Hlook.
    injection Hlook as <-.
    change (counterAfter (S i) (App.lastCaseId st) = App.lastCaseId st + 1 + Z.of_nat i).
    rewrite counterAfter_exact by (pow53; lia). lia.
  - apply counterAfter_exact; pow53; lia.
Qed.

Lemma X10_witness :
  (- 2 ^ 53 <= App.lastCaseId storeWithP2
   /\ App.lastCaseId storeWithP2 + Z.of_nat (length [draftOf "P1" "Alice" ""; draftOf "P3" "Bob" ""])
      <= 2 ^ 53)
  /\ App.lastCaseId (App.handleImportCases platformUTC sampleClock
                       [draftOf "P1" "Alice" ""; draftOf "P3" "Bob" ""] storeWithP2)
     = App.lastCaseId storeWithP2
       + Z.of_nat (length (App.successfulImports
                             (App.importLoop platformUTC sampleClock
                                [draftOf "P1" "Alice" ""; draftOf "P3" "Bob" ""]
                                storeWithP2))).
Proof.
  assert (Hlo : - 2 ^ 53 <= App.lastCaseId storeWithP2) by (vm_compute; discriminate).
  assert (Hhi : App.lastCaseId storeWithP2
                + Z.of_nat (length [draftOf "P1" "Alice" ""; draftOf "P3" "Bob" ""])
                <= 2 ^ 53) by (vm_compute; discriminate).
  split; [by split|].
  exact (proj1 (proj2 (X10_import_numbers_cases_in_sequence platformUTC sampleClock
                         [draftOf "P1" "Alice" ""; draftOf "P3" "Bob" ""] storeWithP2
                         Hlo Hhi))).
Defined.

(** X11. An import accounts for every row of the batch: a row is accepted,
    reported as duplicated in the file, reported as already in the system,
    or has a blank process number.  The numbers reported as in the system
    are those of stored cases and are reported once per row; the numbers
    reported as duplicated in the file are not in the store and are those of
    accepted cases.  After the import the process number of every row that
    is not blank is that of a stored case. *)
Theorem X11_import_accounts_for_every_row
    (P : Platform) (nowISO : jsstring) (rows : list CaseFields.t) (st : App.State) :
  let r := App.importLoop P nowISO rows st in
  (length (App.successfulImports r) + length (App.duplicatesInFile r)
   + length (App.duplicatesInSystem r) + length (List.filter blankRow rows)
   = length rows)%nat
  /\ (forall x, x ∈ App.duplicatesInSystem r ->
        exists c, c ∈ App.cases st /\ JS.trim (CaseData.processoNumero c) = x)
  /\ (forall x, x ∈ App.duplicatesInFile r ->
        (forall c, c ∈ App.cases st -> JS.trim (CaseData.processoNumero c) <> x)
        /\ exists a, a ∈ App.successfulImports r
                     /\ JS.trim (CaseData.processoNumero a) = x)
  /\ (forall row, row ∈ rows -> JS.trim (CaseFields.processoNumero row) <> [] ->
        processNumberTaken (CaseFields.processoNumero row)
          (App.cases (App.handleImportCases P nowISO rows st))).
Proof.
  intros r. rewrite handleImportCases_state. cbn [App.cases]. fold r.
  destruct (importLoop_inv P nowISO rows st)
    as (_ & _ & _ & _ & _ & Hcov & Hcount & Hsys & Hfile).
  fold r in Hcov, Hcount, Hsys, Hfile.
  split; [exact Hcount|]. split; [|split].
  - intros x Hx. by apply existing_elem_of, Hsys.
  - intros x Hx. destruct (Hfile x Hx) as [Hnot Hin]. split.
    + intros c Hc Heq. apply Hnot. apply existing_elem_of. by exists c.
    + apply elem_of_map in Hin as [a [-> Ha]]. by exists a.
  - intros row Hrow Hne. destruct (Hcov row Hrow Hne) as [H | H].
    + apply existing_elem_of in H as [c [Hc Heq]]. exists c. split; [|done].
      apply elem_of_app. by left.
    + apply elem_of_map in H as [a [Heq Ha]]. exists a. split; [|done].
      apply elem_of_app. by right.
Qed.

Lemma X11_witness :
  (draftOf " P1" "Bob" "" ∈ [draftOf "P1" "Alice" ""; draftOf " P1" "Bob" ""; draftOf "  " "" ""]
   /\ JS.trim (CaseFields.processoNumero (draftOf " P1" "Bob" "")) <> [])
  /\ processNumberTaken (CaseFields.processoNumero (draftOf " P1" "Bob" ""))
       (App.cases (App.handleImportCases platformUTC sampleClock
                     [draftOf "P1" "Alice" ""; draftOf " P1" "Bob" ""; draftOf "  " "" ""]
                     storeWithP2)).
Proof.
  assert (Hin : draftOf " P1" "Bob" ""
                ∈ [draftOf "P1" "Alice" ""; draftOf " P1" "Bob" ""; draftOf "  " "" ""])
    by (right; left).
  assert (Hne : JS.trim (CaseFields.processoNumero (draftOf " P1" "Bob" "")) <> [])
    by (vm_compute; discriminate).
  split; [by split|].
  exact (proj2 (proj2 (proj2
    (X11_import_accounts_for_every_row platformUTC sampleClock
       [draftOf "P1" "Alice" ""; draftOf " P1" "Bob" ""; draftOf "  " "" ""]
       storeWithP2))) _ Hin Hne).
Defined.

(** A batch whose rows all carry process numbers of the store, or none. *)
Lemma import_of_stored_numbers (P : Platform) (nowISO : jsstring)
    (existing : gset jsstring) (us : list User.t)
    (rows : list CaseFields.t) (acc : App.ImportLoop) :
  (forall row, row ∈ rows -> trimmedNumberOfRow row <> [] ->
               trimmedNumberOfRow row ∈ existing) ->
  fold_left (App.importStep P nowISO existing us) rows acc
  = {| App.importedProcessNumbersInFile := App.importedProcessNumbersInFile acc;
       App.successfulImports := App.successfulImports acc;
       App.duplicatesInFile := App.duplicatesInFile acc;
       App.duplicatesInSystem := App.duplicatesInSystem acc ++ numbersOfRows rows;
       App.nextState := App.nextState acc |}.
Proof.
  revert acc. induction rows as [|row rows IH]; intros acc Hall.
  - cbn. rewrite app_nil_r. by destruct acc.
  - cbn [fold_left]. rewrite IH by (intros r' Hr'; apply Hall; by right).
    unfold numbersOfRows. cbn [List.filter].
    destruct (JS.trim (CaseFields.processoNumero row)) as [|k pn] eqn:Htrim.
    + assert (Hb : blankRow row = true)
        by (unfold blankRow, trimmedNumberOfRow; rewrite Htrim;
            by apply bool_decide_eq_true).
      rewrite Hb. cbn [negb]. unfold App.importStep. by rewrite Htrim.
    + assert (Hb : blankRow row = false)
        by (unfold blankRow, trimmedNumberOfRow; rewrite Htrim;
            by apply bool_decide_eq_false).
      assert (Hex : k :: pn ∈ existing).
      { specialize (Hall row (list_elem_of_here _ _)). unfold trimmedNumberOfRow in Hall.
        rewrite Htrim in Hall. by apply Hall. }
      rewrite Hb. cbn [negb map].
      rewrite (importStep_in_system P nowISO existing us acc row k pn Htrim Hex).
      cbn [App.importedProcessNumbersInFile App.successfulImports App.duplicatesInFile
           App.duplicatesInSystem App.nextState].
      change (trimmedNumberOfRow row) with (JS.trim (CaseFields.processoNumero row)).
      rewrite Htrim. by rewrite <- app_assoc.
Qed.

(** X12. Importing a batch a second time accepts nothing: the stored cases
    and the id counter stay as the first import left them, no number is
    reported as duplicated in the file, and every row that is not blank is
    reported as already in the system, in the order of the batch. *)
Theorem X12_import_twice_accepts_nothing
    (P : Platform) (nowISO nowISO' : jsstring)
    (rows : list CaseFields.t) (st : App.State) :
  let st1 := App.handleImportCases P nowISO rows st in
  let again := App.importLoop P nowISO' rows st1 in
  App.successfulImports again = []
  /\ App.duplicatesInFile again = []
  /\ App.duplicatesInSystem again = numbersOfRows rows
  /\ App.cases (App.handleImportCases P nowISO' rows st1) = App.cases st1
  /\ App.lastCaseId (App.handleImportCases P nowISO' rows st1) = App.lastCaseId st1
  /\ App.users (App.handleImportCases P nowISO' rows st1) = App.users st.
Proof.
  intros st1 again.
  assert (Hall : forall row, row ∈ rows -> trimmedNumberOfRow row <> [] ->
            trimmedNumberOfRow row
            ∈ (list_to_set (map (fun c => JS.trim (CaseData.processoNumero c))
                              (App.cases st1)) : gset jsstring)).
  { intros row Hrow Hne. unfold st1. rewrite handleImportCases_state. cbn [App.cases].
    destruct (importLoop_inv P nowISO rows st) as (_ & _ & _ & _ & _ & Hcov & _).
    apply elem_of_list_to_set. rewrite map_app. apply elem_of_app.
    destruct (Hcov row Hrow Hne) as [H | H]; [left | by right].
    by apply elem_of_list_to_set in H. }
  assert (Hagain : again
            = {| App.importedProcessNumbersInFile := ∅;
                 App.successfulImports := [];
                 App.duplicatesInFile := [];
                 App.duplicatesInSystem := numbersOfRows rows;
                 App.nextState := st1 |}).
  { unfold again, App.importLoop.
    by rewrite (import_of_stored_numbers P nowISO' _ (App.users st1) rows _ Hall). }
  rewrite handleImportCases_state. fold again. rewrite Hagain.
  cbn [App.successfulImports App.duplicatesInFile App.duplicatesInSystem
       App.cases App.lastCaseId App.users length].
  repeat split.
  - by rewrite app_nil_r.
  - unfold st1. by rewrite handleImportCases_state.
Qed.

(* ===================================================================== *)
(** ** Ids and the id counter *)
(* ===================================================================== *)













(* ===================================================================== *)
(** ** Assignee of an imported case; adding a number twice *)
(* ===================================================================== *)

(** X13. A row that the import accepts becomes a case owned by
    "Ms Tributário" whose other fields, the process number untrimmed among
    them, are those of the row, except the assignee: when a user has the
    row's assignee name up to surrounding white space and letter case (and a
    non-empty name), the case gets that user's name and email, as assignee
    and as co-responsible; otherwise it keeps the name as typed and gets an
    empty email.  The entry of its log names the assignee as typed in the
    row in both cases. *)
Theorem X13_import_resolves_assignee
    (P : Platform) (nowISO : jsstring) (existing : gset jsstring)
    (us : list User.t) (acc : App.ImportLoop) (row : CaseFields.t)
    (k : N) (pn : jsstring) :
  JS.trim (CaseFields.processoNumero row) = k :: pn ->
  k :: pn ∉ existing ->
  k :: pn ∉ App.importedProcessNumbersInFile acc ->
  exists a,
    App.successfulImports (App.importStep P nowISO existing us acc row)
    = App.successfulImports acc ++ [a]
    /\ CaseFields.ownerName (CaseData.fields a) = App.ownerMsTributario
    /\ besidesImport (CaseData.fields a) = besidesImport row
    /\ (forall u, userNamedLike P us (CaseFields.name row) = Some u ->
                  User.name u <> [] ->
          CaseData.name a = User.name u
          /\ CaseData.email a = User.email u
          /\ CaseData.coResponsibleName a = Some (User.name u))
    /\ (userNamedLike P us (CaseFields.name row) = None ->
          CaseData.name a = CaseFields.name row
          /\ CaseData.email a = []
          /\ CaseData.coResponsibleName a = Some (CaseFields.name row))
    /\ (exists e, CaseData.tramitationLog a = Some [e]
                  /\ TramitationEntry.fromUser e = App.sistemaImportacao
                  /\ TramitationEntry.toUser e = CaseFields.name row).
Proof.
  intros Htrim Hex Hfile. unfold App.importStep. rewrite Htrim.
  rewrite (bool_decide_eq_false_2 _ Hex), (bool_decide_eq_false_2 _ Hfile).
  cbn [App.getNextCaseId App.successfulImports].
  fold (userNamedLike P us (CaseFields.name row)).
  eexists. split; [reflexivity|].
  split; [done|]. split; [done|]. split; [|split].
  - intros u -> Hname. cbn.
    destruct (User.name u) as [|x name] eqn:Hn; [done|]. cbn.
    repeat split. by destruct (User.email u).
  - intros ->. done.
  - eexists. split; [reflexivity|]. done.
Qed.

Lemma X13_witness :
  exists a,
    App.successfulImports
      (App.importStep platformUTC sampleClock ∅ [admin; alice; bob]
         (App.importLoop platformUTC sampleClock [] emptyStore)
         (draftOf " P1 " " ALICE " "")) = [a]
    /\ CaseData.name a = JS.lit "Alice"
    /\ CaseData.email a = JS.lit "alice@example.com"
    /\ CaseData.processoNumero a = JS.lit " P1 ".
Proof.
  destruct (X13_import_resolves_assignee platformUTC sampleClock ∅ [admin; alice; bob]
              (App.importLoop platformUTC sampleClock [] emptyStore)
              (draftOf " P1 " " ALICE " "") 80%N (JS.lit "1"))
    as (a & Hacc & _ & Hrest & Huser & _).
  - vm_compute. reflexivity.
  - apply not_elem_of_empty.
  - apply not_elem_of_empty.
  - exists a. split; [exact Hacc|].
    destruct (Huser alice) as (Hname & Hemail & _);
      [vm_compute; reflexivity | vm_compute; discriminate |].
    split; [exact Hname|]. split; [exact Hemail|].
    change (CaseData.processoNumero a)
      with (CaseFields.processoNumero (besidesImport (CaseData.fields a))).
    by rewrite Hrest.
Defined.

(** X14. Once a draft has been passed to [handleAddCase], any draft with
    the same process number up to surrounding white space is rejected,
    whoever adds it and whenever: the store only gets the alert.  This holds
    whether the first draft was added or was itself rejected. *)
Theorem X14_second_add_of_a_number_is_rejected
    (currentUser currentUser' : User.t) (nowISO nowISO' : jsstring)
    (newCase newCase' : CaseFields.t) (st : App.State) :
  JS.trim (CaseFields.processoNumero newCase')
  = JS.trim (CaseFields.processoNumero newCase) ->
  let st1 := App.handleAddCase currentUser nowISO newCase st in
  processNumberTaken (CaseFields.processoNumero newCase') (App.cases st1)
  /\ App.handleAddCase currentUser' nowISO' newCase' st1
     = App.alert (AlertProcessNumberRegistered (CaseFields.processoNumero newCase')) st1.
Proof.
  intros Heq st1.
  assert (Htaken : processNumberTaken (CaseFields.processoNumero newCase') (App.cases st1)).
  { unfold st1.
    destruct (processNumberTaken_dec (CaseFields.processoNumero newCase) (App.cases st))
      as [Hold | Hfree].
    - rewrite (handleAddCase_rejected currentUser nowISO newCase st Hold).
      destruct Hold as [c [Hc Hpn]]. exists c. split; [done|]. by rewrite Heq.
    - rewrite (handleAddCase_accepted currentUser nowISO newCase st Hfree).
      eexists. split; [by left|]. by rewrite Heq. }
  split; [exact Htaken|].
  by apply handleAddCase_rejected.
Qed.

Lemma X14_witness :
  JS.trim (CaseFields.processoNumero (draftOf " 789-C" "Bob" "2024-07-01"))
  = JS.trim (CaseFields.processoNumero (draftOf "789-C " "Alice" ""))
  /\ App.cases (App.handleAddCase bob sampleClock (draftOf " 789-C" "Bob" "2024-07-01")
                  (App.handleAddCase admin sampleClock (draftOf "789-C " "Alice" "")
                     twoCaseStore))
     = App.cases (App.handleAddCase admin sampleClock (draftOf "789-C " "Alice" "")
                    twoCaseStore).
Proof.
  assert (Heq : JS.trim (CaseFields.processoNumero (draftOf " 789-C" "Bob" "2024-07-01"))
                = JS.trim (CaseFields.processoNumero (draftOf "789-C " "Alice" "")))
    by (vm_compute; reflexivity).
  split; [exact Heq|].
  destruct (X14_second_add_of_a_number_is_rejected admin bob sampleClock sampleClock
              (draftOf "789-C " "Alice" "") (draftOf " 789-C" "Bob" "2024-07-01")
              twoCaseStore Heq) as [_ Hrej].
  by rewrite Hrej.
Defined.

(* ===================================================================== *)
(** ** Archived cases and the deadline counters *)
(* ===================================================================== *)

Lemma rowOf_hasStatus (cs : list CaseData.t) :
  Forall hasStatus (map KpiData.rowOf cs).
Proof.
  induction cs as [|c cs IH]; constructor; [|exact IH].
  by eexists.
Qed.

Lemma classSize_cons (v : Copy) (P : Platform) (s : DeadlineStatus)
    (c : KpiData.Row) (cs : list KpiData.Row) :
  classSize v P s (c :: cs)
  = ((if bool_decide (statusOf v P c = normal s) then 1 else 0) + classSize v P s cs)%nat.
Proof.
  unfold classSize. cbn [List.filter]. by destruct (bool_decide _).
Qed.

Lemma classSize_rowOf (v : Copy) (P : Platform) (s : DeadlineStatus)
    (cs : list CaseData.t) :
  classSize v P s (map KpiData.rowOf cs)
  = length (List.filter (fun c => bool_decide (statusOf v P (KpiData.rowOf c) = normal s)) cs).
Proof.
  induction cs as [|c cs IH]; [done|].
  cbn [map]. rewrite classSize_cons, IH. cbn [List.filter].
  by destruct (bool_decide _).
Qed.

Lemma forEach_counts (v : Copy) (P : Platform) (cs : list KpiData.Row)
    (k : KpiData.DeadlineCounts) :
  Forall hasStatus cs ->
  KpiData.forEach (classify v) P cs k
  = normal {| KpiData.overdueCount := KpiData.overdueCount k + classSize v P overdue cs;
              KpiData.dueSoonCount := KpiData.dueSoonCount k + classSize v P due_soon cs;
              KpiData.onTrackCount := KpiData.onTrackCount k + classSize v P on_track cs |}.
Proof.
  intros Hall. revert k. induction Hall as [|c cs [st Hst] _ IH]; intros k.
  - unfold classSize. cbn. rewrite !Nat.add_0_r. by destruct k.
  - cbn [KpiData.forEach]. unfold KpiData.countOne.
    rewrite !classSize_cons. unfold statusOf. rewrite Hst.
    destruct (classify_total v P (KpiData.dataFinal c) st) as [r ->].
    destruct r; rewrite IH; repeat case_bool_decide; try congruence;
      cbn; f_equal; f_equal; lia.
Qed.

Lemma forEach_throws (v : Copy) (P : Platform) (cs : list KpiData.Row)
    (k : KpiData.DeadlineCounts) :
  Exists (fun c => KpiData.status c = undefined) cs ->
  KpiData.forEach (classify v) P cs k = throwTypeError.
Proof.
  revert k. induction cs as [|c cs IH]; intros k Hex.
  - by apply Exists_nil in Hex.
  - cbn [KpiData.forEach]. unfold KpiData.countOne.
    destruct (KpiData.status c) as [|st] eqn:Hst.
    + by rewrite classify_no_status.
    + apply Exists_cons in Hex as [Hhead|Htail]; [congruence|].
      destruct (classify_total v P (KpiData.dataFinal c) st) as [r ->].
      destruct r; by apply IH.
Qed.

Lemma filterb_none {A} (f : A -> bool) (l : list A) :
  (forall x, x ∈ l -> f x = false) -> List.filter f l = [].
Proof.
  induction l as [|x l IH]; intros H; [done|].
  cbn [List.filter]. rewrite (H x) by (by left). apply IH.
  intros y Hy. apply H. by right.
Qed.

Lemma filterb_ext_in {A} (f g : A -> bool) (l : list A) :
  (forall x, x ∈ l -> f x = g x) -> List.filter f l = List.filter g l.
Proof.
  induction l as [|x l IH]; intros H; [done|].
  cbn [List.filter]. rewrite (H x) by (by left).
  rewrite IH by (intros y Hy; apply H; by right). done.
Qed.

(** X15. The active and the archived cases split the stored cases in two:
    a case is archived when its status is exactly "Arquivado" and active
    otherwise, and both lists keep the order of the store.  On a host whose
    [toLowerCase] turns "Arquivado" into "arquivado", every copy of the
    classifier gives an archived case the class 'completed' whatever its
    date, so the deadline counters of a list of cases are those of its
    active cases. *)
Theorem X15_archived_cases_are_completed
    (P : Platform) (cs : list CaseData.t) :
  toLowerCase P AppCases.ARCHIVED_STATUS_NAME = kw_arquivado ->
  (forall c, c ∈ AppCases.archivedCases cs <->
             c ∈ cs /\ CaseFields.status (CaseData.fields c) = AppCases.ARCHIVED_STATUS_NAME)
  /\ (forall c, c ∈ AppCases.activeCases cs <->
             c ∈ cs /\ CaseFields.status (CaseData.fields c) <> AppCases.ARCHIVED_STATUS_NAME)
  /\ (length (AppCases.activeCases cs) + length (AppCases.archivedCases cs)
      = length cs)%nat
  /\ AppCases.activeCases cs `sublist_of` cs
  /\ AppCases.archivedCases cs `sublist_of` cs
  /\ (forall v dateString c, c ∈ AppCases.archivedCases cs ->
        classify v P dateString (str (CaseFields.status (CaseData.fields c)))
        = normal completed)
  /\ (forall v, KpiData.deadlineCounts (classify v) P (map KpiData.rowOf cs)
                = KpiData.deadlineCounts (classify v) P
                    (map KpiData.rowOf (AppCases.activeCases cs))).
Proof.
  intros Hlower.
  assert (Harch : forall c, c ∈ AppCases.archivedCases cs <->
            c ∈ cs /\ CaseFields.status (CaseData.fields c) = AppCases.ARCHIVED_STATUS_NAME).
  { intros c. unfold AppCases.archivedCases. rewrite elem_of_filterb.
    by rewrite bool_decide_eq_true. }
  assert (Hterm : forall v dateString c,
            CaseFields.status (CaseData.fields c) = AppCases.ARCHIVED_STATUS_NAME ->
            classify v P dateString (str (CaseFields.status (CaseData.fields c)))
            = normal completed).
  { intros v dateString c Hst. apply classify_terminal.
    rewrite isTerminal_unfold, Hst, Hlower.
    assert (Hinc : JS.includes kw_arquivado kw_arquivado = true)
      by (vm_compute; reflexivity).
    rewrite Hinc. by rewrite !orb_true_r. }
  split; [exact Harch|]. split; [|split; [|split; [|split; [|split]]]].
  - intros c. unfold AppCases.activeCases. rewrite elem_of_filterb.
    by rewrite negb_true_iff, bool_decide_eq_false.
  - unfold AppCases.activeCases, AppCases.archivedCases.
    rewrite Nat.add_comm. apply filterb_partition_length.
  - apply filterb_sublist.
  - apply filterb_sublist.
  - intros v dateString c Hc. apply Hterm. by apply Harch.
  - intros v. unfold KpiData.deadlineCounts.
    rewrite !forEach_counts by apply rowOf_hasStatus.
    assert (Hsame : forall s, s <> completed ->
              classSize v P s (map KpiData.rowOf (AppCases.activeCases cs))
              = classSize v P s (map KpiData.rowOf cs)).
    { intros s Hs. rewrite !classSize_rowOf. unfold AppCases.activeCases.
      rewrite filterb_filterb. f_equal. apply filterb_ext_in. intros c _.
      destruct (bool_decide (CaseFields.status (CaseData.fields c)
                             = AppCases.ARCHIVED_STATUS_NAME)) eqn:Hst; [|done].
      apply bool_decide_eq_true in Hst. cbn [negb andb]. symmetry.
      apply bool_decide_eq_false. unfold statusOf, KpiData.rowOf.
      cbn [KpiData.dataFinal KpiData.status]. rewrite (Hterm v _ c Hst).
      intros [= <-]. done. }
    by rewrite !Hsame.
Qed.

Lemma X15_witness :
  toLowerCase platformBRT AppCases.ARCHIVED_STATUS_NAME = kw_arquivado
  /\ KpiData.deadlineCounts (classify InGlobalKpiDashboard) platformBRT
       (map KpiData.rowOf [case1Archived; storedCase1])
     = KpiData.deadlineCounts (classify InGlobalKpiDashboard) platformBRT
         (map KpiData.rowOf [storedCase1]).
Proof.
  assert (H : toLowerCase platformBRT AppCases.ARCHIVED_STATUS_NAME = kw_arquivado)
    by (vm_compute; reflexivity).
  split; [exact H|].
  destruct (X15_archived_cases_are_completed platformBRT [case1Archived; storedCase1] H)
    as (_ & _ & _ & _ & _ & _ & Hcounts).
  rewrite (Hcounts InGlobalKpiDashboard). reflexivity.
Defined.

(** The exact comparison of the archive filter and the keyword test of the
    classifier differ: a case whose status is "arquivado provisoriamente"
    is active, and is 'completed' for the dashboards. *)
Remark active_case_can_be_completed :
  let c := {| CaseData.id := 1; CaseData.id2 := JS.lit "MST00001";
              CaseData.fields :=
                CaseFields.set_status (JS.lit "Arquivado provisoriamente")
                  DEFAULT_CASE_DATA |} in
  AppCases.activeCases [c] = [c]
  /\ statusOf InKpiDashboard platformBRT (KpiData.rowOf c) = normal completed.
Proof. by vm_compute. Qed.

(** X18. The loop that fills the deadline counters of a dashboard reads
    [dataFinal] and [status] of every case.  When every case has a status,
    the loop ends normally, its three counters are the numbers of cases that
    the classifier puts in the classes 'overdue', 'due-soon' and 'on-track',
    and with the cases classified 'completed' and 'none', which it skips,
    they add up to the number of cases; this is so for cases that have every
    field of their type.  When some case has no status (a case imported from
    a sheet without that column), the loop fails with a TypeError and there
    are no counters.  Counting a list that is the concatenation of two adds
    the class sizes, cases whose status contains a terminal keyword count
    nowhere, and the personal and the global dashboard count the same. *)
Theorem X18_deadline_counters_count_classes
    (v : Copy) (P : Platform) (cs cs' : list KpiData.Row) :
  (Forall hasStatus cs ->
     KpiData.deadlineCounts (classify v) P cs
     = normal {| KpiData.overdueCount := classSize v P overdue cs;
                 KpiData.dueSoonCount := classSize v P due_soon cs;
                 KpiData.onTrackCount := classSize v P on_track cs |}
     /\ (classSize v P overdue cs + classSize v P due_soon cs + classSize v P on_track cs
         + classSize v P completed cs + classSize v P none cs = length cs)%nat)
  /\ (Exists (fun c => KpiData.status c = undefined) cs ->
      KpiData.deadlineCounts (classify v) P cs = throwTypeError)
  /\ (forall stored : list CaseData.t,
        KpiData.deadlineCounts (classify v) P (map KpiData.rowOf stored)
        = normal {| KpiData.overdueCount := classSize v P overdue (map KpiData.rowOf stored);
                    KpiData.dueSoonCount := classSize v P due_soon (map KpiData.rowOf stored);
                    KpiData.onTrackCount := classSize v P on_track (map KpiData.rowOf stored) |})
  /\ (forall s, classSize v P s (cs ++ cs') = classSize v P s cs + classSize v P s cs')%nat
  /\ ((forall c, c ∈ cs -> exists s, KpiData.status c = str s /\ isTerminal P s = true) ->
      KpiData.deadlineCounts (classify v) P cs
      = normal {| KpiData.overdueCount := 0; KpiData.dueSoonCount := 0;
                  KpiData.onTrackCount := 0 |})
  /\ KpiData.deadlineCounts KpiDashboard.getDeadlineStatus P cs
     = KpiData.deadlineCounts GlobalKpiDashboard.getDeadlineStatus P cs.
Proof.
  split; [|split; [|split; [|split; [|split]]]].
  - intros Hall. split.
    + unfold KpiData.deadlineCounts. by rewrite forEach_counts.
    + induction Hall as [|c cs0 [st Hst] _ IH]; [done|].
      rewrite !classSize_cons, length_cons, <- IH. unfold statusOf. rewrite Hst.
      destruct (classify_total v P (KpiData.dataFinal c) st) as [r ->].
      destruct r; repeat case_bool_decide; try congruence; cbn; lia.
  - intros Hex. unfold KpiData.deadlineCounts. by apply forEach_throws.
  - intros stored. unfold KpiData.deadlineCounts.
    rewrite forEach_counts by apply rowOf_hasStatus. done.
  - intros s. unfold classSize. by rewrite List.filter_app, length_app.
  - intros Hall. unfold KpiData.deadlineCounts.
    rewrite forEach_counts.
    2:{ apply Forall_forall. intros c Hc. destruct (Hall c Hc) as (s & Hs & _).
        by exists s. }
    cbn.
    assert (Hzero : forall s, s <> completed -> classSize v P s cs = 0%nat).
    { intros s Hs. unfold classSize.
      rewrite filterb_none; [done|].
      intros c Hc. apply bool_decide_eq_false. unfold statusOf.
      destruct (Hall c Hc) as (st & -> & Hterm).
      rewrite (classify_terminal P v _ _ Hterm). intros [= <-]. done. }
    by rewrite !Hzero.
  - reflexivity.
Qed.

Lemma X18_witness :
  (Forall hasStatus [rowDueLater]
   /\ KpiData.deadlineCounts (classify InGlobalKpiDashboard) platformBRT
        [rowDueLater]
      = normal {| KpiData.overdueCount := 0; KpiData.dueSoonCount := 0;
                  KpiData.onTrackCount := 1 |})
  /\ (Exists (fun c => KpiData.status c = undefined)
        [rowDueLater; rowWithoutStatus]
      /\ KpiData.deadlineCounts (classify InGlobalKpiDashboard) platformBRT
           [rowDueLater; rowWithoutStatus]
         = throwTypeError).
Proof.
  assert (Hall : Forall hasStatus [rowDueLater]).
  { constructor; [by eexists | constructor]. }
  assert (Hex : Exists (fun c => KpiData.status c = undefined)
                  [rowDueLater; rowWithoutStatus]).
  { apply Exists_cons_tl, Exists_cons_hd. reflexivity. }
  split; (split; [assumption|]).
  - destruct (X18_deadline_counters_count_classes InGlobalKpiDashboard platformBRT
                [rowDueLater] []) as (Hcount & _).
    destruct (Hcount Hall) as [-> _]. reflexivity.
  - destruct (X18_deadline_counters_count_classes InGlobalKpiDashboard platformBRT
                [rowDueLater; rowWithoutStatus] []) as (_ & Hthrow & _).
    exact (Hthrow Hex).
Defined.

(* ===================================================================== *)
(** ** The flattened tramitation history *)
(* ===================================================================== *)

Lemma flatHistory_cons (c : CaseData.t) (cs : list CaseData.t) :
  TramitationHistory.flatHistory (c :: cs)
  = map (fun log => {| TramitationHistory.entry := log;
                       TramitationHistory.processoNumero := CaseData.processoNumero c;
                       TramitationHistory.caseId := CaseData.id c |})
        (JS.orEmpty (CaseData.tramitationLog c))
    ++ TramitationHistory.flatHistory cs.
Proof. reflexivity. Qed.

Lemma flatHistory_app (cs cs' : list CaseData.t) :
  TramitationHistory.flatHistory (cs ++ cs')
  = TramitationHistory.flatHistory cs ++ TramitationHistory.flatHistory cs'.
Proof.
  induction cs as [|c cs IH]; [done|].
  rewrite <- app_comm_cons, !flatHistory_cons, IH. by rewrite app_assoc.
Qed.

Lemma flatHistory_elem_of (cs : list CaseData.t) (x : TramitationHistory.FlatTramitationLog) :
  x ∈ TramitationHistory.flatHistory cs
  <-> exists c, c ∈ cs
      /\ TramitationHistory.entry x ∈ JS.orEmpty (CaseData.tramitationLog c)
      /\ TramitationHistory.processoNumero x = CaseData.processoNumero c
      /\ TramitationHistory.caseId x = CaseData.id c.
Proof.
  induction cs as [|c cs IH].
  - split; [intros H; by apply not_elem_of_nil in H|].
    intros [c [Hc _]]. by apply not_elem_of_nil in Hc.
  - rewrite flatHistory_cons, elem_of_app, IH, elem_of_map. split.
    + intros [[log [-> Hlog]] | [c' [Hc' H]]].
      * exists c. split; [by left | done].
      * exists c'. split; [by right | done].
    + intros [c' [Hc' (Hlog & Hpn & Hid)]].
      apply elem_of_cons in Hc' as [-> | Hc'].
      * left. exists (TramitationHistory.entry x). split; [|done].
        destruct x as [e p i]. cbn in *. by subst.
      * right. by exists c'.
Qed.

Lemma flatHistory_extended (f : CaseData.t -> CaseData.t) (cs : list CaseData.t) :
  (forall c, CaseData.id (f c) = CaseData.id c
             /\ CaseData.processoNumero (f c) = CaseData.processoNumero c
             /\ exists added, JS.orEmpty (CaseData.tramitationLog (f c))
                              = JS.orEmpty (CaseData.tramitationLog c) ++ added) ->
  TramitationHistory.flatHistory cs `sublist_of` TramitationHistory.flatHistory (map f cs).
Proof.
  intros Hf. induction cs as [|c cs IH]; [done|].
  cbn [map]. rewrite !flatHistory_cons.
  destruct (Hf c) as (-> & -> & added & ->).
  rewrite map_app. apply sublist_app; [|exact IH].
  by apply sublist_inserts_r.
Qed.

(** X16. The flattened history lists, store order first and log order
    second, every log entry of every stored case with the process number
    and the id of its case, and nothing else; its length is the sum of the
    lengths of the logs.  Adding a case puts one entry, that of its
    creation, in front of the history; deleting a case removes the entries
    of that id and no other. *)
Theorem X16_flat_history_follows_the_store
    (currentUser : User.t) (nowISO : jsstring) (st : App.State) :
  (forall x, x ∈ TramitationHistory.flatHistory (App.cases st)
     <-> exists c, c ∈ App.cases st
         /\ TramitationHistory.entry x ∈ JS.orEmpty (CaseData.tramitationLog c)
         /\ TramitationHistory.processoNumero x = CaseData.processoNumero c
         /\ TramitationHistory.caseId x = CaseData.id c)
  /\ length (TramitationHistory.flatHistory (App.cases st))
     = sum_list (map (fun c => length (JS.orEmpty (CaseData.tramitationLog c)))
                   (App.cases st))
  /\ (forall newCase,
        ~ processNumberTaken (CaseFields.processoNumero newCase) (App.cases st) ->
        TramitationHistory.flatHistory
          (App.cases (App.handleAddCase currentUser nowISO newCase st))
        = {| TramitationHistory.entry :=
               {| TramitationEntry.fromUser := User.name currentUser;
                  TramitationEntry.toUser := CaseFields.name newCase;
                  TramitationEntry.timestamp := nowISO;
                  TramitationEntry.deadline := CaseFields.prazoDeterminado newCase |};
             TramitationHistory.processoNumero := CaseFields.processoNumero newCase;
             TramitationHistory.caseId := JSNumber.increment (App.lastCaseId st) |}
          :: TramitationHistory.flatHistory (App.cases st))
  /\ (forall caseId,
        TramitationHistory.flatHistory (App.cases (AppCases.handleDeleteCase caseId st))
        = List.filter (fun x => negb (TramitationHistory.caseId x =? caseId))
            (TramitationHistory.flatHistory (App.cases st))).
Proof.
  split; [intros x; apply flatHistory_elem_of|]. split; [|split].
  - induction (App.cases st) as [|c cs IH]; [done|].
    rewrite flatHistory_cons, length_app, length_map, IH. done.
  - intros newCase Hfree.
    rewrite (handleAddCase_accepted currentUser nowISO newCase st Hfree).
    cbn [App.cases]. by rewrite flatHistory_cons.
  - intros caseId. unfold AppCases.handleDeleteCase. cbn [App.setCases App.cases].
    induction (App.cases st) as [|c cs IH]; [done|].
    rewrite flatHistory_cons, List.filter_app, <- IH. cbn [List.filter].
    destruct (negb (CaseData.id c =? caseId)) eqn:Hid.
    + rewrite flatHistory_cons. f_equal. symmetry. apply filterb_all.
      intros x Hx. apply elem_of_map in Hx as [log [-> _]]. exact Hid.
    + rewrite (filterb_none (fun x => negb (TramitationHistory.caseId x =? caseId))
                 (map _ _)); [done|].
      intros x Hx. apply elem_of_map in Hx as [log [-> _]]. exact Hid.
Qed.

Lemma X16_witness :
  ~ processNumberTaken (CaseFields.processoNumero (draftOf "789-C" "Bob" "2024-07-01"))
      (App.cases twoCaseStore)
  /\ length (TramitationHistory.flatHistory
               (App.cases (App.handleAddCase admin sampleClock
                             (draftOf "789-C" "Bob" "2024-07-01") twoCaseStore)))
     = 3%nat.
Proof.
  split; [exact twoCaseStore_free|].
  destruct (X16_flat_history_follows_the_store admin sampleClock twoCaseStore)
    as (_ & _ & Hadd & _).
  rewrite (Hadd (draftOf "789-C" "Bob" "2024-07-01") twoCaseStore_free).
  reflexivity.
Defined.

(** X17. A tramitation, an attachment and an import never remove or change
    an entry of the history: the history before is a sublist of the history
    after (for an attachment it is the same, for an import the new entries
    come after the old ones). *)
Theorem X17_history_is_only_extended
    (P : Platform) (currentUser : User.t) (nowISO : jsstring) (nowMs : Z)
    (st : App.State) :
  (forall caseId toUserName deadline attachmentFile reader,
     TramitationHistory.flatHistory (App.cases st)
     `sublist_of`
     TramitationHistory.flatHistory
       (App.cases (App.handleTramitateCase currentUser nowISO nowMs caseId toUserName
                     deadline attachmentFile reader st)))
  /\ (forall caseId file reader,
        TramitationHistory.flatHistory
          (App.cases (fst (AppCases.handleAddAttachment currentUser nowISO nowMs caseId
                             file reader st)))
        = TramitationHistory.flatHistory (App.cases st))
  /\ (forall rows,
        TramitationHistory.flatHistory (App.cases (App.handleImportCases P nowISO rows st))
        = TramitationHistory.flatHistory (App.cases st)
          ++ TramitationHistory.flatHistory
               (App.successfulImports (App.importLoop P nowISO rows st))).
Proof.
  split; [|split].
  - intros caseId toUserName deadline attachmentFile reader.
    destruct (handleTramitateCase_cases currentUser nowISO nowMs caseId toUserName
                deadline attachmentFile reader st) as [-> | [content ->]]; [done|].
    apply flatHistory_extended. intros c.
    destruct (tramitateOne_keeps_identity currentUser nowISO nowMs caseId toUserName
                deadline (App.users st) attachmentFile content c)
      as (Hid & _ & Hpn & Hlog).
    done.
  - intros caseId file reader. unfold AppCases.handleAddAttachment.
    destruct (_ <? _); [done|].
    destruct reader as [[[|k content]|]|]; try done.
    cbn [fst App.setCases App.cases].
    induction (App.cases st) as [|c cs IH]; [done|].
    cbn [map]. rewrite !flatHistory_cons, IH. f_equal.
    by destruct (CaseData.id c =? caseId).
  - intros rows. rewrite handleImportCases_state. cbn [App.cases].
    apply flatHistory_app.
Qed.

(** The bulk update is not of this kind: it replaces the log of a case by
    whatever log the caller passes. *)
Remark bulk_update_can_erase_history :
  let blank := {| CaseData.id := 1; CaseData.id2 := JS.lit "MST00001";
                  CaseData.fields := DEFAULT_CASE_DATA |} in
  length (TramitationHistory.flatHistory (App.cases twoCaseStore)) = 2%nat
  /\ length (TramitationHistory.flatHistory
               (App.cases (App.handleUpdateMultipleCases [blank] twoCaseStore))) = 1%nat.
Proof. by vm_compute. Qed.

(* ===================================================================== *)
(** ** Users and the session *)
(* ===================================================================== *)

(** Replacing the elements of one id by [u] keeps the ids, and keeps the
    keys distinct when no element of another id has the key of [u]. *)
Lemma replace_keeps_NoDup {A K : Type} (idf : A -> Z) (key : A -> K) (u : A)
    (l : list A) :
  NoDup (map idf l) -> NoDup (map key l) ->
  (forall x, x ∈ l -> idf x <> idf u -> key x <> key u) ->
  map idf (map (fun x => if idf x =? idf u then u else x) l) = map idf l
  /\ NoDup (map key (map (fun x => if idf x =? idf u then u else x) l)).
Proof.
  intros Hids Hkeys Hfree. split.
  - rewrite map_map. apply map_ext. intros x.
    destruct (idf x =? idf u) eqn:E; [|done]. apply Z.eqb_eq in E. done.
  - induction l as [|x l IH]; [constructor|].
    cbn [map] in *. apply NoDup_cons in Hids as [Hid Hids].
    apply NoDup_cons in Hkeys as [Hkey Hkeys].
    specialize (IH Hids Hkeys (fun y Hy => Hfree y (list_elem_of_further _ _ _ Hy))).
    apply NoDup_cons. split; [|exact IH].
    intros Hin. apply elem_of_map in Hin as [y' [Ekey Hy']].
    apply elem_of_map in Hy' as [y [-> Hy]].
    destruct (idf x =? idf u) eqn:Ex; destruct (idf y =? idf u) eqn:Ey.
    + apply Z.eqb_eq in Ex, Ey. apply Hid. apply elem_of_map. exists y.
      split; [congruence | done].
    + apply Z.eqb_neq in Ey.
      apply (Hfree y (list_elem_of_further _ _ _ Hy) Ey). done.
    + apply Z.eqb_neq in Ex.
      apply (Hfree x (list_elem_of_here _ _) Ex). done.
    + apply Hkey. apply elem_of_map. by exists y.
Qed.

Lemma find_first {A} (f : A -> bool) (l : list A) (x : A) :
  List.find f l = Some x ->
  f x = true /\ exists l1 l2, l = l1 ++ x :: l2 /\ forall y, y ∈ l1 -> f y = false.
Proof.
  induction l as [|a l IH]; [done|]. cbn [List.find].
  destruct (f a) eqn:Ea.
  - intros [= ->]. split; [done|]. exists [], l. split; [done|].
    intros y Hy. by apply not_elem_of_nil in Hy.
  - intros H. destruct (IH H) as [Hx (l1 & l2 & -> & Hl1)]. split; [done|].
    exists (a :: l1), l2. split; [done|].
    intros y Hy. apply elem_of_cons in Hy as [-> | Hy]; [done | by apply Hl1].
Qed.

Lemma find_none_elem_of {A} (f : A -> bool) (l : list A) :
  List.find f l = None <-> forall y, y ∈ l -> f y = false.
Proof.
  induction l as [|a l IH]; cbn [List.find].
  - split; [|done]. intros _ y Hy. by apply not_elem_of_nil in Hy.
  - destruct (f a) eqn:Ea.
    + split; [done|]. intros H. specialize (H a (list_elem_of_here _ _)). congruence.
    + rewrite IH. split.
      * intros H y Hy. apply elem_of_cons in Hy as [-> | Hy]; [done | by apply H].
      * intros H y Hy. apply H. by right.
Qed.

Lemma existsb_elem_of {A} (f : A -> bool) (l : list A) :
  existsb f l = true <-> exists x, x ∈ l /\ f x = true.
Proof.
  rewrite existsb_exists. split; intros [x [Hx Hf]]; exists x;
    (split; [by apply list_elem_of_In | done]).
Qed.

Lemma existsb_none {A} (f : A -> bool) (l : list A) :
  existsb f l = false <-> forall x, x ∈ l -> f x = false.
Proof.
  split.
  - intros H x Hx. destruct (f x) eqn:Hf; [|done].
    assert (existsb f l = true) by (apply existsb_elem_of; eauto). congruence.
  - intros H. destruct (existsb f l) eqn:E; [|done].
    apply existsb_elem_of in E as [x [Hx Hf]]. rewrite (H x Hx) in Hf. done.
Qed.

Lemma credentials_test (P : Platform) (email password : jsstring) (u : User.t) :
  bool_decide (toLowerCase P (User.email u) = toLowerCase P email)
  && bool_decide (User.password u = Some password) = true
  <-> credentialsOf P email password u.
Proof.
  unfold credentialsOf. by rewrite andb_true_iff, !bool_decide_eq_true.
Qed.

(** X19. In a list of users with pairwise distinct ids, none above the id
    counter, and pairwise distinct emails up to surrounding white space and
    letter case, the three user handlers keep all of that, as long as the
    counter is in the range where [++] counts by ones (below 2^53 in
    magnitude).  An added user
    whose email, so compared, is that of a stored user is rejected, and so
    is an update to the email of another user; a rejection only shows an
    alert.  An accepted user is put at the end of the list with the next id
    of the counter.  None of the three changes the logged-in user. *)
Theorem X19_users_stay_well_formed (P : Platform) (st : AppUsers.State) :
  usersWellFormed P st ->
  counterInRange (AppUsers.lastUserId st) ->
  (forall newUser, usersWellFormed P (AppUsers.handleAddUser P newUser st))
  /\ (forall updatedUser, usersWellFormed P (AppUsers.handleUpdateUser P updatedUser st))
  /\ (forall userId, usersWellFormed P (AppUsers.handleDeleteUser userId st))
  /\ (forall newUser,
        (exists u, u ∈ AppUsers.users st
                   /\ emailKey P (User.email u) = emailKey P (UserFields.email newUser)) ->
        AppUsers.handleAddUser P newUser st
        = AppUsers.alert (AlertEmailRegistered (UserFields.email newUser)) st)
  /\ (forall newUser,
        (forall u, u ∈ AppUsers.users st ->
                   emailKey P (User.email u) <> emailKey P (UserFields.email newUser)) ->
        AppUsers.users (AppUsers.handleAddUser P newUser st)
        = AppUsers.users st
          ++ [ {| User.id := AppUsers.lastUserId st + 1;
                  User.name := UserFields.name newUser;
                  User.email := UserFields.email newUser;
                  User.password := UserFields.password newUser;
                  User.permission := UserFields.permission newUser |} ]
        /\ AppUsers.lastUserId (AppUsers.handleAddUser P newUser st)
           = AppUsers.lastUserId st + 1)
  /\ (forall updatedUser,
        (exists u, u ∈ AppUsers.users st /\ User.id u <> User.id updatedUser
                   /\ emailKey P (User.email u) = emailKey P (User.email updatedUser)) ->
        AppUsers.handleUpdateUser P updatedUser st
        = AppUsers.alert (AlertEmailOfOtherUser (User.email updatedUser)) st)
  /\ (forall newUser updatedUser userId,
        AppUsers.currentUser (AppUsers.handleAddUser P newUser st) = AppUsers.currentUser st
        /\ AppUsers.currentUser (AppUsers.handleUpdateUser P updatedUser st)
           = AppUsers.currentUser st
        /\ AppUsers.currentUser (AppUsers.handleDeleteUser userId st)
           = AppUsers.currentUser st).
Proof.
  intros (Hids & Hbelow & Hemails) Hrange.
  assert (Hadd : forall newUser,
            existsb (fun u => bool_decide (toLowerCase P (JS.trim (User.email u))
                                = toLowerCase P (JS.trim (UserFields.email newUser))))
              (AppUsers.users st) = true
            <-> exists u, u ∈ AppUsers.users st
                  /\ emailKey P (User.email u) = emailKey P (UserFields.email newUser)).
  { intros newUser. rewrite existsb_elem_of. unfold emailKey.
    split; intros [u [Hu H]]; exists u; (split; [done|]).
    - by apply bool_decide_eq_true in H.
    - by apply bool_decide_eq_true. }
  assert (Hupd : forall updatedUser,
            existsb (fun u => negb (User.id u =? User.id updatedUser)
                       && bool_decide (toLowerCase P (JS.trim (User.email u))
                                = toLowerCase P (JS.trim (User.email updatedUser))))
              (AppUsers.users st) = true
            <-> exists u, u ∈ AppUsers.users st /\ User.id u <> User.id updatedUser
                  /\ emailKey P (User.email u) = emailKey P (User.email updatedUser)).
  { intros updatedUser. rewrite existsb_elem_of. unfold emailKey.
    split; intros [u [Hu H]]; exists u; (split; [done|]).
    - apply andb_true_iff in H as [Hid He]. apply negb_true_iff, Z.eqb_neq in Hid.
      by apply bool_decide_eq_true in He.
    - destruct H as [Hid He]. apply andb_true_iff. split.
      + by apply negb_true_iff, Z.eqb_neq.
      + by apply bool_decide_eq_true. }
  split; [|split; [|split; [|split; [|split; [|split]]]]].
  - intros newUser. unfold AppUsers.handleAddUser.
    rewrite (increment_exact _ Hrange).
    destruct (existsb _ _) eqn:E; [done|].
    assert (Hfree : forall u, u ∈ AppUsers.users st ->
              emailKey P (User.email u) <> emailKey P (UserFields.email newUser)).
    { intros u Hu Heq. assert (H : existsb (fun u => bool_decide
                (toLowerCase P (JS.trim (User.email u))
                 = toLowerCase P (JS.trim (UserFields.email newUser))))
                (AppUsers.users st) = true) by (apply Hadd; eauto).
      congruence. }
    unfold usersWellFormed. cbn [AppUsers.users AppUsers.lastUserId].
    rewrite !map_app. cbn [map User.id User.email]. split; [|split].
    + apply NoDup_app. split; [done|]. split; [|apply NoDup_singleton].
      intros x Hx Hx'. apply list_elem_of_singleton in Hx'. subst x.
      apply elem_of_map in Hx as [u [Heq Hu]]. specialize (Hbelow u Hu). lia.
    + intros u Hu. apply elem_of_app in Hu as [Hu | Hu].
      * specialize (Hbelow u Hu). lia.
      * apply list_elem_of_singleton in Hu. subst u. cbn. lia.
    + apply NoDup_app. split; [done|]. split; [|apply NoDup_singleton].
      intros x Hx Hx'. apply list_elem_of_singleton in Hx'. subst x.
      apply elem_of_map in Hx as [u [Heq Hu]]. by apply (Hfree u Hu).
  - intros updatedUser. unfold AppUsers.handleUpdateUser.
    destruct (existsb _ _) eqn:E; [done|].
    assert (Hfree : forall u, u ∈ AppUsers.users st -> User.id u <> User.id updatedUser ->
              emailKey P (User.email u) <> emailKey P (User.email updatedUser)).
    { intros u Hu Hid Heq. assert (H : existsb (fun u =>
                negb (User.id u =? User.id updatedUser)
                && bool_decide (toLowerCase P (JS.trim (User.email u))
                     = toLowerCase P (JS.trim (User.email updatedUser))))
                (AppUsers.users st) = true) by (apply Hupd; eauto).
      congruence. }
    destruct (replace_keeps_NoDup User.id (fun u => emailKey P (User.email u))
                updatedUser (AppUsers.users st) Hids Hemails Hfree) as [Hsame Hnodup].
    unfold usersWellFormed. cbn [AppUsers.setUsers AppUsers.users AppUsers.lastUserId].
    split; [by rewrite Hsame|]. split; [|exact Hnodup].
    intros u Hu. assert (H : User.id u ∈ map User.id (AppUsers.users st)).
    { rewrite <- Hsame. apply elem_of_map. by exists u. }
    apply elem_of_map in H as [u0 [-> Hu0]]. by apply Hbelow.
  - intros userId. unfold usersWellFormed, AppUsers.handleDeleteUser.
    cbn [AppUsers.setUsers AppUsers.users AppUsers.lastUserId]. split; [|split].
    + exact (sublist_NoDup _ _ Hids (map_filterb_sublist _ _ _)).
    + intros u Hu. apply elem_of_filterb in Hu as [Hu _]. by apply Hbelow.
    + exact (sublist_NoDup _ _ Hemails (map_filterb_sublist _ _ _)).
  - intros newUser Htaken. unfold AppUsers.handleAddUser.
    rewrite (increment_exact _ Hrange).
    by rewrite (proj2 (Hadd newUser) Htaken).
  - intros newUser Hfree. unfold AppUsers.handleAddUser.
    rewrite (increment_exact _ Hrange).
    destruct (existsb _ _) eqn:E; [|done].
    apply Hadd in E as [u [Hu Heq]]. by destruct (Hfree u Hu).
  - intros updatedUser Htaken. unfold AppUsers.handleUpdateUser.
    by rewrite (proj2 (Hupd updatedUser) Htaken).
  - intros newUser updatedUser userId.
    unfold AppUsers.handleAddUser, AppUsers.handleUpdateUser, AppUsers.handleDeleteUser.
    split; [|split]; [by destruct (existsb _ _) | by destruct (existsb _ _) | done].
Qed.

Lemma sampleUsers_wellFormed : usersWellFormed platformUTC sampleUsers.
Proof.
  split; [|split].
  - apply (bool_decide_unpack _). vm_compute. exact I.
  - intros u Hu. unfold sampleUsers in Hu. cbn [AppUsers.users] in Hu.
    repeat (apply elem_of_cons in Hu as [-> | Hu]; [vm_compute; discriminate|]).
    by apply not_elem_of_nil in Hu.
  - apply (bool_decide_unpack _). vm_compute. exact I.
Qed.

Lemma X19_witness :
  (usersWellFormed platformUTC sampleUsers
   /\ counterInRange (AppUsers.lastUserId sampleUsers))
  /\ usersWellFormed platformUTC
       (AppUsers.handleAddUser platformUTC
          {| UserFields.name := JS.lit "Carol"; UserFields.email := JS.lit " ALICE@example.com";
             UserFields.password := None; UserFields.permission := user |}
          sampleUsers).
Proof.
  assert (Hrange : counterInRange (AppUsers.lastUserId sampleUsers))
    by (vm_compute; split; [discriminate | reflexivity]).
  split; [split; [exact sampleUsers_wellFormed | exact Hrange]|].
  destruct (X19_users_stay_well_formed platformUTC sampleUsers sampleUsers_wellFormed
              Hrange) as [Hadd _].
  apply Hadd.
Defined.

(** X20. [handleLogin] logs in the first stored user whose email is the
    one typed up to letter case (surrounding white space counts) and whose
    stored password is the one typed: it clears the error and opens the
    dashboard for an administrator and the spreadsheet for anyone else.
    When there is no such user it sets the error and keeps the logged-in
    user and the tab; in particular a user stored without password cannot
    log in.  The list of users is never changed; logging out after a
    successful login and logging in again with the same credentials gives
    the same session; and deleting the logged-in user from the list does
    not log them out. *)
Theorem X20_login_picks_first_matching_user
    (P : Platform) (email password : jsstring) (st : AppUsers.State) :
  let st' := AppUsers.handleLogin P email password st in
  AppUsers.users st' = AppUsers.users st
  /\ AppUsers.lastUserId st' = AppUsers.lastUserId st
  /\ ((exists u, u ∈ AppUsers.users st /\ credentialsOf P email password u) ->
      exists u before after,
        AppUsers.currentUser st' = Some u
        /\ credentialsOf P email password u
        /\ AppUsers.users st = before ++ u :: after
        /\ (forall v, v ∈ before -> ~ credentialsOf P email password v)
        /\ AppUsers.loginError st' = None
        /\ AppUsers.activeTab st'
           = match User.permission u with adm => TabDashboard | user => TabSpreadsheet end)
  /\ ((forall u, u ∈ AppUsers.users st -> ~ credentialsOf P email password u) ->
      AppUsers.currentUser st' = AppUsers.currentUser st
      /\ AppUsers.loginError st' = Some AppUsers.invalidCredentials
      /\ AppUsers.activeTab st' = AppUsers.activeTab st)
  /\ (forall u, AppUsers.currentUser st' = Some u ->
        AppUsers.currentUser st = Some u \/ User.password u = Some password)
  /\ ((exists u, u ∈ AppUsers.users st /\ credentialsOf P email password u) ->
      AppUsers.currentUser (AppUsers.handleLogout st') = None
      /\ AppUsers.handleLogin P email password (AppUsers.handleLogout st') = st')
  /\ (forall u, AppUsers.currentUser st' = Some u ->
        AppUsers.currentUser (AppUsers.handleDeleteUser (User.id u) st') = Some u
        /\ u ∉ AppUsers.users (AppUsers.handleDeleteUser (User.id u) st')).
Proof.
  intros st'. unfold st', AppUsers.handleLogin.
  destruct (List.find _ (AppUsers.users st)) as [found|] eqn:Hfind.
  - pose proof Hfind as Hfind0.
    apply find_first in Hfind as [Hcred (before & after & Hsplit & Hbefore)].
    apply credentials_test in Hcred.
    cbn [AppUsers.users AppUsers.lastUserId AppUsers.currentUser AppUsers.loginError
         AppUsers.activeTab].
    split; [done|]. split; [done|]. split; [|split; [|split; [|split]]].
    + intros _. exists found, before, after. repeat split; try done.
      * apply Hcred.
      * apply Hcred.
      * intros v Hv Hc. apply credentials_test in Hc. rewrite (Hbefore v Hv) in Hc. done.
    + intros Hnone. destruct (Hnone found); [|done].
      rewrite Hsplit. apply elem_of_app. right. by left.
    + intros u [= <-]. right. apply Hcred.
    + intros _. split; [done|]. unfold AppUsers.handleLogout, AppUsers.handleLogin.
      cbn [AppUsers.users]. by rewrite Hfind0.
    + intros u [= <-]. split; [done|].
      unfold AppUsers.handleDeleteUser. cbn [AppUsers.setUsers AppUsers.users].
      intros Hin. apply elem_of_filterb in Hin as [_ Hne].
      apply negb_true_iff, Z.eqb_neq in Hne. done.
  - cbn [AppUsers.users AppUsers.lastUserId AppUsers.currentUser AppUsers.loginError
         AppUsers.activeTab].
    split; [done|]. split; [done|]. split; [|split; [|split; [|split]]].
    + intros [u [Hu Hc]]. apply credentials_test in Hc.
      rewrite (proj1 (find_none_elem_of _ _) Hfind u Hu) in Hc. done.
    + done.
    + intros u Hu. by left.
    + intros [u [Hu Hc]]. apply credentials_test in Hc.
      rewrite (proj1 (find_none_elem_of _ _) Hfind u Hu) in Hc. done.
    + intros u Hu. split; [done|].
      unfold AppUsers.handleDeleteUser. cbn [AppUsers.setUsers AppUsers.users].
      intros Hin. apply elem_of_filterb in Hin as [_ Hne].
      apply negb_true_iff, Z.eqb_neq in Hne. done.
Qed.

Lemma X20_witness :
  (exists u, u ∈ AppUsers.users sampleUsers
             /\ credentialsOf platformUTC (JS.lit "ADMIN@example.com") (JS.lit "secret") u)
  /\ AppUsers.activeTab
       (AppUsers.handleLogin platformUTC (JS.lit "ADMIN@example.com") (JS.lit "secret")
          sampleUsers)
     = TabDashboard.
Proof.
  assert (Hex : exists u, u ∈ AppUsers.users sampleUsers
             /\ credentialsOf platformUTC (JS.lit "ADMIN@example.com") (JS.lit "secret") u).
  { eexists. split; [by left|]. split; vm_compute; reflexivity. }
  split; [exact Hex|].
  destruct (X20_login_picks_first_matching_user platformUTC
              (JS.lit "ADMIN@example.com") (JS.lit "secret") sampleUsers)
    as (_ & _ & Hok & _).
  destruct (Hok Hex) as (u & before & after & Hcur & _ & _ & _ & _ & Htab).
  rewrite Htab. vm_compute in Hcur. injection Hcur as <-. reflexivity.
Defined.

(* ===================================================================== *)
(** ** The Kanban board *)
(* ===================================================================== *)

Lemma parseInt10_digits (ds : jsstring) :
  Forall isDigit ds -> ds <> [] ->
  KanbanBoard.parseInt10 ds = Some (readDigits 0 ds).
Proof.
  intros Hall Hne.
  pose proof (digitsPrefix_digits ds None Hall Hne) as Hval. cbn [default] in Hval.
  unfold KanbanBoard.parseInt10. destruct ds as [|c s]; [done|].
  apply Forall_cons in Hall as [Hc Hs].
  assert (Hws : JS.isWhiteSpace c = false).
  { unfold JS.isWhiteSpace. destruct Hc as [H1 H2].
    repeat match goal with
           | |- context [(?a <=? ?b)%N] => destruct (N.leb_spec a b); try lia
           | |- context [(?a =? ?b)%N] => destruct (N.eqb_spec a b); try lia
           end; reflexivity. }
  cbn [JS.trimStart]. rewrite Hws.
  assert (Hsign : c <> 45%N /\ c <> 43%N) by (unfold isDigit in Hc; lia).
  assert (Hshape :
    (match c :: s with
     | 45%N :: r => (-1, r)
     | 43%N :: r => (1, r)
     | _ => (1, c :: s)
     end) = (1, c :: s)).
  { destruct Hsign as [Hm Hp]. destruct c as [|p]; [reflexivity|].
    do 6 (destruct p as [p|p|]; try reflexivity); exfalso; lia. }
  rewrite Hshape, Hval. cbn. f_equal. lia.
Qed.

(** The id set by [handleDragStart] is the id read by [handleDrop]. *)
Lemma parseInt10_handleDragStart (n : Z) :
  0 <= n -> KanbanBoard.parseInt10 (KanbanBoard.handleDragStart n) = Some n.
Proof.
  intros Hn. destruct (String_digits n Hn) as (Hall & Hne & Hread).
  unfold KanbanBoard.handleDragStart. by rewrite parseInt10_digits, Hread.
Qed.

Lemma NoDup_map_eq {A B} (f : A -> B) (l : list A) (x y : A) :
  NoDup (map f l) -> x ∈ l -> y ∈ l -> f x = f y -> x = y.
Proof.
  induction l as [|a l IH]; intros Hnd Hx Hy Heq; [by apply not_elem_of_nil in Hx|].
  cbn [map] in Hnd. apply NoDup_cons in Hnd as [Ha Hnd].
  apply elem_of_cons in Hx as [-> | Hx]; apply elem_of_cons in Hy as [-> | Hy].
  - done.
  - destruct Ha. rewrite Heq. apply elem_of_map. by exists y.
  - destruct Ha. rewrite <- Heq. apply elem_of_map. by exists x.
  - by apply IH.
Qed.

Lemma find_by_id (cs : list CaseData.t) (c : CaseData.t) :
  uniqueIds cs -> c ∈ cs ->
  List.find (fun c' => CaseData.id c' =? CaseData.id c) cs = Some c.
Proof.
  intros Huniq Hc.
  destruct (List.find _ cs) as [c'|] eqn:Hfind.
  - apply find_first in Hfind as [Hid (l1 & l2 & Hsplit & _)].
    apply Z.eqb_eq in Hid. f_equal.
    apply (NoDup_map_eq CaseData.id cs); [done | | done | done].
    rewrite Hsplit. apply elem_of_app. right. by left.
  - rewrite find_none_elem_of in Hfind. specialize (Hfind c Hc).
    by rewrite Z.eqb_refl in Hfind.
Qed.

Lemma handleDrop_found (groupBy : GroupBy) (cs : list CaseData.t) (us : list User.t)
    (c : CaseData.t) (newColumnValue : jsstring) :
  uniqueIds cs -> c ∈ cs -> 0 <= CaseData.id c ->
  KanbanBoard.handleDrop groupBy cs us (KanbanBoard.handleDragStart (CaseData.id c))
    newColumnValue
  = KanbanBoard.handleDrop groupBy [c] us (KanbanBoard.handleDragStart (CaseData.id c))
      newColumnValue.
Proof.
  intros Huniq Hc Hid. unfold KanbanBoard.handleDrop.
  rewrite (parseInt10_handleDragStart _ Hid), (find_by_id cs c Huniq Hc).
  cbn [List.find]. by rewrite Z.eqb_refl.
Qed.

Lemma unassigned_test (c : CaseData.t) :
  negb (KanbanBoard.truthy (CaseData.name c))
  || bool_decide (CaseData.name c = App.ownerMsTributario) = true
  <-> unassigned c.
Proof.
  unfold unassigned. rewrite orb_true_iff, bool_decide_eq_true.
  destruct (CaseData.name c); cbn; split; intros [H | H]; auto; done.
Qed.

(** X21. On the board grouped by assignee, dropping the card of a stored
    case (found by the id that the drag put in the transfer data) on the
    column value it already has, or on 'N/D' when it has no assignee, does
    nothing.  Otherwise the handler asks for one update: the case with the
    new assignee ('Ms Tributário' for 'N/D') and the email of the first user
    of that name, empty when there is none, and every other field, the log
    and the co-responsible among them, as stored. *)
Theorem X21_drop_on_assignee_column
    (cs : list CaseData.t) (us : list User.t) (c : CaseData.t)
    (newColumnValue : jsstring) :
  uniqueIds cs -> c ∈ cs -> 0 <= CaseData.id c ->
  let r := KanbanBoard.handleDrop ByName cs us
             (KanbanBoard.handleDragStart (CaseData.id c)) newColumnValue in
  let target := if bool_decide (newColumnValue = KanbanBoard.ND)
                then App.ownerMsTributario else newColumnValue in
  (CaseData.name c = newColumnValue -> r = KanbanBoard.noUpdate)
  /\ (unassigned c -> newColumnValue = KanbanBoard.ND -> r = KanbanBoard.noUpdate)
  /\ (CaseData.name c <> newColumnValue ->
      ~ (unassigned c /\ newColumnValue = KanbanBoard.ND) ->
      r = KanbanBoard.onUpdateCase (reassigned target (emailOfUserNamed us target) c))
  /\ (forall data, KanbanBoard.parseInt10 data = None ->
        KanbanBoard.handleDrop ByName cs us data newColumnValue = KanbanBoard.noUpdate).
Proof.
  intros Huniq Hc Hid r target. unfold r.
  rewrite (handleDrop_found ByName cs us c newColumnValue Huniq Hc Hid).
  unfold KanbanBoard.handleDrop.
  rewrite (parseInt10_handleDragStart _ Hid). cbn [List.find]. rewrite Z.eqb_refl.
  split; [|split; [|split]].
  - intros Hsame. rewrite (bool_decide_eq_true_2 _ Hsame). by rewrite orb_true_r.
  - intros Hun Hnd. apply unassigned_test in Hun. rewrite Hun.
    by rewrite (bool_decide_eq_true_2 _ Hnd).
  - intros Hdiff Hnot. rewrite (bool_decide_eq_false_2 _ Hdiff), orb_false_r.
    destruct (_ && _) eqn:E.
    + apply andb_true_iff in E as [Hun Hnd]. destruct Hnot.
      split; [by apply unassigned_test | by apply bool_decide_eq_true in Hnd].
    + done.
  - intros data Hdata. by rewrite Hdata.
Qed.

Lemma X21_witness :
  (uniqueIds (App.cases twoCaseStore) /\ storedCase1 ∈ App.cases twoCaseStore
   /\ 0 <= CaseData.id storedCase1)
  /\ KanbanBoard.handleDrop ByName (App.cases twoCaseStore) (App.users twoCaseStore)
       (JS.lit "1") (JS.lit "Bob")
     = KanbanBoard.onUpdateCase
         (reassigned (JS.lit "Bob") (JS.lit "bob@example.com") storedCase1).
Proof.
  assert (Hin : storedCase1 ∈ App.cases twoCaseStore)
    by (rewrite twoCaseStore_cases; right; left).
  assert (Hid : 0 <= CaseData.id storedCase1) by (vm_compute; discriminate).
  split; [split; [exact (proj1 twoCaseStore_unique) | by split]|].
  destruct (X21_drop_on_assignee_column (App.cases twoCaseStore) (App.users twoCaseStore)
              storedCase1 (JS.lit "Bob") (proj1 twoCaseStore_unique) Hin Hid)
    as (_ & _ & Hmove & _).
  apply Hmove.
  - vm_compute. discriminate.
  - intros [_ H]. vm_compute in H. discriminate.
Defined.

Lemma update_of_stored_number_ok (st : App.State) (c c' : CaseData.t) :
  uniqueProcessNumbers (App.cases st) -> c ∈ App.cases st ->
  CaseData.id c' = CaseData.id c ->
  CaseData.processoNumero c' = CaseData.processoNumero c ->
  ~ processNumberOfOtherCase c' (App.cases st).
Proof.
  intros Huniq Hc Hid Hpn (c0 & Hc0 & Hne & Heq).
  rewrite Hpn in Heq. apply Hne. rewrite Hid. f_equal.
  exact (NoDup_map_eq _ _ c0 c Huniq Hc0 Hc Heq).
Qed.

Lemma update_keeps_other_positions (currentUser : User.t) (nowISO : jsstring)
    (st : App.State) (c c' c0 : CaseData.t) (i j : nat) :
  uniqueIds (App.cases st) ->
  ~ processNumberOfOtherCase c' (App.cases st) ->
  App.cases st !! i = Some c -> CaseData.id c' = CaseData.id c ->
  j <> i -> App.cases st !! j = Some c0 ->
  App.cases (App.handleUpdateCase currentUser nowISO c' st) !! j = Some c0.
Proof.
  intros Huniq Hok Hi Hid Hji Hj.
  rewrite (handleUpdateCase_accepted currentUser nowISO c' st j Hok), Hj.
  cbn [fmap option_fmap option_map]. f_equal.
  destruct (CaseData.id c0 =? CaseData.id c') eqn:E; [|done].
  apply Z.eqb_eq in E. destruct Hji.
  apply (NoDup_lookup (map CaseData.id (App.cases st)) j i (CaseData.id c)); [done | |].
  - rewrite lookup_map, Hj. cbn. f_equal. congruence.
  - by rewrite lookup_map, Hi.
Qed.

(** X22. Moving a card to the column of another assignee is a tramitation:
    in a store with distinct ids and distinct process numbers, the update
    that the drop asks for is accepted by [handleUpdateCase], which gives
    the case the new assignee and the email of that user, appends one entry
    from the acting user to the new assignee to its log, keeps the
    co-responsible (or adopts the new assignee when there was none), and
    leaves the other cases as they were. *)
Theorem X22_drop_between_assignees_is_logged
    (currentUser : User.t) (nowISO : jsstring) (st : App.State)
    (c : CaseData.t) (target : jsstring) (i : nat) :
  uniqueIds (App.cases st) -> uniqueProcessNumbers (App.cases st) ->
  App.cases st !! i = Some c -> 0 <= CaseData.id c ->
  target <> KanbanBoard.ND -> CaseData.name c <> target ->
  exists c',
    KanbanBoard.handleDrop ByName (App.cases st) (App.users st)
      (KanbanBoard.handleDragStart (CaseData.id c)) target
    = KanbanBoard.onUpdateCase c'
    /\ exists c'',
        App.cases (App.handleUpdateCase currentUser nowISO c' st) !! i = Some c''
        /\ CaseData.name c'' = target
        /\ CaseData.email c'' = emailOfUserNamed (App.users st) target
        /\ CaseData.tramitationLog c''
           = Some (JS.orEmpty (CaseData.tramitationLog c)
                   ++ [ {| TramitationEntry.fromUser := User.name currentUser;
                           TramitationEntry.toUser := target;
                           TramitationEntry.timestamp := nowISO;
                           TramitationEntry.deadline := CaseData.prazoDeterminado c |} ])
        /\ CaseData.coResponsibleName c''
           = Some (JS.orString (CaseData.coResponsibleName c) target)
        /\ CaseData.id c'' = CaseData.id c /\ CaseData.id2 c'' = CaseData.id2 c
        /\ besidesAssignment (CaseFields.set_name [] (CaseData.fields c''))
           = besidesAssignment (CaseFields.set_name [] (CaseData.fields c))
        /\ forall j c0, j <> i -> App.cases st !! j = Some c0 ->
             App.cases (App.handleUpdateCase currentUser nowISO c' st) !! j = Some c0.
Proof.
  intros Huniq Hpns Hi Hid Hnd Hname.
  assert (Hc : c ∈ App.cases st) by (by apply list_elem_of_lookup_2 in Hi).
  set (c' := reassigned target (emailOfUserNamed (App.users st) target) c).
  assert (Hok : ~ processNumberOfOtherCase c' (App.cases st))
    by (by apply (update_of_stored_number_ok st c c')).
  exists c'. split.
  - unfold KanbanBoard.handleDrop.
    rewrite (parseInt10_handleDragStart _ Hid), (find_by_id _ c Huniq Hc).
    rewrite (bool_decide_eq_false_2 _ Hnd), (bool_decide_eq_false_2 _ Hname).
    by rewrite andb_false_r.
  - rewrite (handleUpdateCase_accepted currentUser nowISO c' st i Hok), Hi.
    cbn [fmap option_fmap option_map].
    change (CaseData.id c') with (CaseData.id c). rewrite Z.eqb_refl.
    change (CaseData.name c') with target.
    rewrite (bool_decide_eq_false_2 _ Hname).
    eexists. split; [reflexivity|].
    split; [done|]. split; [|split; [done|split; [done|split; [done|split; [done|split]]]]].
    + cbn. unfold emailOfUserNamed.
      destruct (profileOf (App.users st) target) as [u|]; [|done].
      cbn. by destruct (User.email u).
    + done.
    + intros j c0 Hji Hj.
      by apply (update_keeps_other_positions currentUser nowISO st c c' c0 i j).
Qed.

Lemma X22_witness :
  exists c'',
    App.cases (App.handleUpdateCase admin sampleClock
                 (reassigned (JS.lit "Bob") (JS.lit "bob@example.com") storedCase1)
                 twoCaseStore) !! 1%nat = Some c''
    /\ length (JS.orEmpty (CaseData.tramitationLog c'')) = 2%nat.
Proof.
  assert (Hi : App.cases twoCaseStore !! 1%nat = Some storedCase1)
    by (rewrite twoCaseStore_cases; reflexivity).
  destruct (X22_drop_between_assignees_is_logged admin sampleClock twoCaseStore
              storedCase1 (JS.lit "Bob") 1%nat
              (proj1 twoCaseStore_unique) (proj2 twoCaseStore_unique) Hi)
    as (c' & Hdrop & c'' & Hc'' & _ & _ & Hlog & _).
  - vm_compute. discriminate.
  - vm_compute. discriminate.
  - vm_compute. discriminate.
  - assert (Hc' : c' = reassigned (JS.lit "Bob") (JS.lit "bob@example.com") storedCase1).
    { vm_compute in Hdrop. injection Hdrop as <-. reflexivity. }
    subst c'. exists c''. split; [exact Hc''|]. by rewrite Hlog.
Defined.

(** X23. On a board grouped by status, phase, tribunal or co-responsible,
    dropping a card on the column value the case already has (with 'N/D'
    standing for an empty or absent value) does nothing; dropping it on
    another value, not 'N/D', asks for the case with that one field changed.
    [handleUpdateCase] then stores it as given: nothing is added to the log,
    the other cases are kept, and the card is in the column of the new
    value. *)
Theorem X23_drop_on_field_column
    (currentUser : User.t) (nowISO : jsstring) (st : App.State)
    (g : GroupBy) (c : CaseData.t) (v : jsstring) (i : nat) :
  g <> ByName ->
  uniqueIds (App.cases st) -> uniqueProcessNumbers (App.cases st) ->
  App.cases st !! i = Some c -> 0 <= CaseData.id c ->
  v <> KanbanBoard.ND -> v <> [] ->
  let r := KanbanBoard.handleDrop g (App.cases st) (App.users st)
             (KanbanBoard.handleDragStart (CaseData.id c)) v in
  (JS.orString (KanbanBoard.fieldOf g c) KanbanBoard.ND = v -> r = KanbanBoard.noUpdate)
  /\ (JS.orString (KanbanBoard.fieldOf g c) KanbanBoard.ND <> v ->
      r = KanbanBoard.onUpdateCase (KanbanBoard.assign g v c)
      /\ App.cases (App.handleUpdateCase currentUser nowISO (KanbanBoard.assign g v c) st) !! i
         = Some (KanbanBoard.assign g v c)
      /\ (forall j c0, j <> i -> App.cases st !! j = Some c0 ->
            App.cases (App.handleUpdateCase currentUser nowISO (KanbanBoard.assign g v c) st)
              !! j = Some c0)
      /\ CaseData.tramitationLog (KanbanBoard.assign g v c) = CaseData.tramitationLog c
      /\ CaseData.name (KanbanBoard.assign g v c) = CaseData.name c
      /\ KanbanBoard.columnCases g [KanbanBoard.assign g v c]
           {| KanbanBoard.id := v; KanbanBoard.name := v |}
         = [KanbanBoard.assign g v c]).
Proof.
  intros Hg Huniq Hpns Hi Hid Hnd Hv r.
  assert (Hc : c ∈ App.cases st) by (by apply list_elem_of_lookup_2 in Hi).
  assert (Hr : r = if negb (bool_decide (JS.orString (KanbanBoard.fieldOf g c) KanbanBoard.ND
                                         = v))
                   then KanbanBoard.onUpdateCase (KanbanBoard.assign g v c)
                   else KanbanBoard.noUpdate).
  { unfold r, KanbanBoard.handleDrop.
    rewrite (parseInt10_handleDragStart _ Hid), (find_by_id _ c Huniq Hc).
    rewrite (bool_decide_eq_false_2 _ Hnd). by destruct g. }
  split.
  - intros Hsame. by rewrite Hr, (bool_decide_eq_true_2 _ Hsame).
  - intros Hdiff. rewrite Hr, (bool_decide_eq_false_2 _ Hdiff). cbn [negb].
    assert (Hname : CaseData.name (KanbanBoard.assign g v c) = CaseData.name c)
      by (by destruct g).
    assert (Hok : ~ processNumberOfOtherCase (KanbanBoard.assign g v c) (App.cases st)).
    { apply (update_of_stored_number_ok st c); [done | done | done | by destruct g]. }
    split; [done|]. split; [|split; [|split; [|split]]].
    + rewrite (handleUpdateCase_accepted currentUser nowISO _ st i Hok), Hi.
      cbn [fmap option_fmap option_map].
      change (CaseData.id (KanbanBoard.assign g v c)) with (CaseData.id c).
      rewrite Z.eqb_refl, Hname. by rewrite bool_decide_eq_true_2.
    + intros j c0 Hji Hj.
      by apply (update_keeps_other_positions currentUser nowISO st c _ c0 i j).
    + by destruct g.
    + exact Hname.
    + unfold KanbanBoard.columnCases. cbn [List.filter KanbanBoard.id].
      assert (Hfield : JS.orString (KanbanBoard.fieldOf g (KanbanBoard.assign g v c))
                         KanbanBoard.ND = v).
      { destruct v as [|k v]; [done|]. by destruct g. }
      destruct g; try done; by rewrite (bool_decide_eq_true_2 _ Hfield).
Qed.

Lemma X23_witness :
  KanbanBoard.handleDrop ByStatus (App.cases twoCaseStore) (App.users twoCaseStore)
    (JS.lit "1") (JS.lit "Arquivado")
  = KanbanBoard.onUpdateCase case1Archived.
Proof.
  assert (Hi : App.cases twoCaseStore !! 1%nat = Some storedCase1)
    by (rewrite twoCaseStore_cases; reflexivity).
  assert (Hg : ByStatus <> ByName) by discriminate.
  assert (Hid : 0 <= CaseData.id storedCase1) by (vm_compute; discriminate).
  assert (Hnd : JS.lit "Arquivado" <> KanbanBoard.ND) by (vm_compute; discriminate).
  assert (Hv : JS.lit "Arquivado" <> []) by (vm_compute; discriminate).
  destruct (X23_drop_on_field_column admin sampleClock twoCaseStore ByStatus storedCase1
              (JS.lit "Arquivado") 1%nat Hg (proj1 twoCaseStore_unique)
              (proj2 twoCaseStore_unique) Hi Hid Hnd Hv) as [_ Hmove].
  destruct Hmove as [Hr _]; [vm_compute; discriminate|]. exact Hr.
Defined.

Lemma setOf_fold (names seen : list jsstring) :
  NoDup seen ->
  NoDup (fold_left (fun seen n => if bool_decide (n ∈ seen) then seen else seen ++ [n])
           names seen)
  /\ forall x,
       x ∈ fold_left (fun seen n => if bool_decide (n ∈ seen) then seen else seen ++ [n])
             names seen
       <-> x ∈ seen \/ x ∈ names.
Proof.
  revert seen. induction names as [|n names IH]; intros seen Hseen.
  - cbn. split; [done|]. intros x. split; [by left|].
    intros [H | H]; [done | by apply not_elem_of_nil in H].
  - cbn [fold_left]. case_bool_decide as Hn.
    + destruct (IH seen Hseen) as [Hnd Hel]. split; [done|].
      intros x. rewrite Hel, elem_of_cons. split; [tauto|].
      intros [H | [-> | H]]; tauto.
    + assert (Hseen' : NoDup (seen ++ [n])).
      { apply NoDup_app. split; [done|]. split; [|apply NoDup_singleton].
        intros x Hx Hx'. apply list_elem_of_singleton in Hx'. by subst x. }
      destruct (IH (seen ++ [n]) Hseen') as [Hnd Hel]. split; [done|].
      intros x. rewrite Hel, elem_of_app, list_elem_of_singleton, elem_of_cons. tauto.
Qed.

Lemma setOf_spec (names : list jsstring) :
  NoDup (KanbanBoard.setOf names)
  /\ forall x, x ∈ KanbanBoard.setOf names <-> x ∈ names.
Proof.
  destruct (setOf_fold names [] (NoDup_nil_2)) as [Hnd Hel]. split; [exact Hnd|].
  intros x. unfold KanbanBoard.setOf. rewrite Hel. split; [|by right].
  intros [H | H]; [by apply not_elem_of_nil in H | done].
Qed.

Lemma assigneeNames_elem_of (cases : list CaseData.t) (n : jsstring) :
  n ∈ KanbanBoard.setOf
        (List.filter (fun name => KanbanBoard.truthy name
                                  && negb (bool_decide (name = App.ownerMsTributario)))
           (map CaseData.name cases))
  <-> n <> [] /\ n <> App.ownerMsTributario /\ exists c, c ∈ cases /\ CaseData.name c = n.
Proof.
  rewrite (proj2 (setOf_spec _)), elem_of_filterb, elem_of_map, andb_true_iff,
    negb_true_iff, bool_decide_eq_false.
  split.
  - intros [[c [-> Hc]] [Ht Hm]]. split; [by destruct (CaseData.name c)|]. split; [done|].
    by exists c.
  - intros (Hne & Hm & c & Hc & <-). split; [by exists c|]. split; [|done].
    by destruct (CaseData.name c).
Qed.

Lemma insertSorted_perm (x : jsstring) (l : list jsstring) :
  insertSorted x l ≡ₚ x :: l.
Proof.
  induction l as [|y l IH]; [done|]. cbn [insertSorted].
  destruct (leString x y); [done|]. rewrite IH. apply Permutation_swap.
Qed.

Lemma sortByCodeUnits_perm (l : list jsstring) : sortByCodeUnits l ≡ₚ l.
Proof.
  induction l as [|x l IH]; [done|].
  unfold sortByCodeUnits in *. cbn [fold_right]. by rewrite insertSorted_perm, IH.
Qed.

(** X24. Grouped by assignee, the board shows every case exactly once,
    provided no case is assigned to someone called 'N/D': the column ids are
    pairwise distinct, a case without assignee (empty name or
    'Ms Tributário') is a card of the first column only, and any other case
    is a card of the column of its assignee only.  This holds for whatever
    order the host's sort gives the names.  Grouped by status, a case is a
    card of some column exactly when its status, or 'N/D' for an empty one,
    is the name of a configured status. *)
Theorem X24_assignee_board_shows_every_case_once
    (sort : list jsstring -> list jsstring)
    (statuses fases tribunals : list Lookup.t) (cases : list CaseData.t) :
  (forall l, sort l ≡ₚ l) ->
  (forall c, c ∈ cases -> CaseData.name c <> KanbanBoard.ND) ->
  let cols := KanbanBoard.columns sort ByName statuses fases tribunals cases in
  NoDup (map KanbanBoard.id cols)
  /\ (forall c, c ∈ cases ->
        exists col,
          col ∈ cols /\ c ∈ KanbanBoard.columnCases ByName cases col
          /\ (KanbanBoard.id col = KanbanBoard.ND <-> unassigned c)
          /\ forall col', col' ∈ cols -> c ∈ KanbanBoard.columnCases ByName cases col' ->
                          col' = col)
  /\ (forall c, c ∈ cases ->
        (exists col, col ∈ KanbanBoard.columns sort ByStatus statuses fases tribunals cases
                     /\ c ∈ KanbanBoard.columnCases ByStatus cases col)
        <-> exists s, s ∈ statuses
                      /\ Lookup.name s
                         = JS.orString (Some (CaseFields.status (CaseData.fields c)))
                             KanbanBoard.ND).
Proof.
  intros Hsort Hnd cols.
  set (names := KanbanBoard.setOf
        (List.filter (fun name => KanbanBoard.truthy name
                                  && negb (bool_decide (name = App.ownerMsTributario)))
           (map CaseData.name cases))).
  set (head := {| KanbanBoard.id := KanbanBoard.ND;
                  KanbanBoard.name := KanbanBoard.naoAtribuido |}).
  assert (Hcols : cols = head :: map (fun n => {| KanbanBoard.id := n; KanbanBoard.name := n |})
                                   (sort names)) by reflexivity.
  assert (Hin : forall n, n ∈ sort names
            <-> n <> [] /\ n <> App.ownerMsTributario
                /\ exists c, c ∈ cases /\ CaseData.name c = n).
  { intros n. rewrite (Hsort names). apply assigneeNames_elem_of. }
  assert (Hcol : forall col, col ∈ cols
            <-> col = head
                \/ exists n, n ∈ sort names
                             /\ col = {| KanbanBoard.id := n; KanbanBoard.name := n |}).
  { intros col. rewrite Hcols, elem_of_cons, elem_of_map.
    split; (intros [H | [n [H1 H2]]]; [by left | right; by exists n]). }
  assert (Hcard : forall c col, c ∈ cases ->
            (c ∈ KanbanBoard.columnCases ByName cases col
             <-> if bool_decide (KanbanBoard.id col = KanbanBoard.ND) then unassigned c
                 else CaseData.name c = KanbanBoard.id col)).
  { intros c col Hc. unfold KanbanBoard.columnCases. rewrite elem_of_filterb.
    case_bool_decide.
    - rewrite unassigned_test. tauto.
    - rewrite bool_decide_eq_true. tauto. }
  split; [|split].
  - rewrite Hcols. cbn [map KanbanBoard.id]. rewrite map_map. cbn [KanbanBoard.id].
    rewrite map_id. apply NoDup_cons. split.
    + intros H. apply Hin in H as (_ & _ & c & Hc & Hname). by apply (Hnd c Hc).
    + rewrite (Hsort names). apply setOf_spec.
  - intros c Hc. destruct (decide (unassigned c)) as [Hun | Hass].
    + exists head. split; [apply Hcol; by left|]. split; [by apply Hcard|].
      split; [done|].
      intros col' Hcol' Hcard'. apply Hcol in Hcol' as [-> | [n [Hn ->]]]; [done|].
      apply Hcard in Hcard'; [|done]. cbn [KanbanBoard.id] in Hcard'.
      apply Hin in Hn as (Hne & Hm & c0 & Hc0 & Hname).
      case_bool_decide as Hn; [|destruct Hun; congruence].
      cbn [KanbanBoard.id] in Hn. subst n. by destruct (Hnd c0 Hc0).
    + assert (Hn : CaseData.name c ∈ sort names).
      { apply Hin. unfold unassigned in Hass. split; [tauto|]. split; [tauto|].
        by exists c. }
      exists {| KanbanBoard.id := CaseData.name c; KanbanBoard.name := CaseData.name c |}.
      split; [apply Hcol; right; by exists (CaseData.name c)|].
      split; [apply Hcard; [done|]; cbn [KanbanBoard.id];
              by rewrite (bool_decide_eq_false_2 _ (Hnd c Hc))|].
      split; [cbn [KanbanBoard.id]; split; [intros H; by destruct (Hnd c Hc) | done]|].
      intros col' Hcol' Hcard'. apply Hcard in Hcard'; [|done].
      apply Hcol in Hcol' as [-> | [n [Hn' ->]]].
      * cbn [KanbanBoard.id] in Hcard'. by rewrite bool_decide_eq_true_2 in Hcard'.
      * cbn [KanbanBoard.id] in Hcard'. case_bool_decide as Hn0; [|by rewrite Hcard'].
        subst n. apply Hin in Hn' as (_ & _ & c0 & Hc0 & Hname). by destruct (Hnd c0 Hc0).
  - intros c Hc. cbn [KanbanBoard.columns]. split.
    + intros [col [Hcol' Hcard']]. apply elem_of_map in Hcol' as [s [-> Hs]].
      exists s. split; [done|].
      unfold KanbanBoard.columnCases in Hcard'. apply elem_of_filterb in Hcard' as [_ H].
      apply bool_decide_eq_true in H. done.
    + intros [s [Hs Hname]].
      exists {| KanbanBoard.id := Lookup.name s; KanbanBoard.name := Lookup.name s |}.
      split; [apply elem_of_map; by exists s|].
      unfold KanbanBoard.columnCases. apply elem_of_filterb. split; [done|].
      apply bool_decide_eq_true. done.
Qed.

Lemma X24_witness :
  ((forall l, sortByCodeUnits l ≡ₚ l)
   /\ forall c, c ∈ App.cases twoCaseStore -> CaseData.name c <> KanbanBoard.ND)
  /\ map KanbanBoard.id
       (KanbanBoard.columns sortByCodeUnits ByName [] [] [] (App.cases twoCaseStore))
     = [KanbanBoard.ND; JS.lit "Alice"; JS.lit "Bob"]
  /\ NoDup (map KanbanBoard.id
              (KanbanBoard.columns sortByCodeUnits ByName [] [] []
                 (App.cases twoCaseStore))).
Proof.
  assert (Hnd : forall c, c ∈ App.cases twoCaseStore -> CaseData.name c <> KanbanBoard.ND).
  { intros c Hc. rewrite twoCaseStore_cases in Hc.
    apply elem_of_cons in Hc as [-> | Hc]; [vm_compute; discriminate|].
    apply list_elem_of_singleton in Hc. subst c. vm_compute. discriminate. }
  split; [split; [exact sortByCodeUnits_perm | exact Hnd]|].
  split; [vm_compute; reflexivity|].
  exact (proj1 (X24_assignee_board_shows_every_case_once sortByCodeUnits [] [] []
                  (App.cases twoCaseStore) sortByCodeUnits_perm Hnd)).
Defined.

(** X25. On the boards grouped by assignee and by co-responsible the first
    column has the id 'N/D' and the title 'Não atribuído', and every other
    column has its id as title.  A column passes its title to [handleDrop],
    so the value 'N/D' reaches [handleDrop] only when a stored case carries
    the name 'N/D'.  Dropping a card on the first column of the assignee
    board therefore never asks for the assignee 'Ms Tributário': when it
    asks for an update, the assignee of the update is 'Não atribuído', and
    a case with that assignee is not a card of the first column. *)
Theorem X25_unassigned_column_passes_its_title
    (sort : list jsstring -> list jsstring)
    (statuses fases tribunals : list Lookup.t) (cases : list CaseData.t)
    (users : list User.t) (g : GroupBy) :
  (forall l, sort l ≡ₚ l) ->
  g = ByName \/ g = ByCoResponsibleName ->
  let cols := KanbanBoard.columns sort g statuses fases tribunals cases in
  let head := {| KanbanBoard.id := KanbanBoard.ND;
                 KanbanBoard.name := KanbanBoard.naoAtribuido |} in
  (exists rest, cols = head :: rest
                /\ forall col, col ∈ rest -> KanbanBoard.name col = KanbanBoard.id col)
  /\ (forall col, col ∈ cols -> KanbanBoard.name col = KanbanBoard.ND ->
        exists c, c ∈ cases /\ KanbanBoard.fieldOf g c = Some KanbanBoard.ND)
  /\ (forall data updatedCase,
        KanbanBoard.onDrop ByName cases users data head
        = KanbanBoard.onUpdateCase updatedCase ->
        CaseData.name updatedCase = KanbanBoard.naoAtribuido
        /\ ~ unassigned updatedCase
        /\ KanbanBoard.columnCases ByName [updatedCase] head = []).
Proof.
  intros Hsort Hg cols head.
  assert (Hrest : exists names,
            cols = head :: map (fun n => {| KanbanBoard.id := n; KanbanBoard.name := n |})
                             (sort names)
            /\ forall n, n ∈ names -> exists c, c ∈ cases /\ KanbanBoard.fieldOf g c = Some n).
  { destruct Hg as [-> | ->]; eexists; (split; [reflexivity|]); intros n Hn.
    - apply assigneeNames_elem_of in Hn as (_ & _ & c & Hc & <-). by exists c.
    - apply (proj2 (setOf_spec _)), elem_of_filterb in Hn as [Hn Ht].
      apply elem_of_map in Hn as [c [-> Hc]]. exists c. split; [done|].
      cbn [KanbanBoard.fieldOf]. by destruct (CaseData.coResponsibleName c) as [[|k s]|]. }
  destruct Hrest as (names & Hcols & Hnames).
  assert (Hne : KanbanBoard.naoAtribuido <> KanbanBoard.ND) by (vm_compute; discriminate).
  split; [|split].
  - eexists. split; [exact Hcols|]. intros col Hcol.
    apply elem_of_map in Hcol as [n [-> _]]. done.
  - intros col Hcol Hname. rewrite Hcols in Hcol.
    apply elem_of_cons in Hcol as [-> | Hcol]; [done|].
    apply elem_of_map in Hcol as [n [-> Hn]]. cbn [KanbanBoard.name] in Hname. subst n.
    apply Hnames. by rewrite <- (Hsort names).
  - intros data updatedCase. unfold KanbanBoard.onDrop, KanbanBoard.handleDrop.
    subst head. cbn [KanbanBoard.name].
    destruct (KanbanBoard.parseInt10 data) as [caseId|]; [|done].
    destruct (List.find _ cases) as [caseToUpdate|]; [|done].
    rewrite (bool_decide_eq_false_2 _ Hne), andb_false_r. cbn [orb].
    destruct (bool_decide (CaseData.name caseToUpdate = KanbanBoard.naoAtribuido));
      [intros H; discriminate H|].
    intros [= <-]. split; [done|]. split.
    + intros [H | H]; vm_compute in H; discriminate.
    + reflexivity.
Qed.

Lemma X25_witness :
  ((forall l, sortByCodeUnits l ≡ₚ l) /\ (ByName = ByName \/ ByName = ByCoResponsibleName))
  /\ forall updatedCase,
       KanbanBoard.onDrop ByName (App.cases twoCaseStore) (App.users twoCaseStore)
         (JS.lit "1")
         {| KanbanBoard.id := KanbanBoard.ND; KanbanBoard.name := KanbanBoard.naoAtribuido |}
       = KanbanBoard.onUpdateCase updatedCase ->
       CaseData.name updatedCase = KanbanBoard.naoAtribuido.
Proof.
  split; [split; [exact sortByCodeUnits_perm | by left]|].
  intros updatedCase Hdrop.
  destruct (X25_unassigned_column_passes_its_title sortByCodeUnits [] [] []
              (App.cases twoCaseStore) (App.users twoCaseStore) ByName
              sortByCodeUnits_perm (or_introl eq_refl)) as (_ & _ & Hhead).
  exact (proj1 (Hhead (JS.lit "1") updatedCase Hdrop)).
Defined.

(* ===================================================================== *)
(** ** Editing several rows of the spreadsheet *)
(* ===================================================================== *)

Lemma filter_unique_id (cs : list CaseData.t) (c : CaseData.t) :
  uniqueIds cs -> c ∈ cs ->
  List.filter (fun d => CaseData.id d =? CaseData.id c) cs = [c].
Proof.
  unfold uniqueIds. induction cs as [|a cs IH]; intros Hnd Hc;
    [by apply not_elem_of_nil in Hc|].
  cbn [map] in Hnd. apply NoDup_cons in Hnd as [Ha Hnd]. cbn [List.filter].
  apply elem_of_cons in Hc as [-> | Hc].
  - rewrite Z.eqb_refl. f_equal. apply filterb_none. intros d Hd.
    apply Z.eqb_neq. intros E. apply Ha. rewrite <- E. apply elem_of_map. by exists d.
  - assert (E : (CaseData.id a =? CaseData.id c) = false).
    { apply Z.eqb_neq. intros E. apply Ha. rewrite E. apply elem_of_map. by exists c. }
    rewrite E. by apply IH.
Qed.

Lemma filterb_map {A B} (f : B -> bool) (g : A -> B) (l : list A) :
  List.filter f (map g l) = map g (List.filter (fun x => f (g x)) l).
Proof.
  induction l as [|x l IH]; [done|]. cbn [map List.filter].
  destruct (f (g x)); cbn [map]; by rewrite IH.
Qed.

(** X26. Reassigning a case through the multi-row editor is not logged.
    In a store with distinct ids, enabling the editor, choosing another
    assignee for one row and saving passes exactly that row to
    [handleUpdateMultipleCases]; the stored case gets the new assignee and
    the email of the first user of that name (empty when there is none), its
    log, its co-responsible and all its other fields stay as they were, and
    so do the other cases and the whole flattened history; the editor is
    left closed and empty.  Saving without any change passes no row and
    leaves the cases as they are. *)
Theorem X26_multi_edit_reassigns_without_log
    (st : App.State) (c : CaseData.t) (value : jsstring) (i : nat) :
  uniqueIds (App.cases st) ->
  App.cases st !! i = Some c ->
  let edit := MultiEdit.handleMultiEditChange (App.users st) (CaseData.id c)
                MultiEdit.FieldName value
                (MultiEdit.handleEnableMultiEdit (App.cases st)) in
  let st' := MultiEdit.reassignAndSave (CaseData.id c) value st in
  MultiEdit.handleSaveMultiEdit edit
  = ([reassigned value (emailOfUserNamed (App.users st) value) c],
     MultiEdit.handleCancelMultiEdit)
  /\ App.cases st' !! i
     = Some (reassigned value (emailOfUserNamed (App.users st) value) c)
  /\ (forall j c0, j <> i -> App.cases st !! j = Some c0 -> App.cases st' !! j = Some c0)
  /\ length (App.cases st') = length (App.cases st)
  /\ TramitationHistory.flatHistory (App.cases st')
     = TramitationHistory.flatHistory (App.cases st)
  /\ App.alerts st' = App.alerts st
  /\ App.cases (App.handleUpdateMultipleCases
                  (fst (MultiEdit.handleSaveMultiEdit
                          (MultiEdit.handleEnableMultiEdit (App.cases st)))) st)
     = App.cases st.
Proof.
  intros Huniq Hi edit st'.
  assert (Hc : c ∈ App.cases st) by (by apply list_elem_of_lookup_2 in Hi).
  set (u := reassigned value (emailOfUserNamed (App.users st) value) c).
  assert (Hsave : MultiEdit.handleSaveMultiEdit edit = ([u], MultiEdit.handleCancelMultiEdit)).
  { unfold MultiEdit.handleSaveMultiEdit, edit, MultiEdit.handleMultiEditChange,
      MultiEdit.handleEnableMultiEdit.
    cbn [MultiEdit.draftCases MultiEdit.modifiedCaseIds]. f_equal.
    rewrite filterb_map.
    rewrite (filterb_ext_in _ (fun d => CaseData.id d =? CaseData.id c)).
    - rewrite (filter_unique_id _ c Huniq Hc). cbn [map]. by rewrite Z.eqb_refl.
    - intros d _.
      assert (Hid : CaseData.id (if CaseData.id d =? CaseData.id c
                                 then {| CaseData.id := CaseData.id d;
                                         CaseData.id2 := CaseData.id2 d;
                                         CaseData.fields :=
                                           CaseFields.set_email
                                             (JS.orString
                                                (User.email <$>
                                                 List.find (fun u0 => bool_decide
                                                              (User.name u0 = value))
                                                   (App.users st)) [])
                                             (CaseFields.set_name value (CaseData.fields d)) |}
                                 else d) = CaseData.id d)
        by (by destruct (CaseData.id d =? CaseData.id c)).
      rewrite Hid. destruct (CaseData.id d =? CaseData.id c) eqn:E.
      + apply Z.eqb_eq in E. apply bool_decide_eq_true.
        apply elem_of_union. left. by apply elem_of_singleton.
      + apply Z.eqb_neq in E. apply bool_decide_eq_false.
        intros H. apply elem_of_union in H as [H | H].
        * by apply elem_of_singleton in H.
        * by apply elem_of_empty in H. }
  assert (Hcases : App.cases st'
            = map (fun c0 => if CaseData.id c0 =? CaseData.id c then u else c0)
                (App.cases st)).
  { unfold st', MultiEdit.reassignAndSave. fold edit. rewrite Hsave.
    unfold App.handleUpdateMultipleCases. cbn [fst fold_left App.setCases App.cases].
    apply map_ext. intros c0. cbv beta.
    change (CaseData.id u) with (CaseData.id c).
    destruct (CaseData.id c0 =? CaseData.id c) eqn:E.
    - apply Z.eqb_eq in E. by rewrite E, lookup_insert_eq.
    - apply Z.eqb_neq in E. rewrite lookup_insert_ne by done. by rewrite lookup_empty. }
  split; [exact Hsave|]. split; [|split; [|split; [|split; [|split]]]].
  - rewrite Hcases, lookup_map, Hi. cbn. by rewrite Z.eqb_refl.
  - intros j c0 Hji Hj. rewrite Hcases, lookup_map, Hj. cbn. f_equal.
    destruct (CaseData.id c0 =? CaseData.id c) eqn:E; [|done].
    apply Z.eqb_eq in E. destruct Hji.
    apply (NoDup_lookup (map CaseData.id (App.cases st)) j i (CaseData.id c)); [done | |].
    + rewrite lookup_map, Hj. cbn. by rewrite E.
    + by rewrite lookup_map, Hi.
  - by rewrite Hcases, length_map.
  - rewrite Hcases.
    assert (Hsame : forall c0, c0 ∈ App.cases st ->
              (if CaseData.id c0 =? CaseData.id c then u else c0) = c0
              \/ (c0 = c /\ (if CaseData.id c0 =? CaseData.id c then u else c0) = u)).
    { intros c0 Hc0. destruct (CaseData.id c0 =? CaseData.id c) eqn:E; [|by left].
      apply Z.eqb_eq in E. right. split; [|done].
      exact (NoDup_map_eq _ _ c0 c Huniq Hc0 Hc E). }
    revert Hsame. generalize (App.cases st). intros cs.
    induction cs as [|c0 cs IH]; intros Hsame; [done|].
    cbn [map]. rewrite !flatHistory_cons.
    rewrite IH by (intros c1 Hc1; apply Hsame; by right). f_equal.
    destruct (Hsame c0 (list_elem_of_here _ _)) as [-> | [-> ->]]; done.
  - unfold st', MultiEdit.reassignAndSave, App.handleUpdateMultipleCases. done.
  - unfold MultiEdit.handleSaveMultiEdit, MultiEdit.handleEnableMultiEdit.
    cbn [fst MultiEdit.draftCases MultiEdit.modifiedCaseIds].
    rewrite filterb_none by (intros d _; by apply bool_decide_eq_false, not_elem_of_empty).
    unfold App.handleUpdateMultipleCases. cbn [fold_left App.setCases App.cases].
    rewrite <- (map_id (App.cases st)) at 2. apply map_ext. intros c0. cbv beta.
    by rewrite lookup_empty.
Qed.

Lemma X26_witness :
  (uniqueIds (App.cases twoCaseStore) /\ App.cases twoCaseStore !! 1%nat = Some storedCase1)
  /\ App.cases (MultiEdit.reassignAndSave 1 (JS.lit "Bob") twoCaseStore) !! 1%nat
     = Some (reassigned (JS.lit "Bob") (JS.lit "bob@example.com") storedCase1)
  /\ TramitationHistory.flatHistory
       (App.cases (MultiEdit.reassignAndSave 1 (JS.lit "Bob") twoCaseStore))
     = TramitationHistory.flatHistory (App.cases twoCaseStore).
Proof.
  assert (Hi : App.cases twoCaseStore !! 1%nat = Some storedCase1)
    by (rewrite twoCaseStore_cases; reflexivity).
  split; [split; [exact (proj1 twoCaseStore_unique) | exact Hi]|].
  destruct (X26_multi_edit_reassigns_without_log twoCaseStore storedCase1 (JS.lit "Bob")
              1%nat (proj1 twoCaseStore_unique) Hi) as (_ & Hcase & _ & _ & Hhist & _).
  split; [exact Hcase | exact Hhist].
Defined.

(* ===================================================================== *)
(** ** Tribunals, phases and statuses *)
(* ===================================================================== *)

Lemma insertByName_perm (x : Lookup.t) (l : list Lookup.t) :
  insertByName x l ≡ₚ x :: l.
Proof.
  induction l as [|y l IH]; [done|]. cbn [insertByName].
  destruct (leString _ _); [done|]. rewrite IH. apply Permutation_swap.
Qed.

Lemma sortItemsByCodeUnits_perm (l : list Lookup.t) : sortItemsByCodeUnits l ≡ₚ l.
Proof.
  induction l as [|x l IH]; [done|].
  unfold sortItemsByCodeUnits in *. cbn [fold_right]. by rewrite insertByName_perm, IH.
Qed.

Lemma NoDup_map_perm {A B} (f : A -> B) (l l' : list A) :
  l ≡ₚ l' -> NoDup (map f l') -> NoDup (map f l).
Proof.
  intros Hp Hnd. apply (Permutation_map f) in Hp. by rewrite Hp.
Qed.

(** X27. The handlers of the lists of tribunals, phases and statuses keep
    the names pairwise distinct up to surrounding white space and letter
    case, and the ids pairwise distinct and not above the id counter,
    whatever order the host's sort gives, as long as the counter is in the
    range where [++] counts by ones (below 2^53 in magnitude).  A new name that, so compared, is
    in the list, and a rename to the name of another item, are rejected
    with an alert and change nothing else.  An accepted name is in the list
    afterwards, under the next id of the counter, with the items that were
    there; a deletion removes the items of the given id only. *)
Theorem X27_lookup_names_stay_unique
    (P : Platform) (sortByName : list Lookup.t -> list Lookup.t)
    (kind : LookupKind) (st : Lookups.State) :
  (forall l, sortByName l ≡ₚ l) ->
  lookupsWellFormed P st ->
  counterInRange (Lookups.lastId st) ->
  (forall newName, lookupsWellFormed P (Lookups.handleAdd P sortByName kind newName st))
  /\ (forall updated, lookupsWellFormed P (Lookups.handleUpdate P sortByName kind updated st))
  /\ (forall itemId, lookupsWellFormed P (Lookups.handleDelete itemId st))
  /\ (forall newName,
        (exists t, t ∈ Lookups.items st
                   /\ emailKey P (Lookup.name t) = emailKey P newName) ->
        Lookups.handleAdd P sortByName kind newName st
        = Lookups.alert (AlertNameRegistered kind newName) st)
  /\ (forall newName,
        (forall t, t ∈ Lookups.items st ->
                   emailKey P (Lookup.name t) <> emailKey P newName) ->
        Lookups.items (Lookups.handleAdd P sortByName kind newName st)
        ≡ₚ Lookups.items st
           ++ [ {| Lookup.id := Lookups.lastId st + 1; Lookup.name := newName |} ]
        /\ Lookups.lastId (Lookups.handleAdd P sortByName kind newName st)
           = Lookups.lastId st + 1
        /\ Lookups.alerts (Lookups.handleAdd P sortByName kind newName st)
           = Lookups.alerts st)
  /\ (forall updated,
        (exists t, t ∈ Lookups.items st /\ Lookup.id t <> Lookup.id updated
                   /\ emailKey P (Lookup.name t) = emailKey P (Lookup.name updated)) ->
        Lookups.handleUpdate P sortByName kind updated st
        = Lookups.alert (AlertNameExists kind (Lookup.name updated)) st)
  /\ (forall itemId t,
        t ∈ Lookups.items (Lookups.handleDelete itemId st)
        <-> t ∈ Lookups.items st /\ Lookup.id t <> itemId).
Proof.
  intros Hsort (Hids & Hbelow & Hnames) Hrange.
  assert (Hadd : forall newName,
            existsb (fun t => bool_decide (toLowerCase P (JS.trim (Lookup.name t))
                                = toLowerCase P (JS.trim newName)))
              (Lookups.items st) = true
            <-> exists t, t ∈ Lookups.items st
                  /\ emailKey P (Lookup.name t) = emailKey P newName).
  { intros newName. rewrite existsb_elem_of. unfold emailKey.
    split; intros [t [Ht H]]; exists t; (split; [done|]).
    - by apply bool_decide_eq_true in H.
    - by apply bool_decide_eq_true. }
  assert (Hupd : forall updated,
            existsb (fun t => negb (Lookup.id t =? Lookup.id updated)
                       && bool_decide (toLowerCase P (JS.trim (Lookup.name t))
                                = toLowerCase P (JS.trim (Lookup.name updated))))
              (Lookups.items st) = true
            <-> exists t, t ∈ Lookups.items st /\ Lookup.id t <> Lookup.id updated
                  /\ emailKey P (Lookup.name t) = emailKey P (Lookup.name updated)).
  { intros updated. rewrite existsb_elem_of. unfold emailKey.
    split; intros [t [Ht H]]; exists t; (split; [done|]).
    - apply andb_true_iff in H as [Hid He]. apply negb_true_iff, Z.eqb_neq in Hid.
      by apply bool_decide_eq_true in He.
    - destruct H as [Hid He]. apply andb_true_iff. split.
      + by apply negb_true_iff, Z.eqb_neq.
      + by apply bool_decide_eq_true. }
  split; [|split; [|split; [|split; [|split; [|split]]]]].
  - intros newName. unfold Lookups.handleAdd.
    rewrite (increment_exact _ Hrange).
    destruct (existsb _ _) eqn:E; [done|].
    assert (Hfree : forall t, t ∈ Lookups.items st ->
              emailKey P (Lookup.name t) <> emailKey P newName).
    { intros t Ht Heq.
      assert (H : existsb (fun t => bool_decide (toLowerCase P (JS.trim (Lookup.name t))
                                      = toLowerCase P (JS.trim newName)))
                    (Lookups.items st) = true) by (apply Hadd; eauto).
      congruence. }
    unfold lookupsWellFormed. cbn [Lookups.items Lookups.lastId]. split; [|split].
    + apply (NoDup_map_perm _ _ _ (Hsort _)). rewrite map_app. cbn [map Lookup.id].
      apply NoDup_app. split; [done|]. split; [|apply NoDup_singleton].
      intros x Hx Hx'. apply list_elem_of_singleton in Hx'. subst x.
      apply elem_of_map in Hx as [t [Heq Ht]]. specialize (Hbelow t Ht). lia.
    + intros t Ht. rewrite (Hsort _) in Ht. apply elem_of_app in Ht as [Ht | Ht].
      * specialize (Hbelow t Ht). lia.
      * apply list_elem_of_singleton in Ht. subst t. cbn. lia.
    + apply (NoDup_map_perm _ _ _ (Hsort _)). rewrite map_app. cbn [map Lookup.name].
      apply NoDup_app. split; [done|]. split; [|apply NoDup_singleton].
      intros x Hx Hx'. apply list_elem_of_singleton in Hx'. subst x.
      apply elem_of_map in Hx as [t [Heq Ht]]. by apply (Hfree t Ht).
  - intros updated. unfold Lookups.handleUpdate.
    destruct (existsb _ _) eqn:E; [done|].
    assert (Hfree : forall t, t ∈ Lookups.items st -> Lookup.id t <> Lookup.id updated ->
              emailKey P (Lookup.name t) <> emailKey P (Lookup.name updated)).
    { intros t Ht Hid Heq.
      assert (H : existsb (fun t => negb (Lookup.id t =? Lookup.id updated)
                     && bool_decide (toLowerCase P (JS.trim (Lookup.name t))
                          = toLowerCase P (JS.trim (Lookup.name updated))))
                    (Lookups.items st) = true) by (apply Hupd; eauto).
      congruence. }
    destruct (replace_keeps_NoDup Lookup.id (fun t => emailKey P (Lookup.name t))
                updated (Lookups.items st) Hids Hnames Hfree) as [Hsame Hnodup].
    unfold lookupsWellFormed. cbn [Lookups.items Lookups.lastId]. split; [|split].
    + apply (NoDup_map_perm _ _ _ (Hsort _)). by rewrite Hsame.
    + intros t Ht. rewrite (Hsort _) in Ht.
      assert (H : Lookup.id t ∈ map Lookup.id (Lookups.items st)).
      { rewrite <- Hsame. apply elem_of_map. by exists t. }
      apply elem_of_map in H as [t0 [-> Ht0]]. by apply Hbelow.
    + by apply (NoDup_map_perm _ _ _ (Hsort _)).
  - intros itemId. unfold lookupsWellFormed, Lookups.handleDelete.
    cbn [Lookups.items Lookups.lastId]. split; [|split].
    + exact (sublist_NoDup _ _ Hids (map_filterb_sublist _ _ _)).
    + intros t Ht. apply elem_of_filterb in Ht as [Ht _]. by apply Hbelow.
    + exact (sublist_NoDup _ _ Hnames (map_filterb_sublist _ _ _)).
  - intros newName Htaken. unfold Lookups.handleAdd.
    rewrite (increment_exact _ Hrange).
    by rewrite (proj2 (Hadd newName) Htaken).
  - intros newName Hfree. unfold Lookups.handleAdd.
    rewrite (increment_exact _ Hrange).
    destruct (existsb _ _) eqn:E.
    + apply Hadd in E as [t [Ht Heq]]. by destruct (Hfree t Ht).
    + cbn [Lookups.items Lookups.lastId Lookups.alerts]. split; [apply Hsort | done].
  - intros updated Htaken. unfold Lookups.handleUpdate.
    by rewrite (proj2 (Hupd updated) Htaken).
  - intros itemId t. unfold Lookups.handleDelete. cbn [Lookups.items].
    rewrite elem_of_filterb, negb_true_iff, Z.eqb_neq. done.
Qed.

Lemma sampleStatuses_wellFormed : lookupsWellFormed platformUTC sampleStatuses.
Proof.
  split; [|split].
  - apply (bool_decide_unpack _). vm_compute. exact I.
  - intros t Ht. unfold sampleStatuses in Ht. cbn [Lookups.items] in Ht.
    repeat (apply elem_of_cons in Ht as [-> | Ht]; [vm_compute; discriminate|]).
    by apply not_elem_of_nil in Ht.
  - apply (bool_decide_unpack _). vm_compute. exact I.
Qed.

Lemma X27_witness :
  ((forall l, sortItemsByCodeUnits l ≡ₚ l) /\ lookupsWellFormed platformUTC sampleStatuses
   /\ counterInRange (Lookups.lastId sampleStatuses))
  /\ lookupsWellFormed platformUTC
       (Lookups.handleAddStatus platformUTC sortItemsByCodeUnits (JS.lit "Conclu") sampleStatuses)
  /\ Lookups.handleAddStatus platformUTC sortItemsByCodeUnits (JS.lit " ARQUIVADO ")
       sampleStatuses
     = Lookups.alert (AlertNameRegistered OfStatuses (JS.lit " ARQUIVADO ")) sampleStatuses.
Proof.
  assert (Hrange : counterInRange (Lookups.lastId sampleStatuses))
    by (vm_compute; split; [discriminate | reflexivity]).
  split; [split; [exact sortItemsByCodeUnits_perm
                 | split; [exact sampleStatuses_wellFormed | exact Hrange]]|].
  destruct (X27_lookup_names_stay_unique platformUTC sortItemsByCodeUnits OfStatuses
              sampleStatuses sortItemsByCodeUnits_perm sampleStatuses_wellFormed Hrange)
    as (Hadd & _ & _ & Hrej & _).
  split; [apply Hadd|].
  apply Hrej. eexists. split; [by left|]. vm_compute. reflexivity.
Defined.

(* ===================================================================== *)
(** ** The lists shown to a user *)
(* ===================================================================== *)

Lemma filterb_comm {A} (f g : A -> bool) (l : list A) :
  List.filter f (List.filter g l) = List.filter g (List.filter f l).
Proof.
  rewrite !filterb_filterb. apply filterb_ext_in. intros x _. apply andb_comm.
Qed.

Lemma bySearchAndPriority_sublist (matchesSearch : jsstring -> CaseData.t -> bool)
    (filters : Views.Filters) (cs : list CaseData.t) :
  Views.bySearchAndPriority matchesSearch filters cs `sublist_of` cs.
Proof.
  unfold Views.bySearchAndPriority.
  assert (H : match Views.searchTerm filters with
              | [] => cs
              | _ :: _ => List.filter (matchesSearch (Views.searchTerm filters)) cs
              end `sublist_of` cs).
  { destruct (Views.searchTerm filters); [done | apply filterb_sublist]. }
  destruct (Views.isAnyPriority _); [done|].
  etrans; [apply filterb_sublist | exact H].
Qed.

Lemma bySearchAndPriority_filter (matchesSearch : jsstring -> CaseData.t -> bool)
    (filters : Views.Filters) (f : CaseData.t -> bool) (cs : list CaseData.t) :
  Views.bySearchAndPriority matchesSearch filters (List.filter f cs)
  = List.filter f (Views.bySearchAndPriority matchesSearch filters cs).
Proof.
  unfold Views.bySearchAndPriority.
  destruct (Views.searchTerm filters) as [|k s]; destruct (Views.isAnyPriority _);
    try done.
  - apply filterb_comm.
  - apply filterb_comm.
  - by rewrite (filterb_comm _ f), (filterb_comm _ f).
Qed.

(** X28. What a user is shown.  [myCases] and [allCases] are sublists of
    the stored cases, in store order, and never contain an archived case.
    [myCases] is empty when nobody is logged in and otherwise holds only
    cases whose email is the user's; [allCases] is empty unless the user is
    an administrator.  For an administrator, without search term, priority
    and assignee filter, [allCases] is the list of active cases; and under
    the same search term and priority, [myCases] is what [allCases] without
    assignee filter shows of the cases with the administrator's email.
    This holds whatever the text search of the host matches. *)
Theorem X28_views_show_active_cases_only
    (matchesSearch : jsstring -> CaseData.t -> bool)
    (currentUser : option User.t) (cases : list CaseData.t) (filters : Views.Filters) :
  Views.myCases matchesSearch currentUser cases filters `sublist_of` cases
  /\ Views.allCases matchesSearch currentUser cases filters `sublist_of` cases
  /\ (forall c, c ∈ Views.myCases matchesSearch currentUser cases filters ->
        c ∈ AppCases.activeCases cases
        /\ exists u, currentUser = Some u /\ CaseData.email c = User.email u)
  /\ (forall c, c ∈ Views.allCases matchesSearch currentUser cases filters ->
        c ∈ AppCases.activeCases cases
        /\ exists u, currentUser = Some u /\ User.permission u = adm)
  /\ (forall u, currentUser = Some u -> User.permission u = adm ->
        Views.allCases matchesSearch currentUser cases noFilters
        = AppCases.activeCases cases
        /\ Views.myCases matchesSearch currentUser cases filters
           = List.filter (fun c => bool_decide (CaseData.email c = User.email u))
               (Views.allCases matchesSearch currentUser cases
                  {| Views.searchTerm := Views.searchTerm filters;
                     Views.priority := Views.priority filters;
                     Views.ownerName := None |})).
Proof.
  assert (Hmy : forall u,
            Views.myCases matchesSearch (Some u) cases filters
            = List.filter (fun c => bool_decide (CaseData.email c = User.email u))
                (Views.bySearchAndPriority matchesSearch filters
                   (AppCases.activeCases cases))).
  { intros u. unfold Views.myCases. apply bySearchAndPriority_filter. }
  assert (Hall : Views.allCases matchesSearch currentUser cases filters
                 `sublist_of` Views.bySearchAndPriority matchesSearch filters
                                (AppCases.activeCases cases)
                 /\ (Views.allCases matchesSearch currentUser cases filters <> [] ->
                     exists u, currentUser = Some u /\ User.permission u = adm)).
  { unfold Views.allCases.
    destruct currentUser as [u|]; [|split; [apply sublist_nil_l | done]].
    destruct (User.permission u) eqn:Hp; [|split; [apply sublist_nil_l | done]].
    split; [|intros _; by exists u].
    destruct (Views.ownerName filters) as [[|k s]|]; try done.
    destruct (bool_decide _); [done | apply filterb_sublist]. }
  assert (Hactive : AppCases.activeCases cases `sublist_of` cases)
    by apply filterb_sublist.
  split; [|split; [|split; [|split]]].
  - destruct currentUser as [u|]; [|apply sublist_nil_l].
    rewrite Hmy. etrans; [apply filterb_sublist|].
    etrans; [apply bySearchAndPriority_sublist | exact Hactive].
  - etrans; [exact (proj1 Hall)|].
    etrans; [apply bySearchAndPriority_sublist | exact Hactive].
  - intros c Hc. destruct currentUser as [u|]; [|by apply not_elem_of_nil in Hc].
    rewrite Hmy in Hc. apply elem_of_filterb in Hc as [Hc He].
    apply bool_decide_eq_true in He. split; [|by exists u].
    exact (elem_of_sublist _ _ _ Hc (bySearchAndPriority_sublist _ _ _)).
  - intros c Hc. split.
    + pose proof (elem_of_sublist _ _ _ Hc (proj1 Hall)) as Hc'.
      exact (elem_of_sublist _ _ _ Hc' (bySearchAndPriority_sublist _ _ _)).
    + apply (proj2 Hall). intros E. rewrite E in Hc. by apply not_elem_of_nil in Hc.
  - intros u -> Hadm. split.
    + unfold Views.allCases. by rewrite Hadm.
    + rewrite Hmy. unfold Views.allCases. rewrite Hadm.
      cbn [Views.ownerName]. done.
Qed.
